(** * htmx-fiber: the repository layer over SQLite and the pagination
      computation of the book list handler (src/main.go).

    The Go code talks to the store through query text and bound
    parameters.  The embedding keeps that interface: every repository
    function builds the same query text and the same argument vector as the
    source, and a small model of database/sql over SQLite recognises the
    statement text, binds the parameters positionally and runs the
    statement on a table of books.  Failures of the store (I/O, busy,
    cancelled context, constraint) are injected from a schedule carried by
    the world, so that every error path of the source can be taken. *)

From Stdlib Require Import ZArith List String Ascii Bool Lia.
From Stdlib Require Import SpecFloat.
From Stdlib Require Import Sorted DecimalString DecimalPos.
Import ListNotations.

Local Open Scope Z_scope.

(** ** Go values *)

(** Go [int] on the 64-bit platforms the program is built for. *)
Module GoInt.
Definition MinInt : Z := - 2 ^ 63.
Definition MaxInt : Z := 2 ^ 63 - 1.
Definition in_range (z : Z) : Prop := MinInt <= z <= MaxInt.
(** two's-complement wrap-around of an arithmetic result *)
Definition wrap (z : Z) : Z := (z + 2 ^ 63) mod 2 ^ 64 - 2 ^ 63.
Definition add (a b : Z) : Z := wrap (a + b).
Definition sub (a b : Z) : Z := wrap (a - b).
Definition mul (a b : Z) : Z := wrap (a * b).
End GoInt.

(** Go [float64]: IEEE 754 binary64 with round to nearest even, as specified
    by [SpecFloat]. *)
Module Float64.
Definition prec : Z := 53.
Definition emax : Z := 1024.

(** [float64(n)] for an [int] *)
Definition of_int (n : Z) : spec_float := binary_normalize prec emax n 0 false.

(** [x / y] *)
Definition div (x y : spec_float) : spec_float := SFdiv prec emax x y.

(** [math.Ceil]: the least integral value not below [x]; zeros, infinities
    and NaN are returned as they are, and a negative fraction above -1
    gives the negative zero. *)
Definition Ceil (x : spec_float) : spec_float :=
  match x with
  | S754_finite s m e =>
      if 0 <=? e then x
      else
        match - ((- cond_Zopp s (Zpos m)) / 2 ^ (- e)) with
        | Z0 => S754_zero s
        | k => binary_normalize prec emax k 0 s
        end
  | _ => x
  end.

(** [int(x)]: the fraction is dropped.  Where the value has no [int] (too
    large, infinite, NaN) the language leaves the result to the platform;
    amd64 gives the least [int]. *)
Definition to_int (x : spec_float) : Z :=
  match x with
  | S754_zero _ => 0
  | S754_finite s m e =>
      let z := if 0 <=? e then cond_Zopp s (Zpos m) * 2 ^ e
               else Z.quot (cond_Zopp s (Zpos m)) (2 ^ (- e)) in
      if (GoInt.MinInt <=? z) && (z <=? GoInt.MaxInt) then z else GoInt.MinInt
  | _ => GoInt.MinInt
  end.
End Float64.

(** [strings.Repeat] and [strings.Join] *)
Fixpoint Repeat (s : string) (count : nat) : string :=
  match count with
  | O => EmptyString
  | S k => (s ++ Repeat s k)%string
  end.

Fixpoint Join (elems : list string) (sep : string) : string :=
  match elems with
  | [] => EmptyString
  | [e] => e
  | e :: rest => (e ++ sep ++ Join rest sep)%string
  end.

(** A Go string is a sequence of bytes. *)
Definition byte_of (a : ascii) : Z := Z.of_N (N_of_ascii a).

Fixpoint bytes (s : string) : list Z :=
  match s with
  | EmptyString => []
  | String a s' => byte_of a :: bytes s'
  end.

(** A value of type [interface{}] handed to, or received from, the driver. *)
Inductive Value : Type :=
| VNil
| VInt (z : Z)
| VText (s : string)
| VBool (b : bool).

(** [make([]interface{}, n)] and the indexed assignment [args[i] = v].  An
    index outside the slice panics in Go; here such an assignment leaves the
    slice as it is.  The loops of the source only assign below the length
    they allocated (see [fill_spec]). *)
Definition make (n : nat) : list Value := repeat VNil n.

Fixpoint assign (args : list Value) (i : nat) (v : Value) : list Value :=
  match args, i with
  | [], _ => []
  | _ :: rest, O => v :: rest
  | a :: rest, S j => a :: assign rest j v
  end.

(** [for i, id := range ids { args[i+off] = id }] *)
Fixpoint fill (args : list Value) (i : nat) (ids : list Z) : list Value :=
  match ids with
  | [] => args
  | id :: rest => fill (assign args i (VInt id)) (S i) rest
  end.

(** ** Records of the source *)

Record Book : Type := mkBook { ID : Z; Title : string; HasSales : bool }.

Record PaginatedBooks : Type :=
  mkPaginatedBooks { Books : list Book; TotalCount : Z }.

Record Pagination : Type := mkPagination {
  CurrentPage : Z;
  TotalPages : Z;
  HasPrev : bool;
  HasNext : bool;
  PrevPage : Z;
  NextPage : Z
}.

(** ** Errors and results *)

Inductive Error : Type :=
| ErrNoRows                 (* sql.ErrNoRows *)
| ErrSyntax                 (* the store does not accept the statement text *)
| ErrArgs                   (* wrong number or type of bound parameters *)
| ErrScan                   (* a column does not convert to its destination *)
| ErrFull                   (* no rowid left for an insert *)
| ErrBusy                   (* a transaction is already open *)
| ErrTxDone                 (* sql.ErrTxDone *)
| ErrTooManyVars            (* the statement has more parameters than the store takes *)
| ErrStore (code : nat)     (* any other failure reported by the driver *)
| ErrStep (n code : nat).   (* the failure [code] met at the step after the [n]-th row *)

Inductive Result (A : Type) : Type :=
| Ok (a : A)
| Err (e : Error).
Arguments Ok {A} a.
Arguments Err {A} e.

(** ** The store: SQLite behind database/sql *)

Module Sqlite.

(** The statements the store is asked to run.  [parse] recognises exactly
    the statement texts over the [books] table that occur in the program;
    any other text is a syntax error. *)
Inductive Clause : Type :=
| TitleLike                  (* title LIKE ? *)
| HasSalesIs (b : bool).     (* has_sales = 1, has_sales = 0 *)

Inductive Stmt : Type :=
| SelectBookById                     (* SELECT ... WHERE id = ? *)
| CountBooks (w : list Clause)       (* SELECT COUNT( * ) ... [WHERE ...] *)
| SelectPage (w : list Clause)       (* SELECT ... [WHERE ...] ORDER BY id LIMIT ? OFFSET ? *)
| UpdateBookById                     (* UPDATE ... SET title = ?, has_sales = ? WHERE id = ? *)
| UpdateSalesIn (n : nat)            (* UPDATE ... SET has_sales = ? WHERE id IN (?,...,?) *)
| InsertBook                         (* INSERT INTO books (title, has_sales) VALUES (?, ?) *)
| DeleteIn (n : nat).                (* DELETE ... WHERE id IN (?,...,?) *)

Fixpoint strip_prefix (p s : string) : option string :=
  match p with
  | EmptyString => Some s
  | String c p' =>
      match s with
      | EmptyString => None
      | String d s' => if Ascii.eqb c d then strip_prefix p' s' else None
      end
  end.

Definition parse_clause (s : string) : option (Clause * string) :=
  match strip_prefix "title LIKE ?" s with
  | Some r => Some (TitleLike, r)
  | None =>
      match strip_prefix "has_sales = 1" s with
      | Some r => Some (HasSalesIs true, r)
      | None =>
          match strip_prefix "has_sales = 0" s with
          | Some r => Some (HasSalesIs false, r)
          | None => None
          end
      end
  end.

(** clause ( AND clause)*, with the text that follows *)
Fixpoint parse_clauses (fuel : nat) (s : string) : option (list Clause * string) :=
  match fuel with
  | O => None
  | S k =>
      match parse_clause s with
      | None => None
      | Some (c, r) =>
          match strip_prefix " AND " r with
          | None => Some ([c], r)
          | Some r' =>
              match parse_clauses k r' with
              | Some (cs, t) => Some (c :: cs, t)
              | None => None
              end
          end
      end
  end.

Definition parse_where (s : string) : option (list Clause * string) :=
  match strip_prefix " WHERE " s with
  | None => Some ([], s)
  | Some r => parse_clauses (String.length r) r
  end.

(** What follows the first placeholder of [IN (?]: any number of [,?] and the
    closing parenthesis.  The result counts the first placeholder too.  The
    grammar sets no bound; the bound on the number of parameters is that of
    [prepare] below. *)
Fixpoint parse_in_list (s : string) : option nat :=
  match s with
  | String ")" EmptyString => Some 1%nat
  | String "," (String "?" s') => option_map S (parse_in_list s')
  | _ => None
  end.

Definition parse (q : string) : option Stmt :=
  if String.eqb q "SELECT id, title, has_sales FROM books WHERE id = ?" then Some SelectBookById
  else if String.eqb q "UPDATE books SET title = ?, has_sales = ? WHERE id = ?" then Some UpdateBookById
  else if String.eqb q "INSERT INTO books (title, has_sales) VALUES (?, ?)" then Some InsertBook
  else
    match strip_prefix "UPDATE books SET has_sales = ? WHERE id IN (?" q with
    | Some r => option_map UpdateSalesIn (parse_in_list r)
    | None =>
    match strip_prefix "DELETE FROM books WHERE id IN (?" q with
    | Some r => option_map DeleteIn (parse_in_list r)
    | None =>
    match strip_prefix "SELECT COUNT(*) FROM books" q with
    | Some r =>
        match parse_where r with
        | Some (w, EmptyString) => Some (CountBooks w)
        | _ => None
        end
    | None =>
    match strip_prefix "SELECT id, title, has_sales FROM books" q with
    | Some r =>
        match parse_where r with
        | Some (w, t) =>
            if String.eqb t " ORDER BY id LIMIT ? OFFSET ?" then Some (SelectPage w) else None
        | None => None
        end
    | None => None
    end end end end.

(** number of [?] parameters a statement takes *)
Definition clause_params (c : Clause) : nat :=
  match c with TitleLike => 1 | HasSalesIs _ => 0 end.

Definition where_params (w : list Clause) : nat :=
  fold_right (fun c n => clause_params c + n)%nat 0%nat w.

Definition num_params (st : Stmt) : nat :=
  match st with
  | SelectBookById => 1
  | CountBooks w => where_params w
  | SelectPage w => where_params w + 2
  | UpdateBookById => 3
  | UpdateSalesIn n => 1 + n
  | InsertBook => 2
  | DeleteIn n => n
  end.

(** SQLITE_MAX_VARIABLE_NUMBER.  Compiling a statement numbers its
    parameters; one parameter too many and the statement is refused ("too
    many SQL variables"), whatever the table holds. *)
Definition MaxVariableNumber : Z := 32766.

Definition prepare (q : string) : Result Stmt :=
  match parse q with
  | None => Err ErrSyntax
  | Some st =>
      if Z.of_nat (num_params st) <=? MaxVariableNumber then Ok st
      else Err ErrTooManyVars
  end.

(** *** The table and the meaning of the statements *)

(** The [books] table (has_sales holds 0 or 1, read back as a bool by the
    driver) and the AUTOINCREMENT high-water mark of sqlite_sequence. *)
Record Store : Type := mkStore { rows : list Book; seq : Z }.

(** LIKE of SQLite without ESCAPE (likeFunc and patternCompare).  Pattern
    and text are handed over as NUL-terminated UTF-8: they are read up to
    their first zero byte, one character at a time.  The bound on the
    length of a pattern (50000 bytes) is above what a request can carry
    and is left out. *)
(** sqlite3Utf8Trans1: the payload bits of a lead byte, [0xc0] and above *)
Definition Utf8Trans1 (b : Z) : Z :=
  if b <? 224 then Z.land b 31
  else if b <? 240 then Z.land b 15
  else if b <? 248 then Z.land b 7
  else if b <? 252 then Z.land b 3
  else if b <? 254 then Z.land b 1
  else 0.

(** the end of a character of several bytes: what is not a character of its
    own becomes U+FFFD *)
Definition finish (c : Z) : Z :=
  if (c <? 128) || (Z.land c 4294965248 =? 55296) || (Z.land c 4294967294 =? 65534)
  then 65533 else c.

Definition flush (cur : option Z) : list Z :=
  match cur with
  | Some c => [finish c]
  | None => []
  end.

(** sqlite3Utf8Read, over the whole text.  [cur] holds the bits gathered so
    far when the reader is inside a character of several bytes: a lead byte
    takes all the continuation bytes ([0x80] to [0xbf]) that follow it, in
    32-bit arithmetic.  Any other byte below [0xc0] is a character of its
    own, and the zero byte ends the text. *)
Fixpoint chars_from (cur : option Z) (s : string) : list Z :=
  match s with
  | EmptyString => flush cur
  | String a s' =>
      let b := byte_of a in
      let next :=
        if b =? 0 then []
        else if b <? 192 then b :: chars_from None s'
        else chars_from (Some (Utf8Trans1 b)) s' in
      match cur with
      | Some c =>
          if Z.land b 192 =? 128
          then chars_from (Some ((Z.shiftl c 6 + Z.land b 63) mod 4294967296)) s'
          else finish c :: next
      | None => next
      end
  end.

Definition chars (s : string) : list Z := chars_from None s.

Inductive Match : Type := MATCH | NOMATCH | NOWILDCARDMATCH.

Definition matchAll : Z := 37.  (* % *)
Definition matchOne : Z := 95.  (* _ *)

(** sqlite3Toupper and sqlite3Tolower: ASCII letters only *)
Definition Toupper (c : Z) : Z := if (97 <=? c) && (c <=? 122) then c - 32 else c.
Definition Tolower (c : Z) : Z := if (65 <=? c) && (c <=? 90) then c + 32 else c.

(** a pattern character against a text character, outside wildcards *)
Definition same (c c2 : Z) : bool :=
  (c =? c2) || ((Tolower c =? Tolower c2) && (c <? 128) && (c2 <? 128)).

(** the text characters at which the search for the pattern character
    after a [%] stops *)
Definition stops (c c2 : Z) : bool :=
  if c <? 128 then (c2 =? Toupper c) || (c2 =? Tolower c) else c2 =? c.

(** patternCompare on the characters of pattern and text.  [afterAll] says
    that a [%] has just been read: further [%] are skipped, every [_] takes
    one character of the text, the end of the pattern is a match, and any
    other character is searched for in the text, the rest of the pattern
    being tried after each place it is found at. *)
Fixpoint patternCompare (afterAll : bool) (zPattern : list Z) {struct zPattern}
  : list Z -> Match :=
  match zPattern with
  | [] =>
      fun zString =>
        if afterAll then MATCH
        else match zString with [] => MATCH | _ :: _ => NOMATCH end
  | c :: zPattern' =>
      if c =? matchAll then patternCompare true zPattern'
      else if afterAll then
        if c =? matchOne then
          fun zString =>
            match zString with
            | [] => NOWILDCARDMATCH
            | _ :: zString' => patternCompare true zPattern' zString'
            end
        else
          fix search (zString : list Z) : Match :=
            match zString with
            | [] => NOWILDCARDMATCH
            | c2 :: zString' =>
                if stops c c2 then
                  match patternCompare false zPattern' zString' with
                  | NOMATCH => search zString'
                  | bMatch => bMatch
                  end
                else search zString'
            end
      else
        fun zString =>
          match zString with
          | [] => NOMATCH
          | c2 :: zString' =>
              if same c c2 || (c =? matchOne)
              then patternCompare false zPattern' zString'
              else NOMATCH
          end
  end.

Definition like (pat s : string) : bool :=
  match patternCompare false (chars pat) (chars s) with
  | MATCH => true
  | _ => false
  end.

(** The row predicate of a WHERE clause once its parameters are bound, and
    the parameters left over.  A LIKE pattern has to be text. *)
Fixpoint bind_where (w : list Clause) (args : list Value)
  : option ((Book -> bool) * list Value) :=
  match w with
  | [] => Some (fun _ => true, args)
  | TitleLike :: w' =>
      match args with
      | VText pat :: args' =>
          match bind_where w' args' with
          | Some (f, r) => Some (fun b => like pat (Title b) && f b, r)
          | None => None
          end
      | _ => None
      end
  | HasSalesIs v :: w' =>
      match bind_where w' args with
      | Some (f, r) => Some (fun b => Bool.eqb (HasSales b) v && f b, r)
      | None => None
      end
  end.

Fixpoint ints_of (args : list Value) : option (list Z) :=
  match args with
  | [] => Some []
  | VInt z :: rest => option_map (cons z) (ints_of rest)
  | _ => None
  end.

Definition mem (id : Z) (ids : list Z) : bool := existsb (Z.eqb id) ids.

(** ORDER BY id *)
Fixpoint insert_by_id (b : Book) (l : list Book) : list Book :=
  match l with
  | [] => [b]
  | c :: l' => if ID b <=? ID c then b :: l else c :: insert_by_id b l'
  end.

Definition order_by_id (l : list Book) : list Book :=
  fold_right insert_by_id [] l.

(** LIMIT ? OFFSET ?: a negative limit means no limit, a negative offset
    counts as zero. *)
Definition limit_offset {A : Type} (limit offset : Z) (l : list A) : list A :=
  let l' := skipn (Z.to_nat offset) l in
  if limit <? 0 then l' else firstn (Z.to_nat limit) l'.

Definition row_of_book (b : Book) : list Value :=
  [VInt (ID b); VText (Title b); VBool (HasSales b)].

Definition max_id (l : list Book) : Z :=
  fold_right (fun b m => Z.max (ID b) m) 0 l.

(** What a statement hands back: the rows of a query, or the last inserted
    rowid and the number of rows changed.  The source reads the rowid after
    INSERT only; the other statements report 0 here. *)
Inductive Outcome : Type :=
| Rows (r : list (list Value))
| Done (lastInsertId rowsAffected : Z).

Definition count_rows (f : Book -> bool) (l : list Book) : Z :=
  Z.of_nat (List.length (filter f l)).

(** One statement on the table.  A statement that fails leaves the table as
    it was. *)
Definition run (st : Stmt) (args : list Value) (s : Store) : Result (Outcome * Store) :=
  match st with
  | SelectBookById =>
      match args with
      | [VInt id] =>
          Ok (Rows (map row_of_book (filter (fun b => ID b =? id) (rows s))), s)
      | _ => Err ErrArgs
      end
  | CountBooks w =>
      match bind_where w args with
      | Some (f, []) => Ok (Rows [[VInt (count_rows f (rows s))]], s)
      | _ => Err ErrArgs
      end
  | SelectPage w =>
      match bind_where w args with
      | Some (f, [VInt limit; VInt offset]) =>
          Ok (Rows (map row_of_book
                      (limit_offset limit offset (order_by_id (filter f (rows s))))), s)
      | _ => Err ErrArgs
      end
  | UpdateBookById =>
      match args with
      | [VText t; VBool h; VInt id] =>
          Ok (Done 0 (count_rows (fun b => ID b =? id) (rows s)),
              mkStore (map (fun b => if ID b =? id then mkBook (ID b) t h else b) (rows s))
                      (seq s))
      | _ => Err ErrArgs
      end
  | UpdateSalesIn n =>
      match args with
      | VBool h :: idargs =>
          match ints_of idargs with
          | Some ids =>
              if Nat.eqb (List.length ids) n then
                Ok (Done 0 (count_rows (fun b => mem (ID b) ids) (rows s)),
                    mkStore (map (fun b => if mem (ID b) ids
                                           then mkBook (ID b) (Title b) h else b) (rows s))
                            (seq s))
              else Err ErrArgs
          | None => Err ErrArgs
          end
      | _ => Err ErrArgs
      end
  | InsertBook =>
      match args with
      | [VText t; VBool h] =>
          let id := Z.max (seq s) (max_id (rows s)) + 1 in
          if id >? GoInt.MaxInt then Err ErrFull
          else Ok (Done id 1, mkStore (rows s ++ [mkBook id t h]) id)
      | _ => Err ErrArgs
      end
  | DeleteIn n =>
      match ints_of args with
      | Some ids =>
          if Nat.eqb (List.length ids) n then
            Ok (Done 0 (count_rows (fun b => mem (ID b) ids) (rows s)),
                mkStore (filter (fun b => negb (mem (ID b) ids)) (rows s)) (seq s))
          else Err ErrArgs
      | None => Err ErrArgs
      end
  end.
End Sqlite.

(** ** database/sql over the store *)

(** What the program asked of the driver, in order. *)
Inductive Call : Type :=
| CallExec (q : string) (args : list Value)       (* db.ExecContext *)
| CallQuery (q : string) (args : list Value)      (* db.QueryContext, db.QueryRowContext *)
| CallBegin                                       (* db.BeginTx *)
| CallPrepare (q : string)                        (* tx.PrepareContext *)
| CallStmtExec (q : string) (args : list Value)   (* stmt.ExecContext *)
| CallCommit                                      (* tx.Commit *)
| CallRollback.                                   (* tx.Rollback on an open transaction *)

(** The world a repository call runs in: the table as the connection sees
    it, the table as it was when the open transaction began (if one is
    open), the outcome scheduled for each coming driver call ([Some e]: the
    call fails with [e]; [None] or no entry: it runs to its end), and the
    calls made so far.  A call is a whole statement: a query that starts
    and then fails while its rows are stepped through is scheduled as
    [Some (ErrStep n code)]. *)
Record World : Type := mkWorld {
  store : Sqlite.Store;
  txn : option Sqlite.Store;
  faults : list (option Error);
  trace : list Call
}.

Definition with_store (s : Sqlite.Store) (w : World) : World :=
  mkWorld s (txn w) (faults w) (trace w).

Definition with_txn (t : option Sqlite.Store) (w : World) : World :=
  mkWorld (store w) t (faults w) (trace w).

(** Every driver call is logged and takes the next entry of the schedule. *)
Definition driver_call (c : Call) (w : World) : option Error * World :=
  (match faults w with
   | Some e :: _ => Some e
   | _ => None
   end,
   mkWorld (store w) (txn w) (tl (faults w)) (trace w ++ [c])).

(** Compile the text, check the number of bound parameters, run.  The
    program always binds as many parameters as its text has marks; any
    other number is rejected here. *)
Definition statement (q : string) (args : list Value) (w : World)
  : Result Sqlite.Outcome * World :=
  match Sqlite.prepare q with
  | Err e => (Err e, w)
  | Ok st =>
      if Nat.eqb (List.length args) (Sqlite.num_params st) then
        match Sqlite.run st args (store w) with
        | Ok (o, s') => (Ok o, with_store s' w)
        | Err e => (Err e, w)
        end
      else (Err ErrArgs, w)
  end.

Record SqlResult : Type := mkSqlResult { LastInsertId : Z; RowsAffected : Z }.

Definition result_of (o : Sqlite.Outcome) : SqlResult :=
  match o with
  | Sqlite.Done id n => mkSqlResult id n
  | Sqlite.Rows _ => mkSqlResult 0 0
  end.

Definition rows_of (o : Sqlite.Outcome) : list (list Value) :=
  match o with
  | Sqlite.Rows r => r
  | Sqlite.Done _ _ => []
  end.

Definition ExecContext (q : string) (args : list Value) (w : World)
  : Result SqlResult * World :=
  match driver_call (CallExec q args) w with
  | (Some e, w1) => (Err e, w1)
  | (None, w1) =>
      match statement q args w1 with
      | (Ok o, w2) => (Ok (result_of o), w2)
      | (Err e, w2) => (Err e, w2)
      end
  end.

(** The cursor [*sql.Rows] of a query: the rows [Next] still hands out
    before it answers false, and the failure that ended the stepping, if
    one did.  [Next] answers false at the last row and at a failure alike;
    only [Err] tells the two apart. *)
Record Rows : Type := mkRows { pending : list (list Value); lasterr : option Error }.

Definition RowsErr (rows : Rows) : option Error := lasterr rows.

(** [QueryContext] starts the query; the rows are stepped through by the
    caller.  Scheduled [ErrStep n code], the query starts and the driver
    fails at the step after the [n]-th row; the result may end before
    that. *)
Definition QueryContext (q : string) (args : list Value) (w : World)
  : Result Rows * World :=
  match driver_call (CallQuery q args) w with
  | (Some (ErrStep n code), w1) =>
      match statement q args w1 with
      | (Ok o, w2) =>
          (Ok (mkRows (firstn n (rows_of o))
                      (if (n <=? List.length (rows_of o))%nat
                       then Some (ErrStore code) else None)), w2)
      | (Err e, w2) => (Err e, w2)
      end
  | (Some e, w1) => (Err e, w1)
  | (None, w1) =>
      match statement q args w1 with
      | (Ok o, w2) => (Ok (mkRows (rows_of o) None), w2)
      | (Err e, w2) => (Err e, w2)
      end
  end.

(** [QueryRowContext] runs the query and keeps its error inside the [*Row];
    [Scan] steps to the first row and reports the failure of either, or
    [sql.ErrNoRows], or converts the first row. *)
Definition QueryRowContext (q : string) (args : list Value) (w : World)
  : Result (list (list Value)) * World :=
  match driver_call (CallQuery q args) w with
  | (Some e, w1) => (Err e, w1)
  | (None, w1) =>
      match statement q args w1 with
      | (Ok o, w2) => (Ok (rows_of o), w2)
      | (Err e, w2) => (Err e, w2)
      end
  end.

Definition RowScan {A : Type} (dest : list Value -> Result A)
  (row : Result (list (list Value))) : Result A :=
  match row with
  | Err e => Err e
  | Ok [] => Err ErrNoRows
  | Ok (r :: _) => dest r
  end.

(** destinations of [Scan] *)
Definition scan_book (r : list Value) : Result Book :=
  match r with
  | [VInt id; VText t; VBool h] => Ok (mkBook id t h)
  | _ => Err ErrScan
  end.

Definition scan_int (r : list Value) : Result Z :=
  match r with
  | [VInt n] => Ok n
  | _ => Err ErrScan
  end.

(** Transactions.  [BeginTx] remembers the table; [Commit] forgets the copy;
    [Rollback] puts it back.  A [Commit] that fails is followed by a ROLLBACK
    inside the driver.  Once the transaction is done, [Commit] and [Rollback]
    answer [sql.ErrTxDone] and touch nothing. *)
Definition BeginTx (w : World) : Result unit * World :=
  match driver_call CallBegin w with
  | (Some e, w1) => (Err e, w1)
  | (None, w1) =>
      match txn w1 with
      | Some _ => (Err ErrBusy, w1)
      | None => (Ok tt, with_txn (Some (store w1)) w1)
      end
  end.

Definition PrepareContext (q : string) (w : World) : Result Sqlite.Stmt * World :=
  match driver_call (CallPrepare q) w with
  | (Some e, w1) => (Err e, w1)
  | (None, w1) =>
      match Sqlite.prepare q with
      | Ok st => (Ok st, w1)
      | Err e => (Err e, w1)
      end
  end.

Definition StmtExecContext (q : string) (st : Sqlite.Stmt) (args : list Value) (w : World)
  : Result SqlResult * World :=
  match driver_call (CallStmtExec q args) w with
  | (Some e, w1) => (Err e, w1)
  | (None, w1) =>
      if Nat.eqb (List.length args) (Sqlite.num_params st) then
        match Sqlite.run st args (store w1) with
        | Ok (o, s') => (Ok (result_of o), with_store s' w1)
        | Err e => (Err e, w1)
        end
      else (Err ErrArgs, w1)
  end.

Definition Commit (w : World) : Result unit * World :=
  match txn w with
  | None => (Err ErrTxDone, w)
  | Some snapshot =>
      match driver_call CallCommit w with
      | (Some e, w1) => (Err e, with_txn None (with_store snapshot w1))
      | (None, w1) => (Ok tt, with_txn None w1)
      end
  end.

Definition Rollback (w : World) : Result unit * World :=
  match txn w with
  | None => (Err ErrTxDone, w)
  | Some snapshot =>
      (Ok tt, mkWorld snapshot None (faults w) (trace w ++ [CallRollback]))
  end.

(** ** SQLiteRepository *)

Definition GetBook (id : Z) (w : World) : Result Book * World :=
  let (row, w1) :=
    QueryRowContext "SELECT id, title, has_sales FROM books WHERE id = ?" [VInt id] w in
  match RowScan scan_book row with
  | Err e => (Err e, w1)
  | Ok book => (Ok book, w1)
  end.

(** [ListBooks], step 1: the WHERE clause and its arguments. *)
Definition whereClauses (search filter : string) : list string :=
  let whereClauses := [] in
  let whereClauses :=
    if negb (String.eqb search EmptyString) then (whereClauses ++ ["title LIKE ?"%string])%list
    else whereClauses in
  if String.eqb filter "on_sale" then (whereClauses ++ ["has_sales = 1"%string])%list
  else if String.eqb filter "not_on_sale" then (whereClauses ++ ["has_sales = 0"%string])%list
  else whereClauses.

Definition args (search : string) : list Value :=
  let args := [] in
  if negb (String.eqb search EmptyString) then (args ++ [VText ("%" ++ search ++ "%")])%list
  else args.

Definition whereStr (search filter : string) : string :=
  let whereStr := EmptyString in
  if (0 <? List.length (whereClauses search filter))%nat
  then (" WHERE " ++ Join (whereClauses search filter) " AND ")%string
  else whereStr.

Definition countQuery (search filter : string) : string :=
  ("SELECT COUNT(*) FROM books" ++ whereStr search filter)%string.

Definition listQuery (search filter : string) : string :=
  ("SELECT id, title, has_sales FROM books" ++ whereStr search filter
     ++ " ORDER BY id LIMIT ? OFFSET ?")%string.

Definition pagedArgs (limit offset : Z) (search : string) : list Value :=
  (args search ++ [VInt limit; VInt offset])%list.

(** [for rows.Next() { ... rows.Scan(...) ...; books = append(books, book) }],
    over the rows [Next] hands out *)
Fixpoint scan_rows (rows : list (list Value)) (books : list Book) : Result (list Book) :=
  match rows with
  | [] => Ok books
  | r :: rest =>
      match scan_book r with
      | Err e => Err e
      | Ok book => scan_rows rest (books ++ [book])%list
      end
  end.

Definition ListBooks (limit offset : Z) (search filter : string) (w : World)
  : Result PaginatedBooks * World :=
  (* 2. the total count with the same WHERE clause *)
  let (row, w1) := QueryRowContext (countQuery search filter) (args search) w in
  match RowScan scan_int row with
  | Err e => (Err e, w1)
  | Ok totalCount =>
      (* 3. the books of the current page *)
      match QueryContext (listQuery search filter) (pagedArgs limit offset search) w1 with
      | (Err e, w2) => (Err e, w2)
      | (Ok rows, w2) =>
          (* the loop ends when [Next] answers false; [rows.Err()] is not asked *)
          match scan_rows (pending rows) [] with
          | Err e => (Err e, w2)
          | Ok books => (Ok (mkPaginatedBooks books totalCount), w2)
          end
      end
  end.

Definition UpdateBook (book : Book) (w : World) : Result unit * World :=
  match ExecContext "UPDATE books SET title = ?, has_sales = ? WHERE id = ?"
          [VText (Title book); VBool (HasSales book); VInt (ID book)] w with
  | (Ok _, w1) => (Ok tt, w1)
  | (Err e, w1) => (Err e, w1)
  end.

Definition salesStatusQuery (ids : list Z) : string :=
  ("UPDATE books SET has_sales = ? WHERE id IN (?"
     ++ Repeat ",?" (List.length ids - 1) ++ ")")%string.

Definition salesStatusArgs (ids : list Z) (status : bool) : list Value :=
  let args := make (List.length ids + 1) in
  let args := assign args 0 (VBool status) in
  fill args 1 ids.

Definition BulkUpdateBooksSalesStatus (ids : list Z) (status : bool) (w : World)
  : Result unit * World :=
  if Nat.eqb (List.length ids) 0 then (Ok tt, w) (* Nothing to update *)
  else
    match ExecContext (salesStatusQuery ids) (salesStatusArgs ids status) w with
    | (Ok _, w1) => (Ok tt, w1)
    | (Err e, w1) => (Err e, w1)
    end.

Definition CreateBook (book : Book) (w : World) : Result Book * World :=
  match ExecContext "INSERT INTO books (title, has_sales) VALUES (?, ?)"
          [VText (Title book); VBool (HasSales book)] w with
  | (Err e, w1) => (Err e, w1)
  | (Ok res, w1) =>
      let id := LastInsertId res in
      (Ok (mkBook id (Title book) (HasSales book)), w1)
  end.

Definition deleteQuery (ids : list Z) : string :=
  ("DELETE FROM books WHERE id IN (?" ++ Repeat ",?" (List.length ids - 1) ++ ")")%string.

Definition deleteArgs (ids : list Z) : list Value :=
  let args := make (List.length ids) in
  fill args 0 ids.

Definition DeleteBooks (ids : list Z) (w : World) : Result unit * World :=
  if Nat.eqb (List.length ids) 0 then (Ok tt, w) (* Nothing to delete *)
  else
    match ExecContext (deleteQuery ids) (deleteArgs ids) w with
    | (Ok _, w1) => (Ok tt, w1)
    | (Err e, w1) => (Err e, w1)
    end.

Definition bulkUpdateQuery : string :=
  "UPDATE books SET title = ?, has_sales = ? WHERE id = ?".

(** [for _, book := range booksToUpdate { stmt.ExecContext(...) }], leaving
    at the first error *)
Fixpoint update_each (st : Sqlite.Stmt) (booksToUpdate : list Book) (w : World)
  : Result unit * World :=
  match booksToUpdate with
  | [] => (Ok tt, w)
  | book :: rest =>
      match StmtExecContext bulkUpdateQuery st
              [VText (Title book); VBool (HasSales book); VInt (ID book)] w with
      | (Err e, w1) => (Err e, w1) (* Rollback will be called *)
      | (Ok _, w1) => update_each st rest w1
      end
  end.

(** The deferred [tx.Rollback()] runs on every way out after [BeginTx]
    succeeded; its own result is dropped.  [stmt.Close()] releases the
    prepared statement and changes nothing here. *)
Definition BulkUpdateBooks (booksToUpdate : list Book) (w : World) : Result unit * World :=
  match BeginTx w with
  | (Err e, w1) => (Err e, w1)
  | (Ok _, w1) =>
      let (err, w2) :=
        match PrepareContext bulkUpdateQuery w1 with
        | (Err e, w2) => (Err e, w2)
        | (Ok stmt, w2) =>
            match update_each stmt booksToUpdate w2 with
            | (Err e, w3) => (Err e, w3)
            | (Ok _, w3) => Commit w3 (* Commit if all updates were successful *)
            end
        end in
      (err, snd (Rollback w2))
  end.

(** ** Handler.ListBooks: page, offset and the pagination controls *)

Definition pageSize : Z := 5.

(** [int(math.Ceil(float64(result.TotalCount) / float64(pageSize)))] *)
Definition totalPages (totalCount : Z) : Z :=
  Float64.to_int
    (Float64.Ceil (Float64.div (Float64.of_int totalCount) (Float64.of_int pageSize))).

Definition pagination (page totalCount : Z) : Pagination :=
  let totalPages := totalPages totalCount in
  mkPagination page totalPages (1 <? page) (page <? totalPages)
               (GoInt.sub page 1) (GoInt.add page 1).

(** The handler from the parsed [page] parameter on. *)
Definition HandlerListBooks (page : Z) (search filter : string) (w : World)
  : Result (PaginatedBooks * Pagination) * World :=
  let page := if page <? 1 then 1 else page in
  let offset := GoInt.mul (GoInt.sub page 1) pageSize in
  match ListBooks pageSize offset search filter w with
  | (Err e, w1) => (Err e, w1)
  | (Ok result, w1) => (Ok (result, pagination page (TotalCount result)), w1)
  end.

(** ** Notions used to state the properties *)

(** The next [n] driver calls run: none of them is scheduled to fail. *)
Fixpoint quiet (n : nat) (f : list (option Error)) : bool :=
  match n, f with
  | O, _ => true
  | S _, [] => true
  | S k, None :: f' => quiet k f'
  | S _, Some _ :: _ => false
  end.

(** The first failure scheduled among the next [n] driver calls. *)
Fixpoint first_fault (n : nat) (f : list (option Error)) : option Error :=
  match n, f with
  | O, _ => None
  | S _, [] => None
  | S k, None :: f' => first_fault k f'
  | S _, Some e :: _ => Some e
  end.

(** occurrences of a character in a text *)
Fixpoint count_char (c : ascii) (s : string) : nat :=
  match s with
  | EmptyString => O
  | String d s' => ((if Ascii.eqb c d then 1 else 0) + count_char c s')%nat
  end.

Definition is_digit (c : ascii) : bool :=
  ((48 <=? N_of_ascii c) && (N_of_ascii c <=? 57))%N.

Fixpoint has_digit (s : string) : bool :=
  match s with
  | EmptyString => false
  | String c s' => is_digit c || has_digit s'
  end.

(** The predicate of the page, as the store evaluates the WHERE clause that
    [ListBooks] builds once its argument is bound: the pattern [%search%]
    for a non-empty search, has-sales for [on_sale], its absence for
    [not_on_sale], nothing for any other token; the conditions hold
    together. *)
Definition spec_matches (search filter : string) (b : Book) : bool :=
  (if String.eqb search EmptyString then true
   else Sqlite.like ("%" ++ search ++ "%") (Title b))
  && (if String.eqb filter "on_sale" then Bool.eqb (HasSales b) true
      else if String.eqb filter "not_on_sale" then Bool.eqb (HasSales b) false
      else true).

(** Replacing title and has-sales flag of the rows an entity names. *)
Definition replace_book (book : Book) (rows : list Book) : list Book :=
  map (fun r => if Z.eq_dec (ID r) (ID book)
                then mkBook (ID r) (Title book) (HasSales book) else r) rows.

Definition replace_books (books rows : list Book) : list Book :=
  fold_left (fun rs book => replace_book book rs) books rows.

(** Rows after setting the has-sales flag of those whose id is listed, and
    after deleting those whose id is listed. *)
Definition set_sales (ids : list Z) (status : bool) (rows : list Book) : list Book :=
  map (fun b => if in_dec Z.eq_dec (ID b) ids
                then mkBook (ID b) (Title b) status else b) rows.

Definition without (ids : list Z) (rows : list Book) : list Book :=
  filter (fun b => if in_dec Z.eq_dec (ID b) ids then false else true) rows.

(** The clauses and arguments the specification asks of the query builder. *)
Definition spec_clauses (search filter : string) : list string :=
  ((if string_dec search EmptyString then [] else ["title LIKE ?"%string])
   ++ (if string_dec filter "on_sale" then ["has_sales = 1"%string]
       else if string_dec filter "not_on_sale" then ["has_sales = 0"%string]
       else []))%list.

Definition spec_args (search : string) : list Value :=
  if string_dec search EmptyString then [] else [VText ("%" ++ search ++ "%")].

(** The rows a search and filter select, and their number. *)
Definition matching (search filter : string) (rows : list Book) : list Book :=
  List.filter (spec_matches search filter) rows.

(** The ceiling of [a / b] over the integers, for [b > 0]. *)
Definition ceil_div (a b : Z) : Z := - ((- a) / b).

(** The substring predicate of the specification: some segment of the
    title is the search, letter for letter, the case of ASCII letters
    apart.  [contains] is on sequences of characters, [title_contains] on
    the bytes of the two texts. *)
Definition lower (c : Z) : Z := if (65 <=? c) && (c <=? 90) then c + 32 else c.

Definition contains (search title : list Z) : Prop :=
  exists pre mid post : list Z,
    title = (pre ++ mid ++ post)%list /\ map lower mid = map lower search.

Definition title_contains (search title : string) : Prop :=
  contains (bytes search) (bytes title).

(** What the specification asks of a listed book. *)
Definition spec_criteria (search filter : string) (b : Book) : Prop :=
  (search <> EmptyString -> title_contains search (Title b)) /\
  (filter = "on_sale"%string -> HasSales b = true) /\
  (filter = "not_on_sale"%string -> HasSales b = false).

(** Texts without a zero byte; searches without a zero byte and without
    the wildcards [%] and [_]; texts of ASCII characters. *)
Definition nul_free (s : string) : bool :=
  forallb (fun b => negb (b =? 0)) (bytes s).

Definition literal (s : string) : bool :=
  forallb (fun b => negb (b =? 0) && negb (b =? 37) && negb (b =? 95)) (bytes s).

Definition ascii_text (s : string) : bool :=
  forallb (fun b => b <? 128) (bytes s).

(** ** Further notions *)

(** The table as the schema keeps it: identifiers are unique (primary key)
    and positive. *)
Definition wf_store (s : Sqlite.Store) : Prop :=
  NoDup (map ID (Sqlite.rows s)) /\ Forall (fun b => 0 < ID b) (Sqlite.rows s).

(** The ordered matches of a search and filter, and the window a limit and
    an offset cut out of them. *)
Definition ordered_matches (search filter : string) (rows : list Book) : list Book :=
  Sqlite.order_by_id (matching search filter rows).

Definition window {A : Type} (limit offset : nat) (l : list A) : list A :=
  firstn limit (skipn offset l).

(** ascending identifiers *)
Definition by_id (a b : Book) : Prop := ID a <= ID b.

(** ** The handlers *)

(** [strconv.Atoi] on a 64-bit platform: the value and the error, if any.
    A syntax error comes with the value 0, a range error with the nearest
    [int]. *)
Module strconv.

Inductive NumError : Type := ErrSyntaxNum | ErrRangeNum.

(** the fast path: digits only, after an optional sign *)
Fixpoint fast_digits (s : string) (n : Z) : option Z :=
  match s with
  | EmptyString => Some n
  | String ch s' =>
      let ch := (Z.of_N (N_of_ascii ch) - 48) mod 256 in
      if ch >? 9 then None else fast_digits s' (n * 10 + ch)
  end.

(** [ParseUint(s, 10, 64)] after the check for the empty string *)
Fixpoint uint_digits (s : string) (n : Z) : Z * option NumError :=
  match s with
  | EmptyString => (n, None)
  | String c s' =>
      let c := Z.of_N (N_of_ascii c) in
      if (48 <=? c) && (c <=? 57) then
        let d := c - 48 in
        if n >=? (2 ^ 64 - 1) / 10 + 1 then (2 ^ 64 - 1, Some ErrRangeNum)
        else
          let n1 := n * 10 + d in
          if n1 >? 2 ^ 64 - 1 then (2 ^ 64 - 1, Some ErrRangeNum)
          else uint_digits s' n1
      else (0, Some ErrSyntaxNum)
  end.

Definition ParseUint (s : string) : Z * option NumError :=
  match s with
  | EmptyString => (0, Some ErrSyntaxNum)
  | _ => uint_digits s 0
  end.

Definition ParseInt (s : string) : Z * option NumError :=
  match s with
  | EmptyString => (0, Some ErrSyntaxNum)
  | String c rest =>
      let neg := Ascii.eqb c "-" in
      let s := if Ascii.eqb c "+" || Ascii.eqb c "-" then rest else s in
      match ParseUint s with
      | (_, Some ErrSyntaxNum) => (0, Some ErrSyntaxNum)
      | (un, _) =>
          if negb neg && (un >=? 2 ^ 63) then (2 ^ 63 - 1, Some ErrRangeNum)
          else if neg && (un >? 2 ^ 63) then (- 2 ^ 63, Some ErrRangeNum)
          else (if neg then - un else un, None)
      end
  end.

Definition Atoi (s : string) : Z * option NumError :=
  let sLen := String.length s in
  if ((0 <? sLen) && (sLen <? 19))%nat then
    match s with
    | EmptyString => (0, Some ErrSyntaxNum)
    | String c rest =>
        let s' := if Ascii.eqb c "-" || Ascii.eqb c "+" then rest else s in
        if (String.length s' <? 1)%nat then (0, Some ErrSyntaxNum)
        else
          match fast_digits s' 0 with
          | None => (0, Some ErrSyntaxNum)
          | Some n => (if Ascii.eqb c "-" then - n else n, None)
          end
    end
  else ParseInt s.
End strconv.

(** [strings.HasSuffix] and [strings.TrimSuffix] *)
Definition HasSuffix (s suffix : string) : bool :=
  (String.length suffix <=? String.length s)%nat &&
  String.eqb (substring (String.length s - String.length suffix)
                        (String.length suffix) s) suffix.

Definition TrimSuffix (s suffix : string) : string :=
  if HasSuffix s suffix
  then substring 0 (String.length s - String.length suffix) s
  else s.

(** [%d] of [fmt.Sprintf] *)
Definition format_int (z : Z) : string := NilZero.string_of_int (Z.to_int z).

(** What a handler answers: status, the HX-Refresh header, and the body. *)
Inductive View : Type :=
| ViewBooks (books : list Book) (p : Pagination) (noBooks : bool) (search filter : string)
| ViewBook (book : Book) (editing : bool)
| ViewCreateBook
| ViewBulkEditForm (books : list Book) (selected : list Z).

Inductive Body : Type :=
| BText (s : string)               (* SendString *)
| BStatusText                      (* SendStatus: the name of the status *)
| BRedirect (location : string)    (* Redirect *)
| BView (v : View).                (* Render *)

Record Response : Type := mkResponse { Status : Z; HXRefresh : bool; Payload : Body }.

Definition send (code : Z) (msg : string) : Response := mkResponse code false (BText msg).
Definition refreshed_ok : Response := mkResponse 200 true BStatusText.
Definition redirect (location : string) : Response := mkResponse 302 false (BRedirect location).
Definition render (v : View) : Response := mkResponse 200 false (BView v).

(** [c.Query(key, default)]: the default stands in for an absent or empty
    value. *)
Definition Query (value default : string) : string :=
  match value with
  | EmptyString => default
  | _ => value
  end.

(** [for _, idStr := range payload.BookIDs { id, err := strconv.Atoi(idStr) ... }] *)
Fixpoint parse_ids (idStrs : list string) (bookIDs : list Z) : option (list Z) :=
  match idStrs with
  | [] => Some bookIDs
  | idStr :: rest =>
      match strconv.Atoi idStr with
      | (_, Some _) => None
      | (id, None) => parse_ids rest (bookIDs ++ [id])%list
      end
  end.

Module Handler.

(** An entry of the import directory. *)
Record DirEntry : Type := mkDirEntry { Name : string; IsDir : bool }.

(** The loop of [ProcessBooksFolder] over the directory entries; moving a
    processed file changes neither the store nor the answer and is left
    out. *)
Fixpoint process_files (files : list DirEntry) (booksAdded : Z) (w : World) : Z * World :=
  match files with
  | [] => (booksAdded, w)
  | file :: rest =>
      if IsDir file || negb (HasSuffix (Name file) ".txt") then
        process_files rest booksAdded w
      else
        let title := TrimSuffix (Name file) ".txt" in
        match CreateBook (mkBook 0 title false) w with
        | (Err _, w1) => process_files rest booksAdded w1
        | (Ok _, w1) => process_files rest (GoInt.add booksAdded 1) w1
        end
  end.

(** [mkdir] and [readDir] are what [os.MkdirAll] and [os.ReadDir] gave. *)
Definition ProcessBooksFolder (mkdir : bool) (readDir : option (list DirEntry)) (w : World)
  : Response * World :=
  if negb mkdir then (send 500 "Server error creating directories.", w)
  else
    match readDir with
    | None => (send 500 "Could not read import directory.", w)
    | Some files =>
        let (booksAdded, w1) := process_files files 0 w in
        (mkResponse 200 true
           (BText ("<div class='text-green-600 mt-2'>Successfully processed and added "
                     ++ format_int booksAdded ++ " new books.</div>")), w1)
    end.

Definition ViewBook (idParam edit : string) (renderFails : bool) (w : World)
  : Response * World :=
  match strconv.Atoi idParam with
  | (_, Some _) => (send 400 "Invalid book ID", w)
  | (id, None) =>
      match GetBook id w with
      | (Err _, w1) => (send 500 "Failed to get book", w1)
      | (Ok book, w1) =>
          let isEditing := String.eqb edit "true" in
          if renderFails then (send 500 "Failed to render page", w1)
          else (render (ViewBook book isEditing), w1)
      end
  end.

Definition UpdateBook (idParam title has_sales : string) (w : World) : Response * World :=
  match strconv.Atoi idParam with
  | (_, Some _) => (send 400 "Invalid book ID", w)
  | (id, None) =>
      match GetBook id w with
      | (Err _, w1) => (send 500 "Failed to get book", w1)
      | (Ok book, w1) =>
          let book := mkBook (ID book) title (String.eqb has_sales "on") in
          match UpdateBook book w1 with
          | (Err _, w2) => (send 500 "Failed to update book", w2)
          | (Ok _, w2) => (redirect ("/books/" ++ format_int id), w2)
          end
      end
  end.

(** [payload] is what [c.BodyParser] made of the form, [None] when it
    failed. *)
Definition BulkUpdateSales (payload : option (list string * string)) (w : World)
  : Response * World :=
  match payload with
  | None => (send 400 "Invalid form data.", w)
  | Some (BookIDs, Action) =>
      if Nat.eqb (List.length BookIDs) 0 then (send 400 "Please select at least one book.", w)
      else
        let act :=
          if String.eqb Action "add" then Some true
          else if String.eqb Action "remove" then Some false
          else None in
        match act with
        | None => (send 400 "Invalid action.", w)
        | Some hasSales =>
            match parse_ids BookIDs [] with
            | None => (send 400 "Invalid book ID.", w)
            | Some bookIDs =>
                match BulkUpdateBooksSalesStatus bookIDs hasSales w with
                | (Err _, w1) => (send 500 "Failed to update books.", w1)
                | (Ok _, w1) => (refreshed_ok, w1)
                end
            end
        end
  end.

Definition CreateBook (post : bool) (title has_sales : string) (w : World)
  : Response * World :=
  if post then
    let newBook := mkBook 0 title (String.eqb has_sales "on") in
    if String.eqb (Title newBook) EmptyString then (send 400 "Title cannot be empty", w)
    else
      match CreateBook newBook w with
      | (Err _, w1) => (send 500 "Failed to create book", w1)
      | (Ok _, w1) => (redirect "/books", w1)
      end
  else (render ViewCreateBook, w).

Definition DeleteBooks (payload : option (list string)) (w : World) : Response * World :=
  match payload with
  | None => (send 400 "Invalid form data.", w)
  | Some BookIDs =>
      if Nat.eqb (List.length BookIDs) 0
      then (send 400 "Please select at least one book to delete.", w)
      else
        match parse_ids BookIDs [] with
        | None => (send 400 "Invalid book ID.", w)
        | Some bookIDs =>
            match DeleteBooks bookIDs w with
            | (Err _, w1) => (send 500 "Failed to delete books.", w1)
            | (Ok _, w1) => (refreshed_ok, w1)
            end
        end
  end.

Definition repoListBooks := ListBooks.

Definition ListBooks (page search filter : string) (w : World) : Response * World :=
  let page := fst (strconv.Atoi (Query page "1")) in
  let filter := Query filter "all" in
  match HandlerListBooks page search filter w with
  | (Err _, w1) => (send 500 "Failed to list books", w1)
  | (Ok (result, pagination), w1) =>
      (render (ViewBooks (Books result) pagination
                 (Nat.eqb (List.length (Books result)) 0) search filter), w1)
  end.

(** [for idStr, data := range payload.Books]: the entries in the order the
    map yields them; an entry whose key is not a positive number is left
    out. *)
Fixpoint books_of_form (entries : list (string * (string * string))) (booksToUpdate : list Book)
  : list Book :=
  match entries with
  | [] => booksToUpdate
  | (idStr, (title, has_sales)) :: rest =>
      let id := fst (strconv.Atoi idStr) in
      if id >? 0
      then books_of_form rest (booksToUpdate ++ [mkBook id title (String.eqb has_sales "on")])%list
      else books_of_form rest booksToUpdate
  end.

Fixpoint selected_ids (idsBytes : list string) (selectedIDs : list Z) : list Z :=
  match idsBytes with
  | [] => selectedIDs
  | idBytes :: rest =>
      let id := fst (strconv.Atoi idBytes) in
      if id >? 0 then selected_ids rest (selectedIDs ++ [id])%list
      else selected_ids rest selectedIDs
  end.

(** POST: [payload] is the parsed form.  GET: [book_ids] are the values of
    the query parameter, and the other parameters are those [ListBooks]
    reads when no id is given. *)
Definition BulkEditBooks (post : bool)
    (payload : option (list (string * (string * string))))
    (book_ids : list string) (page search filter : string) (w : World)
  : Response * World :=
  if post then
    match payload with
    | None => (send 400 "Invalid form data.", w)
    | Some entries =>
        let booksToUpdate := books_of_form entries [] in
        match BulkUpdateBooks booksToUpdate w with
        | (Err _, w1) => (send 500 "Failed to update books", w1)
        | (Ok _, w1) => (refreshed_ok, w1)
        end
    end
  else
    if Nat.eqb (List.length book_ids) 0 then ListBooks page search filter w
    else
      let selectedIDs := selected_ids book_ids [] in
      match repoListBooks 100 0 EmptyString "all" w with
      | (Err _, w1) => (send 500 "Could not fetch books.", w1)
      | (Ok result, w1) => (render (ViewBulkEditForm (Books result) selectedIDs), w1)
      end.
End Handler.

(** The book an entry of the bulk edit form stands for. *)
Definition book_of_entry (entry : string * (string * string)) : Book :=
  mkBook (fst (strconv.Atoi (fst entry))) (fst (snd entry))
         (String.eqb (snd (snd entry)) "on").

Definition positive_key (entry : string * (string * string)) : bool :=
  fst (strconv.Atoi (fst entry)) >? 0.

(** A file the import takes: not a directory, and named [*.txt]. *)
Definition importable (file : Handler.DirEntry) : bool :=
  negb (Handler.IsDir file) && HasSuffix (Handler.Name file) ".txt".

(** ** NewDatabase: the sample books *)

Definition sampleBooks : list Book :=
  [mkBook 1 "Sample Book 1" true; mkBook 2 "Sample Book 2" false;
   mkBook 3 "Sample Book 3" false; mkBook 4 "Sample Book 4" false;
   mkBook 5 "Sample Book 5" false; mkBook 6 "Sample Book 6" false;
   mkBook 7 "Sample Book 7" false].

(** [INSERT OR IGNORE INTO books (id, title, has_sales) VALUES ...]: a row
    whose identifier is taken is skipped; an inserted identifier raises the
    AUTOINCREMENT mark when it is above it. *)
Fixpoint insert_or_ignore (new : list Book) (s : Sqlite.Store) : Sqlite.Store :=
  match new with
  | [] => s
  | b :: rest =>
      insert_or_ignore rest
        (if existsb (fun r => ID r =? ID b) (Sqlite.rows s) then s
         else Sqlite.mkStore (Sqlite.rows s ++ [b]) (Z.max (Sqlite.seq s) (ID b)))
  end.

(** What [NewDatabase] does to the books table when its statements run:
    CREATE TABLE IF NOT EXISTS leaves an existing table as it is (a new
    file starts with the empty table), then the sample books are inserted.
    The accounts table and the database handle are left out. *)
Definition NewDatabase (s : Sqlite.Store) : Sqlite.Store :=
  insert_or_ignore sampleBooks s.

Ltac digit_value :=
  match goal with
  | |- context [Z.of_N (N_of_ascii ?c)] =>
      let v := eval vm_compute in (Z.of_N (N_of_ascii c)) in
      change (Z.of_N (N_of_ascii c)) with v
  end.

(** * Properties *)

(** ** Building the argument vector *)

Lemma assign_length (l : list Value) (i : nat) (v : Value) :
  List.length (assign l i v) = List.length l.
Proof.
  revert i; induction l as [|a l IH]; intros [|i]; simpl; auto.
Qed.

Lemma assign_app_r (pre l : list Value) (i : nat) (v : Value) :
  assign (pre ++ l) (List.length pre + i) v = pre ++ assign l i v.
Proof.
  induction pre as [|a pre IH]; simpl.
  - destruct l; reflexivity.
  - now rewrite IH.
Qed.

(** The loop writes the ids, in order, over the cells from [i] on; it never
    writes past the end when enough cells were allocated. *)
Lemma fill_spec (ids : list Z) :
  forall (pre rest : list Value),
    List.length rest = List.length ids ->
    fill (pre ++ rest) (List.length pre) ids = pre ++ map VInt ids.
Proof.
  induction ids as [|id ids IH]; intros pre rest Hlen.
  - destruct rest; [|discriminate]. reflexivity.
  - destruct rest as [|r rest]; [discriminate|].
    simpl in Hlen. injection Hlen as Hlen.
    simpl fill.
    replace (List.length pre) with (List.length pre + 0)%nat at 1 by lia.
    rewrite assign_app_r. simpl assign.
    change (pre ++ VInt id :: rest) with (pre ++ [VInt id] ++ rest).
    rewrite app_assoc.
    replace (S (List.length pre)) with (List.length (pre ++ [VInt id])).
    2:{ rewrite length_app. simpl. lia. }
    rewrite (IH _ _ Hlen). rewrite <- app_assoc. reflexivity.
Qed.

Lemma fill_in_range (ids : list Z) (l : list Value) (i : nat) :
  List.length (fill l i ids) = List.length l.
Proof.
  revert l i; induction ids as [|id ids IH]; intros l i; simpl; auto.
  rewrite IH. apply assign_length.
Qed.

Lemma salesStatusArgs_eq (ids : list Z) (status : bool) :
  salesStatusArgs ids status = VBool status :: map VInt ids.
Proof.
  unfold salesStatusArgs, make.
  rewrite Nat.add_comm. simpl.
  apply (fill_spec ids [VBool status] (repeat VNil (List.length ids))).
  apply repeat_length.
Qed.

Lemma deleteArgs_eq (ids : list Z) : deleteArgs ids = map VInt ids.
Proof.
  unfold deleteArgs, make.
  apply (fill_spec ids [] (repeat VNil (List.length ids))).
  apply repeat_length.
Qed.

Lemma ints_of_map (ids : list Z) : Sqlite.ints_of (map VInt ids) = Some ids.
Proof.
  induction ids as [|id ids IH]; simpl; [reflexivity|].
  now rewrite IH.
Qed.

(** ** Reading the statement text back *)

Lemma parse_in_list_Repeat (n : nat) :
  Sqlite.parse_in_list (Repeat ",?" n ++ ")") = Some (S n).
Proof.
  induction n as [|n IH]; [reflexivity|].
  simpl Repeat. simpl append.
  simpl Sqlite.parse_in_list. rewrite IH. reflexivity.
Qed.

Lemma parse_salesStatusQuery (ids : list Z) :
  ids <> [] ->
  Sqlite.parse (salesStatusQuery ids) = Some (Sqlite.UpdateSalesIn (List.length ids)).
Proof.
  intros Hne. unfold salesStatusQuery, Sqlite.parse.
  simpl. rewrite parse_in_list_Repeat. simpl.
  destruct ids; [contradiction|]. simpl. now rewrite Nat.sub_0_r.
Qed.

Lemma parse_deleteQuery (ids : list Z) :
  ids <> [] ->
  Sqlite.parse (deleteQuery ids) = Some (Sqlite.DeleteIn (List.length ids)).
Proof.
  intros Hne. unfold deleteQuery, Sqlite.parse.
  simpl. rewrite parse_in_list_Repeat. simpl.
  destruct ids; [contradiction|]. simpl. now rewrite Nat.sub_0_r.
Qed.

Lemma prepare_parsed (q : string) (st : Sqlite.Stmt) :
  Sqlite.parse q = Some st ->
  Z.of_nat (Sqlite.num_params st) <= Sqlite.MaxVariableNumber ->
  Sqlite.prepare q = Ok st.
Proof.
  intros Hp Hn. unfold Sqlite.prepare. rewrite Hp.
  destruct (Z.of_nat (Sqlite.num_params st) <=? Sqlite.MaxVariableNumber) eqn:E;
    [reflexivity|]. apply Z.leb_gt in E. lia.
Qed.

Lemma prepare_refused (q : string) (st : Sqlite.Stmt) :
  Sqlite.parse q = Some st ->
  Sqlite.MaxVariableNumber < Z.of_nat (Sqlite.num_params st) ->
  Sqlite.prepare q = Err ErrTooManyVars.
Proof.
  intros Hp Hn. unfold Sqlite.prepare. rewrite Hp.
  destruct (Z.of_nat (Sqlite.num_params st) <=? Sqlite.MaxVariableNumber) eqn:E;
    [|reflexivity]. apply Z.leb_le in E. lia.
Qed.

Lemma count_char_app (c : ascii) (s t : string) :
  count_char c (s ++ t) = (count_char c s + count_char c t)%nat.
Proof.
  induction s as [|d s IH]; simpl; [reflexivity|]. rewrite IH. lia.
Qed.

Lemma count_char_Repeat (n : nat) : count_char "?" (Repeat ",?" n) = n.
Proof.
  induction n as [|n IH]; simpl; [reflexivity|]. now rewrite IH.
Qed.

Lemma has_digit_app (s t : string) :
  has_digit (s ++ t) = has_digit s || has_digit t.
Proof.
  induction s as [|d s IH]; simpl; [reflexivity|]. rewrite IH. apply orb_assoc.
Qed.

Lemma has_digit_Repeat (n : nat) : has_digit (Repeat ",?" n) = false.
Proof.
  induction n as [|n IH]; simpl; [reflexivity|]. exact IH.
Qed.

Lemma mem_In (id : Z) (ids : list Z) : Sqlite.mem id ids = true <-> In id ids.
Proof.
  unfold Sqlite.mem. rewrite existsb_exists. split.
  - intros [x [Hin Heq]]. apply Z.eqb_eq in Heq. now subst.
  - intros Hin. exists id. split; [exact Hin|apply Z.eqb_refl].
Qed.

Lemma mem_in_dec (id : Z) (ids : list Z) :
  Sqlite.mem id ids = if in_dec Z.eq_dec id ids then true else false.
Proof.
  destruct (in_dec Z.eq_dec id ids) as [H|H].
  - now apply mem_In.
  - destruct (Sqlite.mem id ids) eqn:E; [|reflexivity].
    apply mem_In in E. contradiction.
Qed.

Lemma quiet_1 (w : World) (c : Call) :
  quiet 1 (faults w) = true ->
  driver_call c w = (None, mkWorld (store w) (txn w) (tl (faults w)) (trace w ++ [c])).
Proof.
  unfold driver_call. destruct (faults w) as [|[e|] f]; simpl; intros H;
    try discriminate; reflexivity.
Qed.

(** ** Empty id lists *)

(** C7: with an empty id list, [DeleteBooks] and [BulkUpdateBooksSalesStatus]
    (for either status) return success and leave the world as it was: the
    table, the open transaction, the schedule and the record of driver calls
    are all unchanged, so no statement was executed. *)
Theorem empty_ids_are_noops (status : bool) (w : World) :
  DeleteBooks [] w = (Ok tt, w) /\
  BulkUpdateBooksSalesStatus [] status w = (Ok tt, w).
Proof.
  split; reflexivity.
Qed.

(** ** Membership statements *)

Lemma set_sales_mem (ids : list Z) (status : bool) (rows : list Book) :
  map (fun b => if Sqlite.mem (ID b) ids then mkBook (ID b) (Title b) status else b) rows
  = set_sales ids status rows.
Proof.
  unfold set_sales. apply map_ext. intros b. rewrite mem_in_dec.
  now destruct (in_dec Z.eq_dec (ID b) ids).
Qed.

Lemma without_mem (ids : list Z) (rows : list Book) :
  filter (fun b => negb (Sqlite.mem (ID b) ids)) rows = without ids rows.
Proof.
  unfold without. apply filter_ext. intros b. rewrite mem_in_dec.
  now destruct (in_dec Z.eq_dec (ID b) ids).
Qed.

Lemma salesStatus_runs (ids : list Z) (status : bool) (w : World) :
  ids <> [] -> quiet 1 (faults w) = true ->
  Z.of_nat (List.length ids) + 1 <= Sqlite.MaxVariableNumber ->
  BulkUpdateBooksSalesStatus ids status w =
  (Ok tt,
   mkWorld (Sqlite.mkStore (set_sales ids status (Sqlite.rows (store w)))
                           (Sqlite.seq (store w)))
           (txn w) (tl (faults w))
           (trace w ++ [CallExec (salesStatusQuery ids) (salesStatusArgs ids status)])).
Proof.
  intros Hne Hq Hmax. unfold BulkUpdateBooksSalesStatus.
  destruct (Nat.eqb (List.length ids) 0) eqn:E.
  { apply Nat.eqb_eq in E. destruct ids; [contradiction|discriminate]. }
  unfold ExecContext. rewrite (quiet_1 _ _ Hq).
  unfold statement.
  rewrite (prepare_parsed _ _ (parse_salesStatusQuery _ Hne))
    by (cbn [Sqlite.num_params]; lia).
  rewrite salesStatusArgs_eq. simpl List.length. rewrite length_map. simpl Sqlite.num_params.
  rewrite Nat.eqb_refl. simpl Sqlite.run. rewrite ints_of_map, Nat.eqb_refl.
  unfold with_store. simpl. rewrite set_sales_mem. reflexivity.
Qed.

Lemma delete_runs (ids : list Z) (w : World) :
  ids <> [] -> quiet 1 (faults w) = true ->
  Z.of_nat (List.length ids) <= Sqlite.MaxVariableNumber ->
  DeleteBooks ids w =
  (Ok tt,
   mkWorld (Sqlite.mkStore (without ids (Sqlite.rows (store w))) (Sqlite.seq (store w)))
           (txn w) (tl (faults w))
           (trace w ++ [CallExec (deleteQuery ids) (deleteArgs ids)])).
Proof.
  intros Hne Hq Hmax. unfold DeleteBooks.
  destruct (Nat.eqb (List.length ids) 0) eqn:E.
  { apply Nat.eqb_eq in E. destruct ids; [contradiction|discriminate]. }
  unfold ExecContext. rewrite (quiet_1 _ _ Hq).
  unfold statement.
  rewrite (prepare_parsed _ _ (parse_deleteQuery _ Hne))
    by (cbn [Sqlite.num_params]; lia).
  rewrite deleteArgs_eq. rewrite length_map. simpl Sqlite.num_params.
  rewrite Nat.eqb_refl. simpl Sqlite.run. rewrite ints_of_map, Nat.eqb_refl.
  unfold with_store. simpl. rewrite without_mem. reflexivity.
Qed.

(** Past the bound the store refuses the statement: nothing is changed. *)
Lemma salesStatus_refused (ids : list Z) (status : bool) (w : World) :
  quiet 1 (faults w) = true ->
  Sqlite.MaxVariableNumber < Z.of_nat (List.length ids) + 1 ->
  BulkUpdateBooksSalesStatus ids status w =
  (Err ErrTooManyVars,
   mkWorld (store w) (txn w) (tl (faults w))
           (trace w ++ [CallExec (salesStatusQuery ids) (salesStatusArgs ids status)])).
Proof.
  intros Hq Hmax. unfold BulkUpdateBooksSalesStatus.
  assert (Hne : ids <> []).
  { intros ->. cbn in Hmax. unfold Sqlite.MaxVariableNumber in Hmax. lia. }
  destruct (Nat.eqb (List.length ids) 0) eqn:E.
  { apply Nat.eqb_eq in E. destruct ids; [contradiction|discriminate]. }
  unfold ExecContext. rewrite (quiet_1 _ _ Hq).
  unfold statement.
  rewrite (prepare_refused _ _ (parse_salesStatusQuery _ Hne))
    by (cbn [Sqlite.num_params]; lia).
  reflexivity.
Qed.

Lemma delete_refused (ids : list Z) (w : World) :
  quiet 1 (faults w) = true ->
  Sqlite.MaxVariableNumber < Z.of_nat (List.length ids) ->
  DeleteBooks ids w =
  (Err ErrTooManyVars,
   mkWorld (store w) (txn w) (tl (faults w))
           (trace w ++ [CallExec (deleteQuery ids) (deleteArgs ids)])).
Proof.
  intros Hq Hmax. unfold DeleteBooks.
  assert (Hne : ids <> []).
  { intros ->. cbn in Hmax. unfold Sqlite.MaxVariableNumber in Hmax. lia. }
  destruct (Nat.eqb (List.length ids) 0) eqn:E.
  { apply Nat.eqb_eq in E. destruct ids; [contradiction|discriminate]. }
  unfold ExecContext. rewrite (quiet_1 _ _ Hq).
  unfold statement.
  rewrite (prepare_refused _ _ (parse_deleteQuery _ Hne))
    by (cbn [Sqlite.num_params]; lia).
  reflexivity.
Qed.

Lemma salesStatusQuery_marks (ids : list Z) :
  ids <> [] -> count_char "?" (salesStatusQuery ids) = S (List.length ids).
Proof.
  intros Hne. unfold salesStatusQuery.
  rewrite !count_char_app, count_char_Repeat. simpl.
  destruct ids; [contradiction|]. simpl. lia.
Qed.

Lemma deleteQuery_marks (ids : list Z) :
  ids <> [] -> count_char "?" (deleteQuery ids) = List.length ids.
Proof.
  intros Hne. unfold deleteQuery.
  rewrite !count_char_app, count_char_Repeat. simpl.
  destruct ids; [contradiction|]. simpl. lia.
Qed.

Lemma queries_without_digits (ids : list Z) :
  has_digit (salesStatusQuery ids) = false /\ has_digit (deleteQuery ids) = false.
Proof.
  unfold salesStatusQuery, deleteQuery.
  rewrite !has_digit_app, !has_digit_Repeat. split; reflexivity.
Qed.

(** C3: within the bound of the store, for a list of N >= 1 ids, the UPDATE
    of [BulkUpdateBooksSalesStatus] and the DELETE of [DeleteBooks] are read
    by the store as a membership predicate of N placeholders (the texts
    hold N+1 and N question marks); the text holds no digit and is the same
    for every id list of that length, so no id value is written into it;
    the ids are bound, in order, as the parameters after the status (resp.
    as all the parameters).  When the driver call runs and the statement
    has at most [Sqlite.MaxVariableNumber] = 32766 parameters (N <= 32765
    for the UPDATE, N <= 32766 for the DELETE), exactly one statement is
    sent, which sets the flag of (resp. removes) exactly the rows whose id
    is in the list and leaves the other rows as they were.  With more ids
    the store refuses the statement: the error is returned and no row is
    changed. *)
Theorem membership_statements_bind_ids (ids : list Z) (status : bool) (w : World) :
  ids <> [] ->
  quiet 1 (faults w) = true ->
  let n := List.length ids in
  (Sqlite.parse (salesStatusQuery ids) = Some (Sqlite.UpdateSalesIn n) /\
   Sqlite.parse (deleteQuery ids) = Some (Sqlite.DeleteIn n) /\
   count_char "?" (salesStatusQuery ids) = S n /\
   count_char "?" (deleteQuery ids) = n) /\
  (has_digit (salesStatusQuery ids) = false /\
   has_digit (deleteQuery ids) = false /\
   forall ids' : list Z, List.length ids' = n ->
     salesStatusQuery ids' = salesStatusQuery ids /\ deleteQuery ids' = deleteQuery ids) /\
  (salesStatusArgs ids status = VBool status :: map VInt ids /\
   deleteArgs ids = map VInt ids) /\
  (Z.of_nat n + 1 <= Sqlite.MaxVariableNumber ->
   exists w1,
     BulkUpdateBooksSalesStatus ids status w = (Ok tt, w1) /\
     trace w1 = trace w ++ [CallExec (salesStatusQuery ids) (salesStatusArgs ids status)] /\
     Sqlite.rows (store w1) = set_sales ids status (Sqlite.rows (store w))) /\
  (Z.of_nat n <= Sqlite.MaxVariableNumber ->
   exists w2,
     DeleteBooks ids w = (Ok tt, w2) /\
     trace w2 = trace w ++ [CallExec (deleteQuery ids) (deleteArgs ids)] /\
     Sqlite.rows (store w2) = without ids (Sqlite.rows (store w))) /\
  (Sqlite.MaxVariableNumber < Z.of_nat n + 1 ->
   exists w1,
     BulkUpdateBooksSalesStatus ids status w = (Err ErrTooManyVars, w1) /\
     store w1 = store w) /\
  (Sqlite.MaxVariableNumber < Z.of_nat n ->
   exists w2,
     DeleteBooks ids w = (Err ErrTooManyVars, w2) /\
     store w2 = store w).
Proof.
  intros Hne Hq n.
  split; [|split; [|split; [|split; [|split; [|split]]]]].
  - repeat split.
    + now apply parse_salesStatusQuery.
    + now apply parse_deleteQuery.
    + now apply salesStatusQuery_marks.
    + now apply deleteQuery_marks.
  - split; [apply queries_without_digits|]. split; [apply queries_without_digits|].
    intros ids' H. unfold salesStatusQuery, deleteQuery. rewrite H. split; reflexivity.
  - split; [apply salesStatusArgs_eq|apply deleteArgs_eq].
  - intros Hmax. eexists. rewrite (salesStatus_runs _ _ _ Hne Hq Hmax). repeat split.
  - intros Hmax. eexists. rewrite (delete_runs _ _ Hne Hq Hmax). repeat split.
  - intros Hmax. eexists. rewrite (salesStatus_refused _ _ _ Hq Hmax). repeat split.
  - intros Hmax. eexists. rewrite (delete_refused _ _ Hq Hmax). repeat split.
Qed.

Lemma membership_statements_bind_ids_witness :
  exists w1,
    BulkUpdateBooksSalesStatus [1; 2; 9] true
      (mkWorld (Sqlite.mkStore [mkBook 1 "Alpha" false; mkBook 2 "Beta" false;
                                mkBook 3 "Gamma" false] 3) None [] []) = (Ok tt, w1) /\
    Sqlite.rows (store w1) =
      [mkBook 1 "Alpha" true; mkBook 2 "Beta" true; mkBook 3 "Gamma" false].
Proof.
  destruct (membership_statements_bind_ids [1; 2; 9] true
              (mkWorld (Sqlite.mkStore [mkBook 1 "Alpha" false; mkBook 2 "Beta" false;
                                        mkBook 3 "Gamma" false] 3) None [] []))
    as [_ [_ [_ [H _]]]].
  - discriminate.
  - reflexivity.
  - destruct H as [w1 [H1 [_ H2]]].
    + vm_compute. discriminate.
    + exists w1. split; [exact H1|]. rewrite H2. reflexivity.
Defined.

(** C3 as worded fails on the code: the claim is made for every N >= 1, but
    the store compiles no statement with more than 32766 parameters.  With
    32767 ids, all naming the one row of the table, [DeleteBooks] sends its
    statement, gets "too many SQL variables" back and deletes nothing,
    though the row's identifier is in the list; so does
    [BulkUpdateBooksSalesStatus] with 32766 ids, whose statement takes one
    parameter more. *)
Lemma membership_statements_bind_ids_counterexample :
  (repeat 1 (Z.to_nat 32767) <> [] /\
   In 1 (repeat 1 (Z.to_nat 32767)) /\
   fst (DeleteBooks (repeat 1 (Z.to_nat 32767))
          (mkWorld (Sqlite.mkStore [mkBook 1 "Alpha" false] 1) None [] []))
     = Err ErrTooManyVars /\
   Sqlite.rows (store (snd (DeleteBooks (repeat 1 (Z.to_nat 32767))
          (mkWorld (Sqlite.mkStore [mkBook 1 "Alpha" false] 1) None [] []))))
     = [mkBook 1 "Alpha" false] /\
   without (repeat 1 (Z.to_nat 32767)) [mkBook 1 "Alpha" false] = []) /\
  (repeat 1 (Z.to_nat 32766) <> [] /\
   In 1 (repeat 1 (Z.to_nat 32766)) /\
   fst (BulkUpdateBooksSalesStatus (repeat 1 (Z.to_nat 32766)) true
          (mkWorld (Sqlite.mkStore [mkBook 1 "Alpha" false] 1) None [] []))
     = Err ErrTooManyVars /\
   Sqlite.rows (store (snd (BulkUpdateBooksSalesStatus (repeat 1 (Z.to_nat 32766)) true
          (mkWorld (Sqlite.mkStore [mkBook 1 "Alpha" false] 1) None [] []))))
     = [mkBook 1 "Alpha" false] /\
   set_sales (repeat 1 (Z.to_nat 32766)) true [mkBook 1 "Alpha" false]
     = [mkBook 1 "Alpha" true]).
Proof.
  assert (Hin : forall k, 0 < k -> In 1 (repeat 1 (Z.to_nat k))).
  { intros k Hk. destruct (Z.to_nat k) eqn:E; [lia|]. simpl. auto. }
  assert (Hne : forall k, 0 < k -> repeat 1 (Z.to_nat k) <> []).
  { intros k Hk H. specialize (Hin k Hk). rewrite H in Hin. contradiction. }
  split.
  - split; [apply Hne; lia|]. split; [apply Hin; lia|].
    rewrite delete_refused.
    + split; [reflexivity|]. split; [reflexivity|].
      unfold without. cbn [filter ID].
      destruct (in_dec Z.eq_dec 1 (repeat 1 (Z.to_nat 32767))) as [_|H];
        [reflexivity|]. exfalso. apply H, Hin. lia.
    + reflexivity.
    + rewrite repeat_length. unfold Sqlite.MaxVariableNumber. lia.
  - split; [apply Hne; lia|]. split; [apply Hin; lia|].
    rewrite salesStatus_refused.
    + split; [reflexivity|]. split; [reflexivity|].
      unfold set_sales. cbn [map ID Title].
      destruct (in_dec Z.eq_dec 1 (repeat 1 (Z.to_nat 32766))) as [_|H];
        [reflexivity|]. exfalso. apply H, Hin. lia.
    + reflexivity.
    + rewrite repeat_length. unfold Sqlite.MaxVariableNumber. lia.
Qed.

(** ** Single-row update *)

Lemma replace_book_eqb (book : Book) (rows : list Book) :
  map (fun b => if ID b =? ID book then mkBook (ID b) (Title book) (HasSales book) else b) rows
  = replace_book book rows.
Proof.
  unfold replace_book. apply map_ext. intros b.
  destruct (Z.eq_dec (ID b) (ID book)) as [E|E].
  - rewrite E, Z.eqb_refl. reflexivity.
  - apply Z.eqb_neq in E. now rewrite E.
Qed.

Lemma replace_book_absent (book : Book) (rows : list Book) :
  (forall r, In r rows -> ID r <> ID book) -> replace_book book rows = rows.
Proof.
  unfold replace_book. induction rows as [|r rows IH]; intros H; simpl; [reflexivity|].
  destruct (Z.eq_dec (ID r) (ID book)) as [E|E].
  - exfalso. apply (H r); [now left|exact E].
  - rewrite IH; [reflexivity|]. intros r' Hin. apply H. now right.
Qed.

Lemma UpdateBook_runs (book : Book) (w : World) :
  quiet 1 (faults w) = true ->
  UpdateBook book w =
  (Ok tt,
   mkWorld (Sqlite.mkStore (replace_book book (Sqlite.rows (store w))) (Sqlite.seq (store w)))
           (txn w) (tl (faults w))
           (trace w ++ [CallExec "UPDATE books SET title = ?, has_sales = ? WHERE id = ?"
                          [VText (Title book); VBool (HasSales book); VInt (ID book)]])).
Proof.
  intros Hq. unfold UpdateBook, ExecContext. rewrite (quiet_1 _ _ Hq).
  unfold statement. simpl. unfold with_store. simpl.
  rewrite replace_book_eqb. reflexivity.
Qed.

(** C8: when the driver call runs, [UpdateBook] succeeds; the row at every
    position keeps its identifier, takes the title and has-sales flag of the
    entity if its identifier is the entity's, and is unchanged otherwise;
    no row is added or removed; and when no row has the entity's identifier
    the store is exactly as before (a silent success, not NotFound). *)
Theorem update_book_replaces_matching_row (book : Book) (w : World) :
  quiet 1 (faults w) = true ->
  exists w1,
    UpdateBook book w = (Ok tt, w1) /\
    (forall i : nat,
        nth_error (Sqlite.rows (store w1)) i =
        option_map (fun r => if Z.eq_dec (ID r) (ID book)
                             then mkBook (ID r) (Title book) (HasSales book) else r)
                   (nth_error (Sqlite.rows (store w)) i)) /\
    List.length (Sqlite.rows (store w1)) = List.length (Sqlite.rows (store w)) /\
    ((forall r, In r (Sqlite.rows (store w)) -> ID r <> ID book) -> store w1 = store w).
Proof.
  intros Hq. eexists. rewrite (UpdateBook_runs _ _ Hq). split; [reflexivity|].
  simpl. split; [|split].
  - intros i. unfold replace_book. apply nth_error_map.
  - unfold replace_book. apply length_map.
  - intros Habs. rewrite (replace_book_absent _ _ Habs). now destruct (store w).
Qed.

Lemma update_book_replaces_matching_row_witness :
  exists w1,
    UpdateBook (mkBook 9 "Nine" true)
      (mkWorld (Sqlite.mkStore [mkBook 1 "Alpha" false; mkBook 2 "Beta" false] 2)
               None [] []) = (Ok tt, w1) /\
    store w1 = Sqlite.mkStore [mkBook 1 "Alpha" false; mkBook 2 "Beta" false] 2.
Proof.
  destruct (update_book_replaces_matching_row (mkBook 9 "Nine" true)
              (mkWorld (Sqlite.mkStore [mkBook 1 "Alpha" false; mkBook 2 "Beta" false] 2)
                       None [] []))
    as [w1 [H1 [_ [_ H2]]]].
  - reflexivity.
  - exists w1. split; [exact H1|]. apply H2.
    simpl. intros r [E|[E|[]]]; subst r; simpl; discriminate.
Defined.

(** ** Create, then get *)

Lemma max_id_bound (rows : list Book) (r : Book) :
  In r rows -> ID r <= Sqlite.max_id rows.
Proof.
  induction rows as [|a rows IH]; simpl; [contradiction|].
  intros [E|Hin].
  - subst a. apply Z.le_max_l.
  - specialize (IH Hin). lia.
Qed.

Lemma max_id_nonneg (rows : list Book) : 0 <= Sqlite.max_id rows.
Proof.
  induction rows as [|a rows IH]; simpl; lia.
Qed.

Lemma filter_none {A : Type} (f : A -> bool) (l : list A) :
  (forall x, In x l -> f x = false) -> filter f l = [].
Proof.
  induction l as [|a l IH]; intros H; simpl; [reflexivity|].
  rewrite (H a (or_introl eq_refl)). apply IH. intros x Hx. apply H. now right.
Qed.

(** C9: when the two driver calls run and the table has a rowid left,
    [CreateBook] succeeds with a positive store-assigned identifier and the
    input's title and has-sales flag, and [GetBook] on that identifier then
    yields a book with the same identifier, title and flag; this holds for
    every title and either flag. *)
Theorem create_then_get_round_trip (book : Book) (w : World) :
  quiet 2 (faults w) = true ->
  Z.max (Sqlite.seq (store w)) (Sqlite.max_id (Sqlite.rows (store w))) < GoInt.MaxInt ->
  exists (id : Z) (w1 w2 : World),
    CreateBook book w = (Ok (mkBook id (Title book) (HasSales book)), w1) /\
    0 < id /\
    GetBook id w1 = (Ok (mkBook id (Title book) (HasSales book)), w2).
Proof.
  intros Hq Hroom.
  assert (Hq1 : quiet 1 (faults w) = true).
  { destruct (faults w) as [|[e|] f]; simpl in *; auto. }
  set (id := Z.max (Sqlite.seq (store w)) (Sqlite.max_id (Sqlite.rows (store w))) + 1).
  assert (Hpos : 0 < id).
  { pose proof (max_id_nonneg (Sqlite.rows (store w))). unfold id. lia. }
  assert (Hcreate : CreateBook book w =
            (Ok (mkBook id (Title book) (HasSales book)),
             mkWorld (Sqlite.mkStore (Sqlite.rows (store w)
                                        ++ [mkBook id (Title book) (HasSales book)]) id)
                     (txn w) (tl (faults w))
                     (trace w ++ [CallExec "INSERT INTO books (title, has_sales) VALUES (?, ?)"
                                    [VText (Title book); VBool (HasSales book)]]))).
  { unfold CreateBook, ExecContext. rewrite (quiet_1 _ _ Hq1).
    unfold statement. simpl. fold id.
    destruct (id >? GoInt.MaxInt) eqn:E.
    - apply Z.gtb_lt in E. unfold id in E. lia.
    - reflexivity. }
  exists id. eexists. eexists. split; [exact Hcreate|]. split; [exact Hpos|].
  unfold GetBook, QueryRowContext, QueryContext.
  rewrite quiet_1.
  2:{ simpl. destruct (faults w) as [|[e|] f]; simpl in *; try discriminate; auto. }
  unfold statement. simpl.
  rewrite filter_app. simpl. rewrite Z.eqb_refl.
  rewrite filter_none.
  - simpl. reflexivity.
  - intros r Hin. apply Z.eqb_neq. apply max_id_bound in Hin. unfold id. lia.
Qed.

Lemma create_then_get_round_trip_witness :
  exists (id : Z) (w1 w2 : World),
    CreateBook (mkBook 0 "X" false)
      (mkWorld (Sqlite.mkStore [mkBook 1 "Alpha" true; mkBook 7 "Beta" false] 7)
               None [] []) = (Ok (mkBook id "X" false), w1) /\
    0 < id /\
    GetBook id w1 = (Ok (mkBook id "X" false), w2).
Proof.
  apply (create_then_get_round_trip (mkBook 0 "X" false)
           (mkWorld (Sqlite.mkStore [mkBook 1 "Alpha" true; mkBook 7 "Beta" false] 7)
                    None [] [])).
  - reflexivity.
  - reflexivity.
Defined.

(** ** Listing with search, filter and paging *)

Lemma scan_rows_books (l acc : list Book) :
  scan_rows (map Sqlite.row_of_book l) acc = Ok (acc ++ l).
Proof.
  revert acc; induction l as [|b l IH]; intros acc; simpl.
  - now rewrite app_nil_r.
  - destruct b as [i t h]; simpl. rewrite IH, <- app_assoc. reflexivity.
Qed.

(** Both query texts carry the same WHERE clause; the store compiles them
    and reads the clause, with the arguments bound, as [spec_matches]. *)
Lemma where_is_spec_matches (search filter : string) (rest : list Value) :
  exists (cl : list Sqlite.Clause) (f : Book -> bool),
    Sqlite.parse (countQuery search filter) = Some (Sqlite.CountBooks cl) /\
    Sqlite.parse (listQuery search filter) = Some (Sqlite.SelectPage cl) /\
    List.length (args search) = Sqlite.where_params cl /\
    Sqlite.bind_where cl (args search ++ rest) = Some (f, rest) /\
    (forall b, f b = spec_matches search filter b) /\
    Sqlite.prepare (countQuery search filter) = Ok (Sqlite.CountBooks cl) /\
    Sqlite.prepare (listQuery search filter) = Ok (Sqlite.SelectPage cl).
Proof.
  unfold Sqlite.prepare, countQuery, listQuery, whereStr, whereClauses, args, spec_matches.
  destruct (String.eqb search EmptyString) eqn:Es;
    destruct (String.eqb filter "on_sale") eqn:E1;
    destruct (String.eqb filter "not_on_sale") eqn:E2;
    simpl; eexists; eexists;
    (split; [reflexivity|split; [reflexivity|split; [reflexivity|split; [reflexivity|]]]]);
    (split; [|split; reflexivity]);
    intros b; simpl; rewrite ?andb_true_r; reflexivity.
Qed.

Lemma quiet_2 (w : World) :
  quiet 2 (faults w) = true ->
  quiet 1 (faults w) = true /\ quiet 1 (tl (faults w)) = true.
Proof.
  destruct (faults w) as [|[e|] f]; simpl; intros H; try discriminate; auto.
Qed.

Lemma statement_runs (q : string) (a : list Value) (w : World)
      (st : Sqlite.Stmt) (o : Sqlite.Outcome) (s' : Sqlite.Store) :
  Sqlite.prepare q = Ok st ->
  List.length a = Sqlite.num_params st ->
  Sqlite.run st a (store w) = Ok (o, s') ->
  statement q a w = (Ok o, with_store s' w).
Proof.
  intros Hp Hn Hr. unfold statement. rewrite Hp, Hn, Nat.eqb_refl, Hr. reflexivity.
Qed.

Lemma QueryRowContext_runs (q : string) (a : list Value) (w : World)
      (st : Sqlite.Stmt) (o : Sqlite.Outcome) (s' : Sqlite.Store) :
  quiet 1 (faults w) = true ->
  Sqlite.prepare q = Ok st ->
  List.length a = Sqlite.num_params st ->
  Sqlite.run st a (store w) = Ok (o, s') ->
  QueryRowContext q a w =
  (Ok (rows_of o), mkWorld s' (txn w) (tl (faults w)) (trace w ++ [CallQuery q a])).
Proof.
  intros Hq Hp Hn Hr. unfold QueryRowContext. rewrite (quiet_1 _ _ Hq).
  erewrite statement_runs; [reflexivity|exact Hp|exact Hn|exact Hr].
Qed.

Lemma QueryContext_runs (q : string) (a : list Value) (w : World)
      (st : Sqlite.Stmt) (o : Sqlite.Outcome) (s' : Sqlite.Store) :
  quiet 1 (faults w) = true ->
  Sqlite.prepare q = Ok st ->
  List.length a = Sqlite.num_params st ->
  Sqlite.run st a (store w) = Ok (o, s') ->
  QueryContext q a w =
  (Ok (mkRows (rows_of o) None),
   mkWorld s' (txn w) (tl (faults w)) (trace w ++ [CallQuery q a])).
Proof.
  intros Hq Hp Hn Hr. unfold QueryContext. rewrite (quiet_1 _ _ Hq).
  erewrite statement_runs; [reflexivity|exact Hp|exact Hn|exact Hr].
Qed.

Lemma ListBooks_runs (limit offset : Z) (search filter : string) (w : World) :
  quiet 2 (faults w) = true ->
  ListBooks limit offset search filter w =
  (Ok (mkPaginatedBooks
         (Sqlite.limit_offset limit offset
            (Sqlite.order_by_id (matching search filter (Sqlite.rows (store w)))))
         (Z.of_nat (List.length (matching search filter (Sqlite.rows (store w)))))),
   mkWorld (store w) (txn w) (tl (tl (faults w)))
           (trace w ++ [CallQuery (countQuery search filter) (args search);
                        CallQuery (listQuery search filter) (pagedArgs limit offset search)])).
Proof.
  intros Hq. destruct (quiet_2 _ Hq) as [Hq1 Hq2].
  destruct (where_is_spec_matches search filter [])
    as [cl [f [Hc [_ [Hn [Hb [Hf [Hpc _]]]]]]]].
  destruct (where_is_spec_matches search filter [VInt limit; VInt offset])
    as [cl' [f' [Hc' [Hl' [Hn' [Hb' [Hf' [_ Hpl']]]]]]]].
  rewrite Hc in Hc'. injection Hc' as <-.
  rewrite app_nil_r in Hb.
  unfold ListBooks.
  erewrite QueryRowContext_runs; [| exact Hq1 | exact Hpc | exact Hn | ].
  2:{ cbn [Sqlite.run]. rewrite Hb. reflexivity. }
  cbn [rows_of RowScan scan_int].
  erewrite QueryContext_runs; [| exact Hq2 | exact Hpl' | | ].
  3:{ cbn [Sqlite.run store]. unfold pagedArgs. rewrite Hb'. reflexivity. }
  2:{ unfold pagedArgs. rewrite length_app, Hn'. reflexivity. }
  cbn [rows_of pending]. rewrite scan_rows_books. cbn [app txn faults trace store].
  unfold matching, Sqlite.count_rows.
  rewrite (filter_ext _ _ Hf), (filter_ext _ _ Hf').
  rewrite <- app_assoc. reflexivity.
Qed.

(** ** The pattern [%search%] *)

(** *** Letters *)

Lemma same_lower (c c2 : Z) : Sqlite.same c c2 = (lower c =? lower c2).
Proof.
  unfold Sqlite.same, Sqlite.Tolower, lower.
  repeat match goal with
  | |- context [Z.leb ?a ?b] => destruct (Z.leb_spec a b)
  | |- context [Z.ltb ?a ?b] => destruct (Z.ltb_spec a b)
  | |- context [Z.eqb ?a ?b] => destruct (Z.eqb_spec a b)
  | _ => progress cbn [andb orb]
  end; try reflexivity; exfalso; cbn [andb orb] in *; lia.
Qed.

Lemma stops_lower (c c2 : Z) : Sqlite.stops c c2 = (lower c =? lower c2).
Proof.
  unfold Sqlite.stops, Sqlite.Toupper, Sqlite.Tolower, lower.
  repeat match goal with
  | |- context [Z.leb ?a ?b] => destruct (Z.leb_spec a b)
  | |- context [Z.ltb ?a ?b] => destruct (Z.ltb_spec a b)
  | |- context [Z.eqb ?a ?b] => destruct (Z.eqb_spec a b)
  | _ => progress cbn [andb orb]
  end; try reflexivity; exfalso; cbn [andb orb] in *; lia.
Qed.

Lemma finish_ge (c : Z) : 128 <= Sqlite.finish c.
Proof.
  unfold Sqlite.finish.
  destruct (Z.ltb_spec c 128); cbn [orb]; [lia|].
  destruct (_ || _); lia.
Qed.

(** *** Reading the characters *)

Lemma byte_of_range (a : ascii) : 0 <= byte_of a < 256.
Proof.
  unfold byte_of. pose proof (N_ascii_bounded a). lia.
Qed.

Lemma ascii_not_continuation (a : ascii) :
  byte_of a < 128 -> (Z.land (byte_of a) 192 =? 128) = false.
Proof.
  destruct a as [[] [] [] [] [] [] [] []]; vm_compute; intros H;
    first [reflexivity | discriminate H].
Qed.

Lemma chars_from_unfold (cur : option Z) (a : ascii) (s : string) :
  Sqlite.chars_from cur (String a s) =
  let b := byte_of a in
  let next :=
    if b =? 0 then []
    else if b <? 192 then b :: Sqlite.chars_from None s
    else Sqlite.chars_from (Some (Sqlite.Utf8Trans1 b)) s in
  match cur with
  | Some c =>
      if Z.land b 192 =? 128
      then Sqlite.chars_from (Some ((Z.shiftl c 6 + Z.land b 63) mod 4294967296)) s
      else Sqlite.finish c :: next
  | None => next
  end.
Proof.
  reflexivity.
Qed.

(** An ASCII character ends the character before it and stands for
    itself. *)
Lemma chars_from_ascii (cur : option Z) (a : ascii) (s : string) :
  0 < byte_of a < 128 ->
  Sqlite.chars_from cur (String a s) =
  Sqlite.flush cur ++ byte_of a :: Sqlite.chars_from None s.
Proof.
  intros Ha. rewrite chars_from_unfold. cbv zeta.
  rewrite ascii_not_continuation by lia.
  destruct (Z.eqb_spec (byte_of a) 0); [lia|].
  destruct (Z.ltb_spec (byte_of a) 192); [|lia].
  destruct cur; reflexivity.
Qed.

Lemma nul_free_cons (a : ascii) (s : string) :
  nul_free (String a s) = true <-> byte_of a <> 0 /\ nul_free s = true.
Proof.
  unfold nul_free. cbn [bytes forallb]. rewrite andb_true_iff, negb_true_iff, Z.eqb_neq.
  reflexivity.
Qed.

Lemma chars_from_app_ascii (pre : string) :
  forall (cur : option Z) (a : ascii) (rest : string),
    nul_free pre = true ->
    0 < byte_of a < 128 ->
    Sqlite.chars_from cur (pre ++ String a rest) =
    Sqlite.chars_from cur pre ++ byte_of a :: Sqlite.chars_from None rest.
Proof.
  induction pre as [|a0 pre IH]; intros cur a rest Hn Ha.
  - cbn [append]. rewrite chars_from_ascii by exact Ha. reflexivity.
  - apply nul_free_cons in Hn. destruct Hn as [Hb Hn].
    cbn [append]. rewrite !chars_from_unfold. cbv zeta.
    destruct (Z.eqb_spec (byte_of a0) 0); [contradiction|].
    destruct cur as [c|].
    + destruct (Z.land (byte_of a0) 192 =? 128); [apply IH; assumption|].
      destruct (byte_of a0 <? 192); cbn [app]; rewrite IH by assumption; reflexivity.
    + destruct (byte_of a0 <? 192); cbn [app]; rewrite IH by assumption; reflexivity.
Qed.

(** The characters of a text that contains none of [%], [_] and NUL are
    none of these either. *)
Lemma literal_cons (a : ascii) (s : string) :
  literal (String a s) = true <->
  (byte_of a <> 0 /\ byte_of a <> 37 /\ byte_of a <> 95) /\ literal s = true.
Proof.
  unfold literal. cbn [bytes forallb].
  rewrite !andb_true_iff, !negb_true_iff, !Z.eqb_neq. tauto.
Qed.

Lemma literal_nul_free (s : string) : literal s = true -> nul_free s = true.
Proof.
  induction s as [|a s IH]; [reflexivity|].
  intros H. apply literal_cons in H. apply nul_free_cons. tauto.
Qed.

Lemma chars_from_literal (s : string) :
  forall cur : option Z,
    literal s = true ->
    Forall (fun c => c <> 37 /\ c <> 95) (Sqlite.chars_from cur s).
Proof.
  induction s as [|a s IH]; intros cur Hl.
  - destruct cur as [c|]; cbn; [|constructor].
    constructor; [|constructor]. pose proof (finish_ge c). lia.
  - apply literal_cons in Hl. destruct Hl as [[H0 [H1 H2]] Hl].
    rewrite chars_from_unfold. cbv zeta.
    assert (Hnext : Forall (fun c => c <> 37 /\ c <> 95)
              (if byte_of a =? 0 then []
               else if byte_of a <? 192 then byte_of a :: Sqlite.chars_from None s
               else Sqlite.chars_from (Some (Sqlite.Utf8Trans1 (byte_of a))) s)).
    { destruct (byte_of a =? 0); [constructor|].
      destruct (byte_of a <? 192); [constructor; [tauto|]|]; now apply IH. }
    destruct cur as [c|]; [|exact Hnext].
    destruct (Z.land (byte_of a) 192 =? 128); [now apply IH|].
    constructor; [|exact Hnext]. pose proof (finish_ge c). lia.
Qed.

Lemma chars_of_pattern (search : string) :
  literal search = true ->
  Sqlite.chars ("%" ++ search ++ "%") = 37 :: Sqlite.chars search ++ [37].
Proof.
  intros Hl. unfold Sqlite.chars.
  change ("%" ++ search ++ "%")%string with (String "%" (search ++ String "%" EmptyString)).
  rewrite chars_from_ascii by (vm_compute; split; reflexivity).
  rewrite chars_from_app_ascii;
    [reflexivity | now apply literal_nul_free | vm_compute; split; reflexivity].
Qed.

(** *** The pattern against a text *)

Lemma patternCompare_all (afterAll : bool) (p s : list Z) :
  Sqlite.patternCompare afterAll (37 :: p) s = Sqlite.patternCompare true p s.
Proof.
  reflexivity.
Qed.

Lemma patternCompare_char (c : Z) (p s : list Z) :
  c <> 37 -> c <> 95 ->
  Sqlite.patternCompare false (c :: p) s =
  match s with
  | [] => Sqlite.NOMATCH
  | c2 :: s' =>
      if lower c =? lower c2 then Sqlite.patternCompare false p s' else Sqlite.NOMATCH
  end.
Proof.
  intros H1 H2. cbn [Sqlite.patternCompare].
  unfold Sqlite.matchAll, Sqlite.matchOne.
  destruct (Z.eqb_spec c 37); [contradiction|].
  destruct (Z.eqb_spec c 95); [contradiction|].
  destruct s as [|c2 s']; [reflexivity|].
  rewrite same_lower, orb_false_r. reflexivity.
Qed.

Lemma patternCompare_search (c : Z) (p s : list Z) :
  c <> 37 -> c <> 95 ->
  Sqlite.patternCompare true (c :: p) s =
  match s with
  | [] => Sqlite.NOWILDCARDMATCH
  | c2 :: s' =>
      if lower c =? lower c2 then
        match Sqlite.patternCompare false p s' with
        | Sqlite.NOMATCH => Sqlite.patternCompare true (c :: p) s'
        | bMatch => bMatch
        end
      else Sqlite.patternCompare true (c :: p) s'
  end.
Proof.
  intros H1 H2. cbn [Sqlite.patternCompare].
  unfold Sqlite.matchAll, Sqlite.matchOne.
  destruct (Z.eqb_spec c 37); [contradiction|].
  destruct (Z.eqb_spec c 95); [contradiction|].
  destruct s as [|c2 s']; [reflexivity|].
  rewrite stops_lower. reflexivity.
Qed.

(** Before the closing [%], a pattern without wildcards matches or does
    not: it matches exactly the texts that begin with it. *)
Lemma patternCompare_prefix (p : list Z) :
  Forall (fun c => c <> 37 /\ c <> 95) p ->
  forall s : list Z,
    (Sqlite.patternCompare false (p ++ [37]) s = Sqlite.MATCH /\
     exists mid post, s = mid ++ post /\ map lower mid = map lower p) \/
    (Sqlite.patternCompare false (p ++ [37]) s = Sqlite.NOMATCH /\
     ~ exists mid post, s = mid ++ post /\ map lower mid = map lower p).
Proof.
  induction 1 as [|c p [Hc1 Hc2] Hp IH]; intros s.
  - left. split; [reflexivity|]. exists [], s. auto.
  - cbn [app]. rewrite patternCompare_char by assumption.
    destruct s as [|c2 s'].
    + right. split; [reflexivity|]. intros [mid [post [E H]]].
      destruct mid; discriminate.
    + destruct (Z.eqb_spec (lower c) (lower c2)) as [El|El].
      * destruct (IH s') as [[Hm [mid [post [E H]]]]|[Hm Hno]].
        -- left. split; [exact Hm|]. exists (c2 :: mid), post.
           split; [cbn; now rewrite E|]. cbn. now rewrite H, El.
        -- right. split; [exact Hm|]. intros [mid [post [E H]]].
           destruct mid as [|m mid]; [discriminate|].
           cbn in E, H. injection E as <- E. injection H as _ H.
           apply Hno. exists mid, post. auto.
      * right. split; [reflexivity|]. intros [mid [post [E H]]].
        destruct mid as [|m mid]; [discriminate|].
        cbn in E, H. injection E as <- E. injection H as H _. congruence.
Qed.

(** After the opening [%], it matches exactly the texts it occurs in. *)
Lemma patternCompare_occurs (c : Z) (p : list Z) :
  c <> 37 -> c <> 95 ->
  Forall (fun c => c <> 37 /\ c <> 95) p ->
  forall s : list Z,
    Sqlite.patternCompare true (c :: p ++ [37]) s = Sqlite.MATCH <->
    contains (c :: p) s.
Proof.
  intros Hc1 Hc2 Hp. unfold contains.
  assert (Hshift : forall c2 s',
    (exists pre mid post, s' = pre ++ mid ++ post /\ map lower mid = map lower (c :: p)) ->
    exists pre mid post, c2 :: s' = pre ++ mid ++ post /\ map lower mid = map lower (c :: p)).
  { intros c2 s' [pre [mid [post [E H]]]]. exists (c2 :: pre), mid, post.
    split; [cbn; now rewrite E|exact H]. }
  induction s as [|c2 s' IH]; rewrite patternCompare_search by assumption.
  - split; [discriminate|]. intros [pre [mid [post [E H]]]].
    destruct pre; [|discriminate]. destruct mid; discriminate.
  - destruct (Z.eqb_spec (lower c) (lower c2)) as [El|El].
    + destruct (patternCompare_prefix p Hp s') as [[Hm [mid [post [E H]]]]|[Hm Hno]];
        rewrite Hm.
      * split; [intros _|reflexivity]. exists [], (c2 :: mid), post.
        split; [cbn; now rewrite E|]. cbn. now rewrite H, El.
      * rewrite IH. split; [apply Hshift|].
        intros [pre [mid [post [E H]]]]. destruct pre as [|x pre].
        -- destruct mid as [|m mid]; [discriminate|].
           cbn in E, H. injection E as <- E. injection H as _ H.
           exfalso. apply Hno. exists mid, post. auto.
        -- cbn in E. injection E as _ E. exists pre, mid, post. auto.
    + rewrite IH. split; [apply Hshift|].
      intros [pre [mid [post [E H]]]]. destruct pre as [|x pre].
      * destruct mid as [|m mid]; [discriminate|].
        cbn in E, H. injection E as <- E. injection H as H _. congruence.
      * cbn in E. injection E as _ E. exists pre, mid, post. auto.
Qed.

(** [title LIKE %search%] for a search that holds none of [%], [_] and NUL:
    the characters of the title, as the store reads them, contain those of
    the search. *)
Lemma like_literal (search title : string) :
  literal search = true ->
  Sqlite.like ("%" ++ search ++ "%") title = true <->
  contains (Sqlite.chars search) (Sqlite.chars title).
Proof.
  intros Hl. unfold Sqlite.like. rewrite (chars_of_pattern _ Hl).
  rewrite patternCompare_all.
  pose proof (chars_from_literal search None Hl) as Hp.
  fold (Sqlite.chars search) in Hp.
  destruct (Sqlite.chars search) as [|c p].
  - cbn. split; [intros _|reflexivity]. exists [], [], (Sqlite.chars title). auto.
  - inversion Hp as [|? ? [Hc1 Hc2] Hp']; subst.
    cbn [app].
    rewrite <- (patternCompare_occurs c p Hc1 Hc2 Hp').
    destruct (Sqlite.patternCompare true (c :: p ++ [37]) (Sqlite.chars title));
      split; intros H; try reflexivity; discriminate.
Qed.

(** *** Characters and bytes *)

Lemma bytes_app (s t : string) : bytes (s ++ t) = bytes s ++ bytes t.
Proof.
  induction s as [|a s IH]; cbn; [reflexivity|]. now rewrite IH.
Qed.

Lemma bytes_app_inv (t : string) :
  forall l1 l2 : list Z,
    bytes t = l1 ++ l2 ->
    exists s1 s2 : string, t = (s1 ++ s2)%string /\ bytes s1 = l1 /\ bytes s2 = l2.
Proof.
  induction t as [|a t IH]; intros l1 l2 E.
  - destruct l1; [|discriminate]. destruct l2; [|discriminate].
    exists EmptyString, EmptyString. auto.
  - destruct l1 as [|x l1].
    + exists EmptyString, (String a t). auto.
    + cbn in E. injection E as Ex E. destruct (IH _ _ E) as [s1 [s2 [Et [E1 E2]]]].
      exists (String a s1), s2. cbn. rewrite Et, E1, Ex. auto.
Qed.

Lemma lower_ascii (c d : Z) : lower c = lower d -> 0 < d < 128 -> 0 < c < 128.
Proof.
  unfold lower.
  repeat match goal with
  | |- context [Z.leb ?a ?b] => destruct (Z.leb_spec a b)
  | _ => progress cbn [andb]
  end; lia.
Qed.

Lemma lower_all_ascii (l m : list Z) :
  map lower l = map lower m ->
  Forall (fun c => 0 < c < 128) m -> Forall (fun c => 0 < c < 128) l.
Proof.
  revert m; induction l as [|c l IH]; intros m E Hm; [constructor|].
  destruct m as [|d m]; [discriminate|]. cbn in E. injection E as Ec E.
  inversion Hm; subst. constructor; [eapply lower_ascii; eassumption|].
  eapply IH; eassumption.
Qed.

Lemma ascii_bytes (s : string) :
  ascii_text s = true -> nul_free s = true -> Forall (fun c => 0 < c < 128) (bytes s).
Proof.
  unfold ascii_text, nul_free. induction s as [|a s IH]; cbn [bytes forallb]; [constructor|].
  rewrite !andb_true_iff, negb_true_iff, Z.eqb_neq, Z.ltb_lt.
  intros [Ha Hs] [Hz Hn]. constructor; [|now apply IH].
  pose proof (byte_of_range a). lia.
Qed.

(** A text of ASCII characters is read byte for byte. *)
Lemma chars_from_ascii_text (s : string) :
  Forall (fun c => 0 < c < 128) (bytes s) ->
  forall rest : string,
    Sqlite.chars_from None (s ++ rest) = bytes s ++ Sqlite.chars_from None rest.
Proof.
  induction s as [|a s IH]; intros H rest; [reflexivity|].
  cbn [bytes] in H. inversion H; subst.
  cbn [append bytes app]. rewrite chars_from_ascii by assumption.
  cbn [Sqlite.flush app]. now rewrite IH.
Qed.

(** Inside a character of several bytes, the next character read is not
    an ASCII one. *)
Lemma chars_from_inside (t : string) :
  forall x : Z, exists (y : Z) (l : list Z),
    Sqlite.chars_from (Some x) t = Sqlite.finish y :: l.
Proof.
  induction t as [|a t IH]; intros x.
  - exists x, []. reflexivity.
  - rewrite chars_from_unfold. cbv zeta.
    destruct (Z.land (byte_of a) 192 =? 128); [apply IH|].
    eexists. eexists. reflexivity.
Qed.

(** ASCII characters at the head of what is read are the bytes at the head
    of the text. *)
Lemma chars_ascii_head (l : list Z) :
  Forall (fun c => 0 < c < 128) l ->
  forall (t : string) (r : list Z),
    Sqlite.chars_from None t = l ++ r ->
    exists m post : string,
      t = (m ++ post)%string /\ bytes m = l /\ Sqlite.chars_from None post = r.
Proof.
  induction 1 as [|c l Hc Hl IH]; intros t r E.
  - exists EmptyString, t. auto.
  - destruct t as [|a t]; [discriminate|].
    rewrite chars_from_unfold in E. cbv zeta in E.
    destruct (byte_of a =? 0); [discriminate|].
    destruct (byte_of a <? 192).
    + cbn in E. injection E as Ea E.
      destruct (IH _ _ E) as [m [post [Et [Em Ep]]]].
      exists (String a m), post. cbn. rewrite Et, Em, Ea. auto.
    + destruct (chars_from_inside t (Sqlite.Utf8Trans1 (byte_of a))) as [y [l' Ey]].
      rewrite Ey in E. cbn in E. injection E as Ec _.
      pose proof (finish_ge y). lia.
Qed.

(** An ASCII character among those read is a byte of the text, and what is
    read from it on is what is read of the rest of the text. *)
Lemma chars_ascii_found (t : string) :
  forall (cur : option Z) (cpre : list Z) (c : Z) (r : list Z),
    0 < c < 128 ->
    Sqlite.chars_from cur t = cpre ++ c :: r ->
    exists pre t' : string,
      t = (pre ++ t')%string /\ Sqlite.chars_from None t' = c :: r.
Proof.
  induction t as [|a t IH]; intros cur cpre c r Hc E.
  - destruct cur as [x|]; cbn in E.
    + destruct cpre as [|? cpre]; cbn in E.
      * injection E as E. pose proof (finish_ge x). lia.
      * injection E as _ E. destruct cpre; discriminate.
    + destruct cpre; discriminate.
  - assert (Hnext : forall cpre',
      (if byte_of a =? 0 then []
       else if byte_of a <? 192 then byte_of a :: Sqlite.chars_from None t
       else Sqlite.chars_from (Some (Sqlite.Utf8Trans1 (byte_of a))) t) = cpre' ++ c :: r ->
      exists pre t' : string,
        String a t = (pre ++ t')%string /\ Sqlite.chars_from None t' = c :: r).
    { intros cpre' E'. destruct (byte_of a =? 0) eqn:E0.
      { destruct cpre'; discriminate. }
      destruct (byte_of a <? 192) eqn:E1.
      - destruct cpre' as [|x cpre'].
        + exists EmptyString, (String a t). split; [reflexivity|].
          rewrite chars_from_unfold. cbv zeta. rewrite E0, E1. exact E'.
        + cbn in E'. injection E' as _ E'.
          destruct (IH _ _ _ _ Hc E') as [pre [t' [Et Ec]]].
          exists (String a pre), t'. cbn. rewrite Et. auto.
      - destruct (IH _ _ _ _ Hc E') as [pre [t' [Et Ec]]].
        exists (String a pre), t'. cbn. rewrite Et. auto. }
    rewrite chars_from_unfold in E. cbv zeta in E.
    destruct cur as [x|]; [|exact (Hnext _ E)].
    destruct (Z.land (byte_of a) 192 =? 128).
    + destruct (IH _ _ _ _ Hc E) as [pre [t' [Et Ec]]].
      exists (String a pre), t'. cbn. rewrite Et. auto.
    + destruct cpre as [|y cpre]; cbn in E.
      * injection E as E _. pose proof (finish_ge x). lia.
      * injection E as _ E. exact (Hnext _ E).
Qed.

Lemma nul_free_app (s t : string) :
  nul_free (s ++ t) = true <-> nul_free s = true /\ nul_free t = true.
Proof.
  unfold nul_free. rewrite bytes_app, forallb_app, andb_true_iff. reflexivity.
Qed.

(** For an ASCII search and a title without a zero byte, the characters of
    the title contain those of the search exactly when its bytes do. *)
Lemma contains_chars_bytes (search title : string) :
  ascii_text search = true ->
  nul_free search = true ->
  nul_free title = true ->
  contains (Sqlite.chars search) (Sqlite.chars title) <-> title_contains search title.
Proof.
  intros Ha Hn Ht.
  pose proof (ascii_bytes _ Ha Hn) as Hs.
  assert (Ecs : Sqlite.chars search = bytes search).
  { unfold Sqlite.chars.
    replace search with (search ++ EmptyString)%string at 1.
    - rewrite (chars_from_ascii_text _ Hs). cbn. apply app_nil_r.
    - clear. induction search as [|a s IH]; cbn; [reflexivity|now rewrite IH]. }
  rewrite Ecs. unfold title_contains, contains. split.
  - intros [cpre [cmid [cpost [E H]]]].
    pose proof (lower_all_ascii _ _ H Hs) as Hmid.
    destruct cmid as [|c cmid].
    + exists [], [], (bytes title). auto.
    + inversion Hmid as [|? ? Hc Hmid']; subst.
      destruct (chars_ascii_found title None cpre c (cmid ++ cpost) Hc E)
        as [pre [t' [Et Ec]]].
      destruct (chars_ascii_head (c :: cmid) Hmid t' cpost Ec) as [m [post [Et' [Em _]]]].
      exists (bytes pre), (bytes m), (bytes post).
      split; [rewrite Et, Et', !bytes_app; reflexivity|]. now rewrite Em.
  - intros [bpre [bmid [bpost [E H]]]].
    pose proof (lower_all_ascii _ _ H Hs) as Hmid.
    destruct (bytes_app_inv _ _ _ E) as [pre [rest [Et [Epre Erest]]]].
    destruct (bytes_app_inv _ _ _ Erest) as [mid [post [Er [Emid Epost]]]].
    subst title rest.
    apply nul_free_app in Ht. destruct Ht as [Hpre _].
    destruct mid as [|a mid].
    + cbn in Emid. subst bmid.
      exists [], [], (Sqlite.chars (pre ++ EmptyString ++ post)). auto.
    + exists (Sqlite.chars pre), (bytes (String a mid)), (Sqlite.chars post).
      split; [|now rewrite Emid].
      rewrite <- Emid in Hmid. cbn [bytes] in Hmid. inversion Hmid; subst.
      unfold Sqlite.chars. cbn [append bytes app].
      rewrite chars_from_app_ascii by assumption.
      rewrite chars_from_ascii_text by assumption. reflexivity.
Qed.

Lemma not_contains (search title : list Z) :
  (forall k : nat, (k <= List.length title)%nat ->
     map lower (firstn (List.length search) (skipn k title)) <> map lower search) ->
  ~ contains search title.
Proof.
  intros Hk [pre [mid [post [E H]]]].
  apply (Hk (List.length pre)).
  - rewrite E, length_app. lia.
  - assert (Hlen : List.length search = List.length mid).
    { rewrite <- (length_map lower search), <- H. now rewrite length_map. }
    rewrite E, skipn_app, skipn_all, Nat.sub_diag. cbn [skipn app].
    rewrite Hlen, firstn_app, firstn_all, Nat.sub_diag. cbn [firstn].
    rewrite app_nil_r. exact H.
Qed.

(** For a search of ASCII characters other than [%], [_] and NUL, and a
    title without a zero byte, the predicate of the page is the one the
    specification words. *)
Lemma spec_matches_criteria (search filter : string) (b : Book) :
  literal search = true ->
  ascii_text search = true ->
  nul_free (Title b) = true ->
  spec_matches search filter b = true <-> spec_criteria search filter b.
Proof.
  intros Hl Ha Ht. unfold spec_matches, spec_criteria.
  rewrite andb_true_iff.
  assert (Hlike : Sqlite.like ("%" ++ search ++ "%") (Title b) = true <->
                  title_contains search (Title b)).
  { rewrite (like_literal _ _ Hl).
    apply contains_chars_bytes; [exact Ha|now apply literal_nul_free|exact Ht]. }
  destruct (String.eqb_spec search EmptyString) as [Es|Es];
    destruct (String.eqb_spec filter "on_sale") as [E1|E1];
    destruct (String.eqb_spec filter "not_on_sale") as [E2|E2];
    try (exfalso; congruence);
    rewrite ?Hlike; destruct (HasSales b); cbn [Bool.eqb];
    intuition (try congruence; try discriminate).
Qed.

Lemma eqb_string_dec (s t : string) :
  String.eqb s t = if string_dec s t then true else false.
Proof.
  destruct (string_dec s t) as [E|E].
  - now apply String.eqb_eq.
  - now apply String.eqb_neq.
Qed.

Lemma whereClauses_spec (search filter : string) :
  whereClauses search filter = spec_clauses search filter.
Proof.
  unfold whereClauses, spec_clauses. rewrite !eqb_string_dec.
  destruct (string_dec search EmptyString), (string_dec filter "on_sale"),
    (string_dec filter "not_on_sale"); reflexivity.
Qed.

(** C4: for searches that the pattern takes letter for letter, the query
    builder of [ListBooks] yields the clauses and arguments of the
    specification: [title LIKE ?] with the argument [%search%] exactly when
    the search is not empty, then [has_sales = 1] for the token [on_sale],
    [has_sales = 0] for [not_on_sale] and nothing for [all] or any other
    token; the WHERE text is empty without clauses and joins them with AND
    otherwise; the store reads the text of both queries, with the
    arguments bound, as the conjunction of these conditions.  When the
    search holds none of [%], [_] and the zero byte, the pattern holds of
    a title exactly when the characters of the title, as the store reads
    them (UTF-8, up to the first zero byte), contain those of the search,
    the case of ASCII letters apart; for a search of ASCII characters and
    a title without a zero byte, that is: the bytes of the title contain
    those of the search, and the books selected are those the
    specification asks for. *)
Theorem query_builder_maps_criteria (search filter : string) (c : ascii) (s : string) :
  (whereClauses search filter = spec_clauses search filter /\
   args search = spec_args search /\
   whereStr search filter =
     match spec_clauses search filter with
     | [] => EmptyString
     | cs => (" WHERE " ++ Join cs " AND ")%string
     end) /\
  (whereStr EmptyString "all" = EmptyString /\
   whereStr EmptyString "on_sale" = " WHERE has_sales = 1"%string /\
   whereStr EmptyString "not_on_sale" = " WHERE has_sales = 0"%string /\
   whereStr (String c s) "all" = " WHERE title LIKE ?"%string /\
   whereStr (String c s) "on_sale" = " WHERE title LIKE ? AND has_sales = 1"%string /\
   whereStr (String c s) "not_on_sale" = " WHERE title LIKE ? AND has_sales = 0"%string /\
   args EmptyString = [] /\
   args (String c s) = [VText ("%" ++ String c s ++ "%")]) /\
  (exists (cl : list Sqlite.Clause) (f : Book -> bool),
     Sqlite.parse (countQuery search filter) = Some (Sqlite.CountBooks cl) /\
     Sqlite.parse (listQuery search filter) = Some (Sqlite.SelectPage cl) /\
     Sqlite.bind_where cl (args search) = Some (f, []) /\
     (forall b, f b = spec_matches search filter b) /\
     (literal search = true -> ascii_text search = true ->
      forall b, nul_free (Title b) = true ->
                (f b = true <-> spec_criteria search filter b))) /\
  (literal search = true ->
   forall title : string,
     (Sqlite.like ("%" ++ search ++ "%") title = true <->
      contains (Sqlite.chars search) (Sqlite.chars title)) /\
     (ascii_text search = true -> nul_free title = true ->
      (Sqlite.like ("%" ++ search ++ "%") title = true <-> title_contains search title))).
Proof.
  split; [|split; [|split]].
  - split; [apply whereClauses_spec|]. split.
    + unfold args, spec_args. rewrite eqb_string_dec.
      now destruct (string_dec search EmptyString).
    + unfold whereStr. rewrite whereClauses_spec.
      now destruct (spec_clauses search filter).
  - repeat split.
  - destruct (where_is_spec_matches search filter []) as [cl [f [Hc [Hl [_ [Hb [Hf _]]]]]]].
    rewrite app_nil_r in Hb. exists cl, f.
    split; [exact Hc|]. split; [exact Hl|]. split; [exact Hb|]. split; [exact Hf|].
    intros Hlit Ha b Ht. rewrite Hf. now apply spec_matches_criteria.
  - intros Hlit title. split; [now apply like_literal|].
    intros Ha Ht. rewrite (like_literal _ _ Hlit).
    apply contains_chars_bytes; [exact Ha|now apply literal_nul_free|exact Ht].
Qed.

Lemma query_builder_maps_criteria_witness :
  literal "lph" = true /\ ascii_text "lph" = true /\
  nul_free "ALPHA" = true /\
  spec_criteria "lph" "on_sale" (mkBook 1 "ALPHA" true).
Proof.
  destruct (query_builder_maps_criteria "lph" "on_sale" "x" EmptyString)
    as [_ [_ [[cl [f [_ [_ [_ [Hf H]]]]]] _]]].
  split; [reflexivity|]. split; [reflexivity|]. split; [reflexivity|].
  apply (H eq_refl eq_refl (mkBook 1 "ALPHA" true) eq_refl).
  rewrite Hf. reflexivity.
Defined.

(** C4 as worded fails on the code: the search is put between two [%] and
    handed to LIKE as a pattern, so a [_] or [%] inside the search is a
    wildcard and not a character looked for in the title.  The search [_]
    selects the title [abc], the search [100%] selects [1000 nights], and
    the search [%] selects a book whose title is empty; none of these
    titles contains the search. *)
Lemma query_builder_maps_criteria_counterexample :
  (args "_" = [VText "%_%"] /\
   spec_matches "_" "all" (mkBook 1 "abc" false) = true /\
   ~ title_contains "_" "abc" /\
   fst (ListBooks 5 0 "_" "all"
          (mkWorld (Sqlite.mkStore [mkBook 1 "abc" false] 1) None [] []))
     = Ok (mkPaginatedBooks [mkBook 1 "abc" false] 1)) /\
  (spec_matches "100%" "all" (mkBook 2 "1000 nights" false) = true /\
   ~ title_contains "100%" "1000 nights") /\
  (spec_matches "%" "all" (mkBook 3 EmptyString false) = true /\
   ~ title_contains "%" EmptyString).
Proof.
  split; [|split].
  - split; [reflexivity|]. split; [reflexivity|]. split; [|reflexivity].
    apply not_contains. intros k Hk.
    do 4 (destruct k as [|k]; [vm_compute; discriminate|]).
    cbn in Hk. lia.
  - split; [reflexivity|].
    apply not_contains. intros k Hk.
    do 12 (destruct k as [|k]; [vm_compute; discriminate|]).
    cbn in Hk. lia.
  - split; [reflexivity|].
    apply not_contains. intros k Hk.
    destruct k as [|k]; [vm_compute; discriminate|].
    cbn in Hk. lia.
Qed.

(** The filter example of the specification: of Alpha (on sale) and Beta
    (not on sale), the filter [on_sale] lists the first only and the search
    [Bet] the second only. *)
Example filter_correctness :
  let w := mkWorld (Sqlite.mkStore [mkBook 1 "Alpha" true; mkBook 2 "Beta" false] 2)
                   None [] [] in
  fst (ListBooks 5 0 EmptyString "on_sale" w)
    = Ok (mkPaginatedBooks [mkBook 1 "Alpha" true] 1) /\
  fst (ListBooks 5 0 "Bet" "all" w)
    = Ok (mkPaginatedBooks [mkBook 2 "Beta" false] 1).
Proof.
  split; reflexivity.
Qed.

Lemma order_by_id_length (l : list Book) :
  List.length (Sqlite.order_by_id l) = List.length l.
Proof.
  assert (Hins : forall b l', List.length (Sqlite.insert_by_id b l') = S (List.length l')).
  { intros b l'. induction l' as [|c l' IH]; simpl; [reflexivity|].
    destruct (ID b <=? ID c); simpl; [reflexivity|]. now rewrite IH. }
  induction l as [|a l IH]; simpl; [reflexivity|].
  now rewrite Hins, IH.
Qed.

(** C2: when the two driver calls run, [ListBooks] sends a COUNT query and a
    paged SELECT whose texts share one WHERE clause and whose arguments
    share the same values (the SELECT adds only limit and offset); the
    total count it returns is the number of rows matching that predicate,
    whatever the limit and the offset, and the page is cut from those same
    rows in ascending identifier order. *)
Theorem list_books_counts_the_page_predicate
    (limit offset : Z) (search filter : string) (w : World) :
  quiet 2 (faults w) = true ->
  exists (result : PaginatedBooks) (w1 : World),
    ListBooks limit offset search filter w = (Ok result, w1) /\
    trace w1 = trace w ++
      [CallQuery ("SELECT COUNT(*) FROM books" ++ whereStr search filter) (args search);
       CallQuery ("SELECT id, title, has_sales FROM books" ++ whereStr search filter
                    ++ " ORDER BY id LIMIT ? OFFSET ?")
                 (args search ++ [VInt limit; VInt offset])] /\
    TotalCount result =
      Z.of_nat (List.length (matching search filter (Sqlite.rows (store w)))) /\
    Books result =
      Sqlite.limit_offset limit offset
        (Sqlite.order_by_id (matching search filter (Sqlite.rows (store w)))) /\
    store w1 = store w.
Proof.
  intros Hq. eexists. eexists. rewrite (ListBooks_runs _ _ _ _ _ Hq).
  repeat split.
Qed.

Lemma list_books_counts_the_page_predicate_witness :
  exists (result : PaginatedBooks) (w1 : World),
    ListBooks 1 1 "Bet" "all"
      (mkWorld (Sqlite.mkStore [mkBook 1 "Alpha" true; mkBook 2 "Beta" false;
                                mkBook 3 "alphabet" false; mkBook 4 "Bet" true] 4)
               None [] []) = (Ok result, w1) /\
    TotalCount result = 3 /\
    Books result = [mkBook 3 "alphabet" false].
Proof.
  destruct (list_books_counts_the_page_predicate 1 1 "Bet" "all"
              (mkWorld (Sqlite.mkStore [mkBook 1 "Alpha" true; mkBook 2 "Beta" false;
                                        mkBook 3 "alphabet" false; mkBook 4 "Bet" true] 4)
                       None [] []))
    as [result [w1 [H1 [_ [H2 [H3 _]]]]]].
  - reflexivity.
  - exists result, w1. split; [exact H1|]. split.
    + rewrite H2. reflexivity.
    + rewrite H3. reflexivity.
Defined.

(** C5: with [limit > 0] and [offset >= 0], when the two driver calls run,
    [ListBooks] succeeds with a page of at most [limit] books and the number
    of matching rows as total count; when the offset is at or past that
    number the page is empty and the total count is still that number. *)
Theorem list_books_page_is_bounded
    (limit offset : Z) (search filter : string) (w : World) :
  0 < limit ->
  0 <= offset ->
  quiet 2 (faults w) = true ->
  exists (result : PaginatedBooks) (w1 : World),
    ListBooks limit offset search filter w = (Ok result, w1) /\
    Z.of_nat (List.length (Books result)) <= limit /\
    TotalCount result =
      Z.of_nat (List.length (matching search filter (Sqlite.rows (store w)))) /\
    (TotalCount result <= offset -> Books result = []).
Proof.
  intros Hl Ho Hq. eexists. eexists. rewrite (ListBooks_runs _ _ _ _ _ Hq).
  split; [reflexivity|]. cbn [Books TotalCount]. unfold Sqlite.limit_offset.
  destruct (limit <? 0) eqn:E; [apply Z.ltb_lt in E; lia|].
  split; [|split].
  - rewrite length_firstn. lia.
  - reflexivity.
  - intros Hpast. rewrite skipn_all2; [apply firstn_nil|].
    rewrite order_by_id_length. lia.
Qed.

Lemma list_books_page_is_bounded_witness :
  exists (result : PaginatedBooks) (w1 : World),
    ListBooks 5 10 EmptyString "on_sale"
      (mkWorld (Sqlite.mkStore [mkBook 1 "Alpha" true; mkBook 2 "Beta" false] 2)
               None [] []) = (Ok result, w1) /\
    TotalCount result = 1 /\
    Books result = [].
Proof.
  destruct (list_books_page_is_bounded 5 10 EmptyString "on_sale"
              (mkWorld (Sqlite.mkStore [mkBook 1 "Alpha" true; mkBook 2 "Beta" false] 2)
                       None [] []))
    as [result [w1 [H1 [_ [H2 H3]]]]].
  - lia.
  - lia.
  - reflexivity.
  - exists result, w1. split; [exact H1|]. split.
    + rewrite H2. reflexivity.
    + apply H3. rewrite H2. vm_compute. discriminate.
Defined.

(** ** The bulk edit transaction *)

Lemma first_fault_add (n m : nat) (f : list (option Error)) :
  first_fault (n + m) f =
  match first_fault n f with
  | Some e => Some e
  | None => first_fault m (skipn n f)
  end.
Proof.
  revert f; induction n as [|n IH]; intros f; [reflexivity|].
  destruct f as [|[e|] f]; cbn [Nat.add first_fault skipn].
  - destruct m; reflexivity.
  - reflexivity.
  - apply IH.
Qed.

(** One prepared UPDATE inside the transaction: it fails as scheduled and
    changes nothing, or replaces the rows the entity names. *)
Lemma StmtExec_update (book : Book) (w : World) :
  exists w1,
    StmtExecContext bulkUpdateQuery Sqlite.UpdateBookById
      [VText (Title book); VBool (HasSales book); VInt (ID book)] w
    = (match first_fault 1 (faults w) with
       | Some e => Err e
       | None => Ok (mkSqlResult 0 (Sqlite.count_rows (fun b => ID b =? ID book)
                                      (Sqlite.rows (store w))))
       end, w1) /\
    txn w1 = txn w /\
    faults w1 = tl (faults w) /\
    Sqlite.seq (store w1) = Sqlite.seq (store w) /\
    Sqlite.rows (store w1) =
      match first_fault 1 (faults w) with
      | Some _ => Sqlite.rows (store w)
      | None => replace_book book (Sqlite.rows (store w))
      end.
Proof.
  unfold StmtExecContext, driver_call.
  destruct (faults w) as [|[e|] f]; simpl; eexists; (split; [reflexivity|]);
    simpl; rewrite ?replace_book_eqb; auto.
Qed.

(** The loop: it stops at the first scheduled failure with that error;
    without one, every entity has been applied, in order. *)
Lemma update_each_spec (books : list Book) :
  forall w : World,
  exists w1,
    update_each Sqlite.UpdateBookById books w
    = (match first_fault (List.length books) (faults w) with
       | Some e => Err e
       | None => Ok tt
       end, w1) /\
    txn w1 = txn w /\
    (first_fault (List.length books) (faults w) = None ->
     faults w1 = skipn (List.length books) (faults w) /\
     Sqlite.seq (store w1) = Sqlite.seq (store w) /\
     Sqlite.rows (store w1) = replace_books books (Sqlite.rows (store w))).
Proof.
  induction books as [|book books IH]; intros w.
  - exists w. simpl. auto.
  - destruct (StmtExec_update book w) as [w1 [H1 [Ht [Hf [Hs Hr]]]]].
    cbn [update_each]. rewrite H1.
    change (List.length (book :: books)) with (1 + List.length books)%nat.
    rewrite first_fault_add.
    destruct (first_fault 1 (faults w)) as [e|] eqn:E1.
    + exists w1. split; [reflexivity|]. split; [exact Ht|]. discriminate.
    + destruct (IH w1) as [w2 [H2 [Ht2 H3]]].
      assert (Hskip : skipn 1 (faults w) = faults w1).
      { rewrite Hf. now destruct (faults w). }
      rewrite Hskip. exists w2. split; [exact H2|]. split; [congruence|].
      intros Hnone. destruct (H3 Hnone) as [Hf2 [Hs2 Hr2]].
      split; [|split].
      * rewrite Hf2, Hf. destruct (faults w); [now rewrite skipn_nil|reflexivity].
      * congruence.
      * rewrite Hr2, Hr. reflexivity.
Qed.

Lemma first_fault_nil (n : nat) : first_fault n [] = None.
Proof. now destruct n. Qed.

(** From the prepared statement to the deferred Rollback, inside an open
    transaction whose snapshot is [st]. *)
Lemma transaction_body (books : list Book) (st : Sqlite.Store)
      (fs : list (option Error)) (tr : list Call) :
  exists w1,
    (let (err, w2) :=
       match update_each Sqlite.UpdateBookById books (mkWorld st (Some st) fs tr) with
       | (Err e, w3) => (Err e, w3)
       | (Ok _, w3) => Commit w3
       end in
     (err, snd (Rollback w2)))
    = (match first_fault (List.length books + 1) fs with
       | Some e => Err e
       | None => Ok tt
       end, w1) /\
    txn w1 = None /\
    store w1 =
      match first_fault (List.length books + 1) fs with
      | Some _ => st
      | None => Sqlite.mkStore (replace_books books (Sqlite.rows st)) (Sqlite.seq st)
      end.
Proof.
  destruct (update_each_spec books (mkWorld st (Some st) fs tr)) as [w3 [H3 [Ht3 Hl3]]].
  rewrite H3. cbn [faults txn store] in *.
  rewrite first_fault_add.
  destruct (first_fault (List.length books) fs) as [e|] eqn:Ef.
  - (* an UPDATE fails: the deferred Rollback restores the table *)
    cbn beta iota. unfold Rollback. rewrite Ht3. cbn [snd].
    eexists. split; [reflexivity|]. split; reflexivity.
  - destruct (Hl3 eq_refl) as [Hf3 [Hs3 Hr3]].
    cbn beta iota. unfold Commit, driver_call. rewrite Ht3, Hf3.
    destruct (skipn (List.length books) fs) as [|[e|] fs'];
      cbn [first_fault tl with_txn with_store txn store faults trace];
      unfold Rollback; cbn [txn snd];
      (eexists; split; [reflexivity|]; cbn [txn store]; split; [reflexivity|]).
    + destruct (store w3); cbn in *; congruence.
    + reflexivity.
    + destruct (store w3); cbn in *; congruence.
Qed.

Lemma BulkUpdateBooks_spec (books : list Book) (w : World) :
  txn w = None ->
  exists w1,
    BulkUpdateBooks books w
    = (match first_fault (List.length books + 3) (faults w) with
       | Some e => Err e
       | None => Ok tt
       end, w1) /\
    txn w1 = None /\
    store w1 =
      match first_fault (List.length books + 3) (faults w) with
      | Some _ => store w
      | None => Sqlite.mkStore (replace_books books (Sqlite.rows (store w)))
                               (Sqlite.seq (store w))
      end.
Proof.
  intros Htx.
  replace (List.length books + 3)%nat with (2 + (List.length books + 1))%nat by lia.
  rewrite first_fault_add.
  unfold BulkUpdateBooks, BeginTx, PrepareContext, driver_call.
  destruct w as [st tx fs tr]. simpl in Htx. subst tx.
  cbn [faults tl txn store trace with_txn].
  change (Sqlite.parse bulkUpdateQuery) with (Some Sqlite.UpdateBookById).
  destruct fs as [|[e0|] [|[e1|] fs]];
    cbn [faults tl txn store trace with_txn first_fault skipn Nat.add];
    try (eexists; split; [reflexivity|]; split; reflexivity);
    apply transaction_body.
Qed.

(** C1: started outside a transaction, [BulkUpdateBooks] is all or nothing
    whatever the store does: if none of its driver calls (begin, prepare,
    one UPDATE per entity, commit) fails, it returns success and the title
    and has-sales flag of every entity have replaced those of the rows it
    names; if one of them fails, the error of the first failing call is
    returned and the table is exactly as it was before the call.  Either
    way no transaction is left open. *)
Theorem bulk_update_books_is_atomic (booksToUpdate : list Book) (w : World) :
  txn w = None ->
  exists w1,
    txn w1 = None /\
    match first_fault (List.length booksToUpdate + 3) (faults w) with
    | None =>
        BulkUpdateBooks booksToUpdate w = (Ok tt, w1) /\
        Sqlite.rows (store w1) = replace_books booksToUpdate (Sqlite.rows (store w))
    | Some e =>
        BulkUpdateBooks booksToUpdate w = (Err e, w1) /\
        store w1 = store w
    end.
Proof.
  intros Htx. destruct (BulkUpdateBooks_spec booksToUpdate w Htx) as [w1 [H1 [H2 H3]]].
  exists w1. split; [exact H2|].
  destruct (first_fault (List.length booksToUpdate + 3) (faults w)).
  - split; assumption.
  - split; [assumption|]. now rewrite H3.
Qed.

Lemma bulk_update_books_is_atomic_witness :
  exists w1,
    BulkUpdateBooks [mkBook 1 "A1" true; mkBook 2 "B2" true]
      (mkWorld (Sqlite.mkStore [mkBook 1 "Alpha" false; mkBook 2 "Beta" false] 2)
               None [None; None; None; Some (ErrStore 5)] []) = (Err (ErrStore 5), w1) /\
    store w1 = Sqlite.mkStore [mkBook 1 "Alpha" false; mkBook 2 "Beta" false] 2.
Proof.
  destruct (bulk_update_books_is_atomic [mkBook 1 "A1" true; mkBook 2 "B2" true]
              (mkWorld (Sqlite.mkStore [mkBook 1 "Alpha" false; mkBook 2 "Beta" false] 2)
                       None [None; None; None; Some (ErrStore 5)] []))
    as [w1 [_ H]].
  - reflexivity.
  - exists w1. exact H.
Defined.

(** ** float64 on the integers the handler meets *)

Lemma digits2_pos_size (p : positive) : digits2_pos p = Pos.size p.
Proof.
  induction p as [p IH|p IH|]; simpl; [now rewrite IH|now rewrite IH|reflexivity].
Qed.

(** A positive number of [d] binary digits lies in [2^(d-1), 2^d). *)
Lemma Zdigits2_bounds (p : positive) :
  2 ^ (Zdigits2 (Zpos p) - 1) <= Zpos p < 2 ^ Zdigits2 (Zpos p).
Proof.
  unfold Zdigits2. rewrite digits2_pos_size.
  pose proof (Pos.size_gt p) as Hgt. pose proof (Pos.size_le p) as Hle.
  apply Pos2Z.pos_lt_pos in Hgt. apply Pos2Z.pos_le_pos in Hle.
  rewrite Pos2Z.inj_pow in Hgt, Hle.
  change (Z.pos p~0) with (2 * Z.pos p) in Hle.
  assert (Hs : Z.pos (Pos.size p) = Z.succ (Z.pos (Pos.size p) - 1)) by lia.
  rewrite Hs in Hle. rewrite Z.pow_succ_r in Hle by lia.
  split; [lia|exact Hgt].
Qed.

Lemma Zdigits2_unique (p : positive) (k : Z) :
  2 ^ (k - 1) <= Zpos p < 2 ^ k -> Zdigits2 (Zpos p) = k.
Proof.
  intros [Hlo Hhi]. pose proof (Zdigits2_bounds p) as [Dlo Dhi].
  assert (Hd : 0 < Zdigits2 (Zpos p)) by (simpl; lia).
  assert (Hk : 0 < k).
  { destruct (Z_lt_le_dec 0 k) as [|Hk]; [assumption|]. exfalso.
    destruct (Z.eq_dec k 0) as [->|Hne].
    - simpl in Hhi. lia.
    - rewrite Z.pow_neg_r in Hhi by lia. lia. }
  destruct (Z.lt_trichotomy (Zdigits2 (Zpos p)) k) as [Hlt|[Heq|Hgt]]; [|exact Heq|].
  - assert (2 ^ Zdigits2 (Zpos p) <= 2 ^ (k - 1)) by (apply Z.pow_le_mono_r; lia). lia.
  - assert (2 ^ k <= 2 ^ (Zdigits2 (Zpos p) - 1)) by (apply Z.pow_le_mono_r; lia). lia.
Qed.

Lemma iter_xO_pow (p k : positive) : Zpos (Pos.iter xO p k) = Zpos p * 2 ^ Zpos k.
Proof.
  induction k as [|k IH] using Pos.peano_ind.
  - simpl. lia.
  - rewrite Pos.iter_succ. rewrite Pos2Z.inj_succ, Z.pow_succ_r by lia.
    change (Z.pos (Pos.iter xO p k)~0) with (2 * Z.pos (Pos.iter xO p k)).
    rewrite IH. ring.
Qed.

Lemma loc_of_record (m : Z) (l : location) :
  loc_of_shr_record (shr_record_of_loc m l) = l /\ shr_m (shr_record_of_loc m l) = m.
Proof.
  destruct l as [|[| |]]; split; reflexivity.
Qed.

Lemma fexp_normal (x : Z) : -1021 <= x -> fexp Float64.prec Float64.emax x = x - 53.
Proof.
  intros H. unfold fexp, emin, Float64.prec, Float64.emax. lia.
Qed.

(** The second stage of [binary_round_aux]: a rounded mantissa of 53 digits
    is kept, a carry to 2^53 is renormalised. *)
Lemma round_renormalise (r e : Z) :
  2 ^ 52 <= r <= 2 ^ 53 ->
  -1074 <= e <= 961 ->
  (let '(mrs, e') := shr_fexp Float64.prec Float64.emax r e loc_Exact in
   match shr_m mrs with
   | Z0 => S754_zero false
   | Zpos m => if e' <=? Float64.emax - Float64.prec
               then S754_finite false m e' else S754_infinity false
   | Zneg _ => S754_nan
   end)
  = if r <? 2 ^ 53 then S754_finite false (Z.to_pos r) e
    else S754_finite false (2 ^ 52) (e + 1).
Proof.
  intros Hr He. unfold shr_fexp.
  destruct (r <? 2 ^ 53) eqn:E.
  - apply Z.ltb_lt in E.
    destruct r as [|r'|r'] eqn:Er; try lia.
    rewrite (Zdigits2_unique r' 53) by (change (53 - 1) with 52; lia).
    rewrite fexp_normal by lia.
    replace (53 + e - 53 - e) with 0 by lia. cbn [shr shr_record_of_loc shr_m].
    replace (e <=? Float64.emax - Float64.prec) with true
      by (symmetry; apply Z.leb_le; unfold Float64.emax, Float64.prec; lia).
    reflexivity.
  - apply Z.ltb_ge in E.
    assert (Hr53 : r = 2 ^ 53) by lia.
    rewrite Hr53. change (Zdigits2 (2 ^ 53)) with 54.
    rewrite fexp_normal by lia.
    replace (54 + e - 53 - e) with 1 by lia.
    cbn [shr shr_record_of_loc iter_pos shr_1 shr_m].
    change (2 ^ 53) with (Z.pos (2 ^ 52)~0). cbn [shr_1 shr_m].
    replace (e + 1 <=? Float64.emax - Float64.prec) with true
      by (symmetry; apply Z.leb_le; unfold Float64.emax, Float64.prec; lia).
    reflexivity.
Qed.

(** Rounding a mantissa that already has 53 digits: it stays or goes one
    up, and stays when nothing was cut off. *)
Lemma round_53 (q : positive) (e : Z) (l : location) :
  Zdigits2 (Zpos q) = 53 ->
  -1074 <= e <= 960 ->
  exists r : Z,
    Zpos q <= r <= Zpos q + 1 /\
    (l = loc_Exact -> r = Zpos q) /\
    binary_round_aux Float64.prec Float64.emax false (Zpos q) e l =
    if r <? 2 ^ 53 then S754_finite false (Z.to_pos r) e
    else S754_finite false (2 ^ 52) (e + 1).
Proof.
  intros Hd He.
  pose proof (Zdigits2_bounds q) as Hb. rewrite Hd in Hb. change (53 - 1) with 52 in Hb.
  exists (round_nearest_even (Zpos q) l).
  assert (Hr : Zpos q <= round_nearest_even (Zpos q) l <= Zpos q + 1).
  { unfold round_nearest_even. destruct l as [|[| |]]; try lia.
    destruct (Z.even (Zpos q)); lia. }
  split; [exact Hr|]. split; [now intros ->|].
  unfold binary_round_aux, shr_fexp at 1. rewrite Hd.
  rewrite fexp_normal by lia.
  replace (53 + e - 53 - e) with 0 by lia. cbn [shr].
  destruct (loc_of_record (Zpos q) l) as [-> ->].
  apply round_renormalise; lia.
Qed.

(** Rounding a mantissa of 54 digits: the last digit is cut off; the result
    is the half or one more, one more when the digit was 1 and something had
    been cut off before, and the half itself when it is exact. *)
Lemma round_54 (q : positive) (e : Z) (l : location) :
  Zdigits2 (Zpos q) = 54 ->
  -1074 <= e <= 960 ->
  exists r : Z,
    Zpos q / 2 <= r <= Zpos q / 2 + 1 /\
    (Z.odd (Zpos q) = true -> l <> loc_Exact -> r = Zpos q / 2 + 1) /\
    (Z.odd (Zpos q) = false -> l = loc_Exact -> r = Zpos q / 2) /\
    binary_round_aux Float64.prec Float64.emax false (Zpos q) e l =
    if r <? 2 ^ 53 then S754_finite false (Z.to_pos r) (e + 1)
    else S754_finite false (2 ^ 52) (e + 2).
Proof.
  intros Hd He.
  pose proof (Zdigits2_bounds q) as Hb. rewrite Hd in Hb. change (54 - 1) with 53 in Hb.
  unfold binary_round_aux, shr_fexp at 1. rewrite Hd.
  rewrite fexp_normal by lia.
  replace (54 + e - 53 - e) with 1 by lia. cbn [shr iter_pos].
  assert (Hhalf : forall q' : positive, Z.pos q'~0 / 2 = Zpos q' /\ Z.pos q'~1 / 2 = Zpos q').
  { intros q'. split.
    - change (Z.pos q'~0) with (2 * Z.pos q'). rewrite Z.mul_comm. apply Z.div_mul. lia.
    - change (Z.pos q'~1) with (2 * Z.pos q' + 1).
      symmetry. apply (Z.div_unique_pos _ _ _ 1); lia. }
  destruct q as [q'|q'|]; [| |simpl in Hd; lia].
  - (* last digit 1 *)
    destruct (Hhalf q') as [_ H1]. rewrite H1.
    assert (Hq' : 2 ^ 52 <= Zpos q' < 2 ^ 53).
    { change (Z.pos q'~1) with (2 * Z.pos q' + 1) in Hb. lia. }
    destruct l as [|[| |]]; cbn [shr_record_of_loc shr_1 orb loc_of_shr_record shr_m
                                   round_nearest_even].
    + exists (if Z.even (Zpos q') then Zpos q' else Zpos q' + 1).
      split; [destruct (Z.even (Zpos q')); lia|].
      split; [intros _ H; contradiction|]. split; [discriminate|].
      replace (e + 2) with (e + 1 + 1) by lia.
      apply round_renormalise; [destruct (Z.even (Zpos q')); lia|lia].
    + exists (Zpos q' + 1). split; [lia|]. split; [reflexivity|]. split; [discriminate|].
      replace (e + 2) with (e + 1 + 1) by lia. apply round_renormalise; lia.
    + exists (Zpos q' + 1). split; [lia|]. split; [reflexivity|]. split; [discriminate|].
      replace (e + 2) with (e + 1 + 1) by lia. apply round_renormalise; lia.
    + exists (Zpos q' + 1). split; [lia|]. split; [reflexivity|]. split; [discriminate|].
      replace (e + 2) with (e + 1 + 1) by lia. apply round_renormalise; lia.
  - (* last digit 0 *)
    destruct (Hhalf q') as [H0 _]. rewrite H0.
    assert (Hq' : 2 ^ 52 <= Zpos q' < 2 ^ 53).
    { change (Z.pos q'~0) with (2 * Z.pos q') in Hb. lia. }
    exists (Zpos q'). split; [lia|]. split; [discriminate|]. split; [reflexivity|].
    replace (e + 2) with (e + 1 + 1) by lia.
    destruct l as [|[| |]]; cbn [shr_record_of_loc shr_1 orb loc_of_shr_record shr_m
                                   round_nearest_even];
      apply round_renormalise; lia.
Qed.

Lemma scaled_bounds (p : positive) :
  Zdigits2 (Zpos p) <= 53 ->
  2 ^ 52 <= Zpos p * 2 ^ (53 - Zdigits2 (Zpos p)) < 2 ^ 53.
Proof.
  intros Hd. pose proof (Zdigits2_bounds p) as [Hlo Hhi].
  set (d := Zdigits2 (Zpos p)) in *.
  assert (Hd1 : 1 <= d) by (unfold d; simpl; lia).
  assert (Hpos : 0 < 2 ^ (53 - d)) by (apply Z.pow_pos_nonneg; lia).
  replace (2 ^ 52) with (2 ^ (d - 1) * 2 ^ (53 - d)).
  2:{ rewrite <- Z.pow_add_r by lia. f_equal. lia. }
  replace (2 ^ 53) with (2 ^ d * 2 ^ (53 - d)).
  2:{ rewrite <- Z.pow_add_r by lia. f_equal. lia. }
  split.
  - apply Z.mul_le_mono_nonneg_r; lia.
  - apply Z.mul_lt_mono_pos_r; lia.
Qed.

(** [float64(n)] is exact below 2^53: the mantissa is [n] shifted up to 53
    digits. *)
Lemma of_int_exact (p : positive) :
  Zpos p < 2 ^ 53 ->
  Float64.of_int (Zpos p) =
  S754_finite false (Z.to_pos (Zpos p * 2 ^ (53 - Zdigits2 (Zpos p))))
              (Zdigits2 (Zpos p) - 53).
Proof.
  intros Hn. pose proof (Zdigits2_bounds p) as [Hlo Hhi].
  assert (Hd : Zdigits2 (Zpos p) <= 53).
  { destruct (Z_le_gt_dec (Zdigits2 (Zpos p)) 53) as [|Hgt]; [assumption|].
    assert (2 ^ 53 <= 2 ^ (Zdigits2 (Zpos p) - 1)) by (apply Z.pow_le_mono_r; lia). lia. }
  assert (Hd1 : 1 <= Zdigits2 (Zpos p)) by (simpl; lia).
  pose proof (scaled_bounds p Hd) as Hs.
  unfold Float64.of_int, binary_normalize, binary_round, shl_align.
  change (Z.pos (digits2_pos p)) with (Zdigits2 (Zpos p)).
  rewrite fexp_normal by lia. rewrite Z.add_0_r, Z.sub_0_r.
  set (d := Zdigits2 (Zpos p)) in *.
  destruct (d - 53) as [|k|k] eqn:Ek; try lia.
  - (* 53 digits already *)
    assert (d = 53) by lia.
    destruct (round_53 p 0 loc_Exact) as [r [_ [Hr ->]]]; [assumption|lia|].
    rewrite (Hr eq_refl). replace (53 - d) with 0 by lia.
    rewrite Z.mul_1_r. simpl Z.to_pos.
    destruct (Z.pos p <? 2 ^ 53) eqn:E; [reflexivity|apply Z.ltb_ge in E; lia].
  - assert (Hk : 53 - d = Zpos k) by lia.
    rewrite Hk in *.
    assert (Hm : Zpos (Pos.iter xO p k) = Zpos p * 2 ^ Zpos k) by apply iter_xO_pow.
    destruct (round_53 (Pos.iter xO p k) (Z.neg k) loc_Exact) as [r [_ [Hr ->]]].
    + apply Zdigits2_unique. change (53 - 1) with 52. lia.
    + lia.
    + rewrite (Hr eq_refl).
      destruct (Z.pos (Pos.iter xO p k) <? 2 ^ 53) eqn:E; [|apply Z.ltb_ge in E; lia].
      rewrite <- Hm. reflexivity.
Qed.

(** [int(float64(k))] gives [k] back below 2^53. *)
Lemma to_int_of_int (k : Z) :
  0 < k < 2 ^ 53 -> Float64.to_int (Float64.of_int k) = k.
Proof.
  intros [Hk0 Hk]. destruct k as [|p|p]; try lia.
  rewrite (of_int_exact p Hk).
  pose proof (Zdigits2_bounds p) as [Hlo Hhi].
  assert (Hd : Zdigits2 (Zpos p) <= 53).
  { destruct (Z_le_gt_dec (Zdigits2 (Zpos p)) 53) as [|Hgt]; [assumption|].
    assert (2 ^ 53 <= 2 ^ (Zdigits2 (Zpos p) - 1)) by (apply Z.pow_le_mono_r; lia). lia. }
  pose proof (scaled_bounds p Hd) as Hs.
  set (d := Zdigits2 (Zpos p)) in *.
  assert (Hpow : 0 < 2 ^ (53 - d)) by (apply Z.pow_pos_nonneg; lia).
  unfold Float64.to_int, cond_Zopp.
  rewrite Z2Pos.id by lia.
  assert (Hz : (if 0 <=? d - 53 then Zpos p * 2 ^ (53 - d) * 2 ^ (d - 53)
                else Z.quot (Zpos p * 2 ^ (53 - d)) (2 ^ (- (d - 53)))) = Zpos p).
  { destruct (0 <=? d - 53) eqn:E.
    - apply Z.leb_le in E. replace (53 - d) with 0 by lia. replace (d - 53) with 0 by lia.
      simpl. lia.
    - replace (- (d - 53)) with (53 - d) by lia. apply Z.quot_mul. lia. }
  rewrite Hz.
  replace ((GoInt.MinInt <=? Zpos p) && (Zpos p <=? GoInt.MaxInt)) with true; [reflexivity|].
  symmetry. apply andb_true_iff. unfold GoInt.MinInt, GoInt.MaxInt.
  split; apply Z.leb_le; lia.
Qed.

(** [int(math.Ceil(x))] for a positive [x] with a fraction part. *)
Lemma to_int_Ceil (m : positive) (e k : Z) :
  e < 0 ->
  k = - ((- Zpos m) / 2 ^ (- e)) ->
  0 < k < 2 ^ 53 ->
  Float64.to_int (Float64.Ceil (S754_finite false m e)) = k.
Proof.
  intros He Hk Hr. unfold Float64.Ceil, cond_Zopp.
  replace (0 <=? e) with false by (symmetry; apply Z.leb_gt; lia).
  rewrite <- Hk. destruct k as [|p|p]; try lia.
  change (binary_normalize Float64.prec Float64.emax (Z.pos p) 0 false)
    with (Float64.of_int (Zpos p)).
  now apply to_int_of_int.
Qed.

Lemma div_eucl_pair (a b : Z) : Z.div_eucl a b = (a / b, a mod b).
Proof.
  unfold Z.div, Z.modulo. now destruct (Z.div_eucl a b).
Qed.

(** Dividing a normal number by 5.0: the quotient of the mantissas is taken
    with three more digits and handed to the rounding, together with
    whether the division was exact. *)
Lemma div_by_five (m : positive) (e : Z) :
  Zdigits2 (Zpos m) = 53 ->
  -1000 <= e <= 0 ->
  exists l : location,
    (l = loc_Exact <-> (Zpos m * 8) mod 5 = 0) /\
    Float64.div (S754_finite false m e) (Float64.of_int pageSize) =
    binary_round_aux Float64.prec Float64.emax false ((Zpos m * 8) / 5) (e - 3) l.
Proof.
  intros Hd He.
  change (Float64.of_int pageSize) with (S754_finite false 5629499534213120 (-50)).
  unfold Float64.div, SFdiv, SFdiv_core_binary. cbv zeta.
  rewrite Hd. change (Zdigits2 (Z.pos 5629499534213120)) with 53.
  rewrite fexp_normal by lia.
  replace (Z.min (53 + e - (53 + -50) - 53) (e - -50)) with (e - 3) by lia.
  replace (e - -50 - (e - 3)) with 53 by lia. cbv iota.
  rewrite Z.shiftl_mul_pow2 by lia.
  rewrite div_eucl_pair.
  replace (Z.pos m * 2 ^ 53) with ((Z.pos m * 8) * 2 ^ 50) by (change (2 ^ 53) with (8 * 2 ^ 50); ring).
  change (Z.pos 5629499534213120) with (5 * 2 ^ 50).
  rewrite Z.div_mul_cancel_r by lia.
  rewrite Z.mul_mod_distr_r by lia.
  cbn [xorb].
  exists (new_location (5 * 2 ^ 50) ((Z.pos m * 8) mod 5 * 2 ^ 50)).
  split; [|reflexivity].
  unfold new_location. change (Z.even (5 * 2 ^ 50)) with true. cbv iota.
  unfold new_location_even.
  destruct ((Z.pos m * 8) mod 5 * 2 ^ 50 =? 0) eqn:E.
  - apply Z.eqb_eq in E. split; [intros _|reflexivity]. lia.
  - apply Z.eqb_neq in E. split; [discriminate|]. intros H. rewrite H in E. lia.
Qed.

(** *** The arithmetic behind the ceiling *)

Lemma ceil_div_5 (n : Z) : - ((- n) / 5) = (n + 4) / 5.
Proof.
  Z.div_mod_to_equations. lia.
Qed.

(** Where the quotient of [n * T] by 5 lies between the multiples of [T]
    when [n] is not a multiple of 5. *)
Lemma quotient_layout (n T : Z) :
  0 < n -> 8 <= T -> (n * T) mod 5 <> 0 ->
  n / 5 * T + 1 <= n * T / 5 <= n / 5 * T + T - 2 /\ n mod 5 <> 0.
Proof.
  intros Hn HT Hrho.
  pose proof (Z.div_mod n 5 ltac:(lia)) as Hdm.
  pose proof (Z.mod_pos_bound n 5 ltac:(lia)) as Hb.
  set (k := n / 5) in *. set (t := n mod 5) in *.
  assert (Ht : t <> 0).
  { intros Ht0. apply Hrho. rewrite Hdm, Ht0, Z.add_0_r.
    replace (5 * k * T) with (k * T * 5) by ring. apply Z.mod_mul. lia. }
  split; [|exact Ht].
  replace (n * T) with (k * T * 5 + t * T) by (rewrite Hdm; ring).
  rewrite Z.div_add_l by lia.
  assert (Hu : 1 <= t * T / 5 <= T - 2).
  { assert (Hc : t = 1 \/ t = 2 \/ t = 3 \/ t = 4) by lia.
    destruct Hc as [-> | [-> | [-> | ->]]]; Z.div_mod_to_equations; lia. }
  lia.
Qed.

Lemma ceil_between (k T R : Z) :
  0 < T -> k * T < R <= (k + 1) * T -> - ((- R) / T) = k + 1.
Proof.
  intros HT [Hlo Hhi].
  assert (H : (- R) / T = - (k + 1)); [|lia].
  symmetry. apply (Z.div_unique_pos _ _ _ ((k + 1) * T - R)); lia.
Qed.

(** A rounded quotient [R] in units of 1/T has the ceiling of [n / 5]: when
    the division was exact it is the quotient, otherwise it lies strictly
    above the multiple of [T] below it and not above the next. *)
Lemma ceil_of_rounded (n T R : Z) :
  0 < n -> 8 <= T ->
  ((n * T) mod 5 = 0 -> R = n * T / 5) ->
  ((n * T) mod 5 <> 0 -> n * T / 5 <= R <= n * T / 5 + 2) ->
  - ((- R) / T) = (n + 4) / 5.
Proof.
  intros Hn HT Hex Hin.
  destruct (Z.eq_dec ((n * T) mod 5) 0) as [E|E].
  - rewrite (Hex E).
    pose proof (Z.div_mod (n * T) 5 ltac:(lia)) as Hdm. rewrite E, Z.add_0_r in Hdm.
    rewrite <- ceil_div_5. f_equal.
    rewrite <- (Z.div_mul_cancel_l (- (n * T / 5)) T 5) by lia.
    replace (5 * - (n * T / 5)) with (- n * T) by lia.
    rewrite Z.div_mul_cancel_r by lia. reflexivity.
  - destruct (quotient_layout n T Hn HT E) as [Hq Ht].
    specialize (Hin E).
    rewrite (ceil_between (n / 5) T R); [|lia|lia].
    Z.div_mod_to_equations. lia.
Qed.

Lemma ceil_rescale (m j T : Z) :
  0 < j -> 0 < T -> - ((- (m * j)) / (T * j)) = - ((- m) / T).
Proof.
  intros Hj HT. f_equal.
  replace (- (m * j)) with ((- m) * j) by ring.
  apply Z.div_mul_cancel_r; lia.
Qed.

(** Below 2^53 the floating-point computation of the handler gives the
    exact ceiling of [totalCount / 5]. *)
Lemma totalPages_exact (n : Z) :
  0 <= n < 2 ^ 53 -> totalPages n = (n + 4) / 5.
Proof.
  intros [H0 Hn]. destruct n as [|p|p]; [reflexivity| |lia].
  unfold totalPages. rewrite (of_int_exact p Hn).
  pose proof (Zdigits2_bounds p) as [Hlo Hhi].
  assert (Hd : Zdigits2 (Zpos p) <= 53).
  { destruct (Z_le_gt_dec (Zdigits2 (Zpos p)) 53) as [|Hgt]; [assumption|].
    assert (2 ^ 53 <= 2 ^ (Zdigits2 (Zpos p) - 1)) by (apply Z.pow_le_mono_r; lia). lia. }
  assert (Hd1 : 1 <= Zdigits2 (Zpos p)) by (simpl; lia).
  pose proof (scaled_bounds p Hd) as Hs.
  set (d := Zdigits2 (Zpos p)) in *.
  set (m := Z.to_pos (Zpos p * 2 ^ (53 - d))).
  assert (Hm : Zpos m = Zpos p * 2 ^ (53 - d)) by (unfold m; rewrite Z2Pos.id; lia).
  destruct (div_by_five m (d - 53)) as [l [Hl ->]].
  { apply Zdigits2_unique. rewrite Hm. change (53 - 1) with 52. lia. }
  { lia. }
  set (T := 2 ^ (56 - d)).
  assert (HT : Zpos m * 8 = Zpos p * T).
  { rewrite Hm. unfold T. replace (56 - d) with (53 - d + 3) by lia.
    rewrite Z.pow_add_r by lia. change (2 ^ 3) with 8. ring. }
  assert (HT8 : 8 <= T).
  { unfold T. replace (56 - d) with (53 - d + 3) by lia.
    rewrite Z.pow_add_r by lia. change (2 ^ 3) with 8.
    assert (0 < 2 ^ (53 - d)) by (apply Z.pow_pos_nonneg; lia). lia. }
  assert (HTe : T = 2 ^ (55 - d) * 2 /\ 0 < 2 ^ (55 - d)).
  { unfold T. replace (56 - d) with (55 - d + 1) by lia.
    rewrite Z.pow_add_r by lia. split; [reflexivity|apply Z.pow_pos_nonneg; lia]. }
  assert (HTq : T = 2 ^ (54 - d) * 4 /\ 0 < 2 ^ (54 - d)).
  { unfold T. replace (56 - d) with (54 - d + 2) by lia.
    rewrite Z.pow_add_r by lia. split; [reflexivity|apply Z.pow_pos_nonneg; lia]. }
  rewrite HT in *. replace (d - 53 - 3) with (d - 56) by lia.
  assert (Hq : 2 ^ 52 <= Zpos p * T / 5 < 2 ^ 54).
  { split.
    - apply Z.div_le_lower_bound; lia.
    - apply Z.div_lt_upper_bound; lia. }
  assert (Hk : 0 < (Zpos p + 4) / 5 < 2 ^ 53) by (Z.div_mod_to_equations; lia).
  remember (Zpos p * T / 5) as q eqn:Eq. destruct q as [|q|q]; try lia.
  destruct (Z_lt_le_dec (Zpos q) (2 ^ 53)) as [Hq53|Hq54].
  - (* the quotient has 53 digits *)
    destruct (round_53 q (d - 56) l) as [r [Hr [Hex ->]]].
    { apply Zdigits2_unique. change (53 - 1) with 52. lia. }
    { lia. }
    assert (HR : - ((- r) / T) = (Zpos p + 4) / 5).
    { apply ceil_of_rounded; [lia|lia| |].
      - intros E. rewrite <- Eq. apply Hex. now apply Hl.
      - intros _. rewrite <- Eq. lia. }
    destruct (r <? 2 ^ 53) eqn:E.
    + apply to_int_Ceil; [lia| |exact Hk].
      rewrite Z2Pos.id by lia. replace (- (d - 56)) with (56 - d) by lia.
      fold T. now rewrite HR.
    + apply Z.ltb_ge in E. assert (Hr53 : r = 2 ^ 53) by lia.
      apply to_int_Ceil; [lia| |exact Hk].
      replace (- (d - 56 + 1)) with (55 - d) by lia.
      rewrite <- HR, Hr53. destruct HTe as [-> HTp].
      change (2 ^ 53) with (Z.pos (2 ^ 52) * 2).
      apply ceil_rescale; lia.
  - (* the quotient has 54 digits *)
    destruct (round_54 q (d - 56) l) as [r [Hr [Hodd [Hev ->]]]].
    { apply Zdigits2_unique. change (54 - 1) with 53. lia. }
    { lia. }
    pose proof (Z.div_mod (Zpos q) 2 ltac:(lia)) as Hq2.
    assert (Hh : 2 ^ 52 <= Zpos q / 2 < 2 ^ 53) by (Z.div_mod_to_equations; lia).
    pose proof (Zmod_odd (Zpos q)) as Hmo.
    assert (HR : - ((- (r * 2)) / T) = (Zpos p + 4) / 5).
    { apply ceil_of_rounded; [lia|lia| |].
      - intros E. rewrite <- Eq.
        assert (Hev5 : 5 * Zpos q = Zpos p * T).
        { pose proof (Z.div_mod (Zpos p * T) 5 ltac:(lia)) as Hdm.
          rewrite E, <- Eq in Hdm. lia. }
        assert (Hqe : Z.odd (Zpos q) = false).
        { destruct (Z.odd (Zpos q)) eqn:Eo; [|reflexivity].
          destruct HTe as [HTe _]. rewrite HTe in Hev5. lia. }
        rewrite Hqe in Hmo. rewrite (Hev Hqe (proj2 Hl E)). lia.
      - intros E. rewrite <- Eq.
        destruct (Z.odd (Zpos q)) eqn:Eo.
        + rewrite Hodd; [lia|reflexivity|]. intros Hc. apply E. now apply Hl.
        + lia. }
    destruct (r <? 2 ^ 53) eqn:E.
    + apply Z.ltb_lt in E.
      apply to_int_Ceil; [lia| |exact Hk].
      rewrite Z2Pos.id by lia. replace (- (d - 56 + 1)) with (55 - d) by lia.
      rewrite <- HR. destruct HTe as [-> HTp].
      apply ceil_rescale; lia.
    + apply Z.ltb_ge in E. assert (Hr53 : r = 2 ^ 53) by lia.
      apply to_int_Ceil; [lia| |exact Hk].
      replace (- (d - 56 + 2)) with (54 - d) by lia.
      rewrite <- HR, Hr53. destruct HTq as [-> HTp].
      change (2 ^ 53 * 2) with (Z.pos (2 ^ 52) * 4).
      apply ceil_rescale; lia.
Qed.

(** ** Pagination controls *)

Lemma wrap_in_range (z : Z) : GoInt.in_range z -> GoInt.wrap z = z.
Proof.
  unfold GoInt.in_range, GoInt.MinInt, GoInt.MaxInt, GoInt.wrap. intros H.
  rewrite Z.mod_small; lia.
Qed.

(** C6, as the code has it: for a total count from 0 up to (not including)
    2^53, the handler's page size 5 and a current page from 1 up to (not
    including) the largest [int], the total number of pages is the ceiling
    of [totalCount / 5], has-prev holds exactly when the page is above 1,
    has-next exactly when it is below the number of pages, and the previous
    and next page numbers are [page - 1] and [page + 1], not clamped; for a
    total of 12 on page 2 this gives 3 pages, has-prev, has-next, 1 and 3. *)
Theorem pagination_metadata (totalCount page : Z) :
  0 <= totalCount < 2 ^ 53 ->
  1 <= page < GoInt.MaxInt ->
  CurrentPage (pagination page totalCount) = page /\
  TotalPages (pagination page totalCount) = ceil_div totalCount pageSize /\
  (HasPrev (pagination page totalCount) = true <-> 1 < page) /\
  (HasNext (pagination page totalCount) = true
   <-> page < TotalPages (pagination page totalCount)) /\
  PrevPage (pagination page totalCount) = page - 1 /\
  NextPage (pagination page totalCount) = page + 1 /\
  pagination 2 12 = mkPagination 2 3 true true 1 3.
Proof.
  intros Hc Hp. unfold pagination. cbn [CurrentPage TotalPages HasPrev HasNext PrevPage NextPage].
  unfold GoInt.MaxInt in Hp.
  split; [reflexivity|]. split.
  { rewrite (totalPages_exact _ Hc). unfold ceil_div, pageSize. symmetry. apply ceil_div_5. }
  split; [apply Z.ltb_lt|]. split; [apply Z.ltb_lt|].
  split; [|split].
  - apply wrap_in_range. unfold GoInt.in_range, GoInt.MinInt, GoInt.MaxInt. lia.
  - apply wrap_in_range. unfold GoInt.in_range, GoInt.MinInt, GoInt.MaxInt. lia.
  - reflexivity.
Qed.

Lemma pagination_metadata_witness :
  TotalPages (pagination 2 12) = 3 /\
  (HasNext (pagination 2 12) = true <-> 2 < TotalPages (pagination 2 12)) /\
  NextPage (pagination 2 12) = 3.
Proof.
  destruct (pagination_metadata 12 2) as [_ [H1 [_ [H2 [_ [H3 _]]]]]].
  - split; [lia|reflexivity].
  - split; [lia|reflexivity].
  - split; [rewrite H1; reflexivity|]. split; [exact H2|exact H3].
Defined.

(** C6 as worded fails on the code.  The division is done in float64: for
    the total count 2^53 + 3, a multiple of 5, the conversion rounds up to
    2^53 + 4 and the handler finds one page more than the ceiling.  The
    next page number is computed in [int]: on the largest page number it
    wraps around to the least [int]. *)
Lemma pagination_metadata_counterexample :
  (0 <= 9007199254740995 /\ 0 < pageSize /\ 1 <= 1 /\
   ceil_div 9007199254740995 pageSize = 1801439850948199 /\
   TotalPages (pagination 1 9007199254740995) = 1801439850948200 /\
   TotalPages (pagination 1 9007199254740995) <> ceil_div 9007199254740995 pageSize) /\
  (0 <= 12 /\ 1 <= 9223372036854775807 /\ GoInt.in_range 9223372036854775807 /\
   NextPage (pagination 9223372036854775807 12) = -9223372036854775808 /\
   NextPage (pagination 9223372036854775807 12) <> 9223372036854775807 + 1).
Proof.
  split.
  - repeat split; try lia; vm_compute; congruence.
  - repeat split; try lia; vm_compute; congruence.
Qed.

(** C10: with no matching row the pagination computation is defined and
    gives zero pages, no previous and no next page (page size 5, current
    page 1); the number of pages is zero on every page. *)
Theorem pagination_of_empty_result (page : Z) :
  pageSize = 5 /\
  pagination 1 0 = mkPagination 1 0 false false 0 2 /\
  TotalPages (pagination 1 0) = 0 /\
  HasPrev (pagination 1 0) = false /\
  HasNext (pagination 1 0) = false /\
  TotalPages (pagination page 0) = 0.
Proof.
  repeat split.
Qed.

(** * Further properties of the repository *)

(** ** Looking a book up *)

Lemma filter_id_unique (rows : list Book) (b : Book) :
  NoDup (map ID rows) -> In b rows ->
  filter (fun r => ID r =? ID b) rows = [b].
Proof.
  induction rows as [|a rows IH]; intros Hnd Hin; [contradiction|].
  simpl in Hnd. inversion Hnd as [|x l Hnotin Hnd']; subst.
  destruct Hin as [->|Hin].
  - simpl. rewrite Z.eqb_refl. f_equal. apply filter_none.
    intros r Hr. apply Z.eqb_neq. intros E. apply Hnotin. rewrite <- E.
    now apply in_map.
  - simpl. destruct (ID a =? ID b) eqn:E.
    + apply Z.eqb_eq in E. exfalso. apply Hnotin. rewrite E. now apply in_map.
    + now apply IH.
Qed.

Lemma GetBook_filter (id : Z) (w : World) :
  quiet 1 (faults w) = true ->
  GetBook id w =
  (RowScan scan_book
     (Ok (map Sqlite.row_of_book (filter (fun b => ID b =? id) (Sqlite.rows (store w))))),
   mkWorld (store w) (txn w) (tl (faults w))
     (trace w ++ [CallQuery "SELECT id, title, has_sales FROM books WHERE id = ?" [VInt id]])).
Proof.
  intros Hq. unfold GetBook.
  erewrite QueryRowContext_runs; [| exact Hq | reflexivity | reflexivity | reflexivity].
  cbn [rows_of].
  destruct (filter (fun b => ID b =? id) (Sqlite.rows (store w))) as [|[i t h] l];
    reflexivity.
Qed.

(** X1: when no row has the identifier, [GetBook] answers [sql.ErrNoRows]
    and the table is as before. *)
Theorem get_book_missing (id : Z) (w : World) :
  quiet 1 (faults w) = true ->
  (forall r, In r (Sqlite.rows (store w)) -> ID r <> id) ->
  exists w1, GetBook id w = (Err ErrNoRows, w1) /\ store w1 = store w.
Proof.
  intros Hq Habs. rewrite (GetBook_filter _ _ Hq).
  rewrite filter_none.
  - eexists. split; reflexivity.
  - intros r Hr. apply Z.eqb_neq. now apply Habs.
Qed.

Lemma get_book_missing_witness :
  exists w1,
    GetBook 8 (mkWorld (Sqlite.mkStore [mkBook 1 "Alpha" true; mkBook 7 "Beta" false] 7)
                       None [] []) = (Err ErrNoRows, w1).
Proof.
  destruct (get_book_missing 8
              (mkWorld (Sqlite.mkStore [mkBook 1 "Alpha" true; mkBook 7 "Beta" false] 7)
                       None [] [])) as [w1 [H _]].
  - reflexivity.
  - simpl. intros r [E|[E|[]]]; subst r; simpl; discriminate.
  - exists w1. exact H.
Defined.

(** X2: with unique identifiers, [GetBook] on the identifier of a row of the
    table returns exactly that row, and the table is as before. *)
Theorem get_book_found (b : Book) (w : World) :
  quiet 1 (faults w) = true ->
  NoDup (map ID (Sqlite.rows (store w))) ->
  In b (Sqlite.rows (store w)) ->
  exists w1, GetBook (ID b) w = (Ok b, w1) /\ store w1 = store w.
Proof.
  intros Hq Hnd Hin. rewrite (GetBook_filter _ _ Hq).
  rewrite (filter_id_unique _ _ Hnd Hin). destruct b as [i t h].
  eexists. split; reflexivity.
Qed.

Lemma get_book_found_witness :
  exists w1,
    GetBook 7 (mkWorld (Sqlite.mkStore [mkBook 1 "Alpha" true; mkBook 7 "Beta" false] 7)
                       None [] []) = (Ok (mkBook 7 "Beta" false), w1).
Proof.
  destruct (get_book_found (mkBook 7 "Beta" false)
              (mkWorld (Sqlite.mkStore [mkBook 1 "Alpha" true; mkBook 7 "Beta" false] 7)
                       None [] [])) as [w1 [H _]].
  - reflexivity.
  - simpl. repeat constructor; simpl; intuition discriminate.
  - simpl. auto.
  - exists w1. exact H.
Defined.

(** ** When the store fails *)

Lemma ExecContext_fails (q : string) (a : list Value) (w : World)
      (e : Error) (f : list (option Error)) :
  faults w = Some e :: f ->
  ExecContext q a w = (Err e, mkWorld (store w) (txn w) f (trace w ++ [CallExec q a])).
Proof.
  intros Hf. unfold ExecContext, driver_call. rewrite Hf. reflexivity.
Qed.

Lemma QueryRowContext_fails (q : string) (a : list Value) (w : World)
      (e : Error) (f : list (option Error)) :
  faults w = Some e :: f ->
  QueryRowContext q a w = (Err e, mkWorld (store w) (txn w) f (trace w ++ [CallQuery q a])).
Proof.
  intros Hf. unfold QueryRowContext, driver_call. rewrite Hf. reflexivity.
Qed.

(** A query the driver refuses: it never starts. *)
Lemma QueryContext_fails (q : string) (a : list Value) (w : World)
      (e : Error) (f : list (option Error)) :
  faults w = Some e :: f ->
  (forall n code, e <> ErrStep n code) ->
  QueryContext q a w = (Err e, mkWorld (store w) (txn w) f (trace w ++ [CallQuery q a])).
Proof.
  intros Hf He. unfold QueryContext, driver_call. rewrite Hf.
  destruct e; try reflexivity. exfalso. now apply (He n code).
Qed.

(** A query that starts and fails while its rows are stepped through: the
    cursor hands out the rows before the failure and keeps the error. *)
Lemma QueryContext_breaks (q : string) (a : list Value) (w : World)
      (n code : nat) (f : list (option Error))
      (st : Sqlite.Stmt) (o : Sqlite.Outcome) (s' : Sqlite.Store) :
  faults w = Some (ErrStep n code) :: f ->
  Sqlite.prepare q = Ok st ->
  List.length a = Sqlite.num_params st ->
  Sqlite.run st a (store w) = Ok (o, s') ->
  QueryContext q a w =
  (Ok (mkRows (firstn n (rows_of o))
              (if (n <=? List.length (rows_of o))%nat then Some (ErrStore code) else None)),
   mkWorld s' (txn w) f (trace w ++ [CallQuery q a])).
Proof.
  intros Hf Hp Hn Hr. unfold QueryContext, driver_call. rewrite Hf. cbn [tl].
  erewrite statement_runs; [reflexivity|exact Hp|exact Hn|exact Hr].
Qed.

(** X3: when the driver call of a single-statement operation fails, the
    operation hands the driver's error to its caller unchanged and the
    table is as before; this holds for [GetBook], [UpdateBook],
    [CreateBook], and for [DeleteBooks] and [BulkUpdateBooksSalesStatus] on
    a non-empty id list. *)
Theorem single_statement_failure_propagates
    (e : Error) (f : list (option Error)) (id : Z) (book : Book)
    (ids : list Z) (status : bool) (w : World) :
  faults w = Some e :: f ->
  ids <> [] ->
  (exists w1, GetBook id w = (Err e, w1) /\ store w1 = store w) /\
  (exists w1, UpdateBook book w = (Err e, w1) /\ store w1 = store w) /\
  (exists w1, CreateBook book w = (Err e, w1) /\ store w1 = store w) /\
  (exists w1, DeleteBooks ids w = (Err e, w1) /\ store w1 = store w) /\
  (exists w1, BulkUpdateBooksSalesStatus ids status w = (Err e, w1) /\ store w1 = store w).
Proof.
  intros Hf Hne.
  assert (Hlen : Nat.eqb (List.length ids) 0 = false).
  { destruct ids; [contradiction|reflexivity]. }
  repeat split.
  - unfold GetBook. rewrite (QueryRowContext_fails _ _ _ _ _ Hf).
    eexists. split; reflexivity.
  - unfold UpdateBook. rewrite (ExecContext_fails _ _ _ _ _ Hf).
    eexists. split; reflexivity.
  - unfold CreateBook. rewrite (ExecContext_fails _ _ _ _ _ Hf).
    eexists. split; reflexivity.
  - unfold DeleteBooks. rewrite Hlen, (ExecContext_fails _ _ _ _ _ Hf).
    eexists. split; reflexivity.
  - unfold BulkUpdateBooksSalesStatus. rewrite Hlen, (ExecContext_fails _ _ _ _ _ Hf).
    eexists. split; reflexivity.
Qed.

Lemma single_statement_failure_propagates_witness :
  exists w1,
    DeleteBooks [1]
      (mkWorld (Sqlite.mkStore [mkBook 1 "Alpha" true] 1) None [Some (ErrStore 5)] [])
    = (Err (ErrStore 5), w1) /\
    store w1 = Sqlite.mkStore [mkBook 1 "Alpha" true] 1.
Proof.
  destruct (single_statement_failure_propagates (ErrStore 5) [] 1 (mkBook 1 "A" true) [1] true
              (mkWorld (Sqlite.mkStore [mkBook 1 "Alpha" true] 1) None [Some (ErrStore 5)] []))
    as [_ [_ [_ [H _]]]].
  - reflexivity.
  - discriminate.
  - exact H.
Defined.

Lemma count_runs (search filter : string) (w : World) :
  quiet 1 (faults w) = true ->
  QueryRowContext (countQuery search filter) (args search) w =
  (Ok [[VInt (Z.of_nat (List.length (matching search filter (Sqlite.rows (store w)))))]],
   mkWorld (store w) (txn w) (tl (faults w))
           (trace w ++ [CallQuery (countQuery search filter) (args search)])).
Proof.
  intros Hq.
  destruct (where_is_spec_matches search filter [])
    as [cl [g [_ [_ [Hn [Hb [Hg [Hpc _]]]]]]]].
  rewrite app_nil_r in Hb.
  erewrite QueryRowContext_runs; [| exact Hq | exact Hpc | exact Hn | ].
  2:{ cbn [Sqlite.run]. rewrite Hb. reflexivity. }
  cbn [rows_of]. unfold matching, Sqlite.count_rows.
  rewrite (filter_ext _ _ Hg). reflexivity.
Qed.

Lemma scan_rows_firstn (n : nat) (l : list Book) :
  scan_rows (firstn n (map Sqlite.row_of_book l)) [] = Ok (firstn n l).
Proof.
  rewrite firstn_map. apply (scan_rows_books (firstn n l) []).
Qed.

(** The SELECT starts and the driver fails at the step after the [n]-th
    row: the loop ends there and the books read so far are returned. *)
Lemma ListBooks_breaks (limit offset : Z) (search filter : string) (w : World)
      (n code : nat) (f : list (option Error)) :
  faults w = None :: Some (ErrStep n code) :: f ->
  ListBooks limit offset search filter w =
  (Ok (mkPaginatedBooks
         (firstn n (Sqlite.limit_offset limit offset
            (Sqlite.order_by_id (matching search filter (Sqlite.rows (store w))))))
         (Z.of_nat (List.length (matching search filter (Sqlite.rows (store w)))))),
   mkWorld (store w) (txn w) f
           (trace w ++ [CallQuery (countQuery search filter) (args search);
                        CallQuery (listQuery search filter) (pagedArgs limit offset search)])).
Proof.
  intros Hf.
  destruct (where_is_spec_matches search filter [VInt limit; VInt offset])
    as [cl [g [_ [_ [Hn [Hb [Hg [_ Hpl]]]]]]]].
  unfold ListBooks. rewrite count_runs by (rewrite Hf; reflexivity).
  cbn [RowScan scan_int]. rewrite Hf. cbn [tl].
  erewrite QueryContext_breaks; [| reflexivity | exact Hpl | | ].
  3:{ cbn [Sqlite.run store]. unfold pagedArgs. rewrite Hb. reflexivity. }
  2:{ unfold pagedArgs. rewrite length_app, Hn. reflexivity. }
  cbn [rows_of pending]. rewrite scan_rows_firstn.
  cbn [store txn trace]. unfold matching.
  rewrite (filter_ext _ _ Hg). rewrite <- app_assoc. reflexivity.
Qed.

(** The COUNT runs and the driver refuses the SELECT. *)
Lemma ListBooks_select_fails (limit offset : Z) (search filter : string) (w : World)
      (e : Error) (f : list (option Error)) :
  faults w = None :: Some e :: f ->
  (forall n code, e <> ErrStep n code) ->
  ListBooks limit offset search filter w =
  (Err e,
   mkWorld (store w) (txn w) f
           (trace w ++ [CallQuery (countQuery search filter) (args search);
                        CallQuery (listQuery search filter) (pagedArgs limit offset search)])).
Proof.
  intros Hf He.
  unfold ListBooks. rewrite count_runs by (rewrite Hf; reflexivity).
  cbn [RowScan scan_int]. rewrite Hf. cbn [tl].
  erewrite QueryContext_fails; [| reflexivity | exact He].
  cbn [store txn trace]. rewrite <- app_assoc. reflexivity.
Qed.

(** X4: whatever the store does, [ListBooks] leaves the table and the
    transaction state as they were.  It returns the error of the COUNT
    query when that fails, and the paged SELECT is then not sent at all;
    it returns the error of the SELECT when the driver refuses it.  But a
    failure of the driver while the rows of the page are stepped through
    is not reported: [rows.Err()] is never asked, so when the step after
    the [n]-th row fails, [ListBooks] answers without error, with the
    first [n] books of the page as if they were the page, and the full
    total. *)
Theorem list_books_is_read_only
    (limit offset : Z) (search filter : string) (w : World) :
  let page := Sqlite.limit_offset limit offset
                (Sqlite.order_by_id (matching search filter (Sqlite.rows (store w)))) in
  let total := Z.of_nat (List.length (matching search filter (Sqlite.rows (store w)))) in
  store (snd (ListBooks limit offset search filter w)) = store w /\
  txn (snd (ListBooks limit offset search filter w)) = txn w /\
  fst (ListBooks limit offset search filter w) =
    match faults w with
    | Some e :: _ => Err e
    | None :: Some (ErrStep n _) :: _ => Ok (mkPaginatedBooks (firstn n page) total)
    | None :: Some e :: _ => Err e
    | _ => Ok (mkPaginatedBooks page total)
    end /\
  trace (snd (ListBooks limit offset search filter w)) =
    trace w ++
    match first_fault 1 (faults w) with
    | Some _ => [CallQuery (countQuery search filter) (args search)]
    | None => [CallQuery (countQuery search filter) (args search);
               CallQuery (listQuery search filter) (pagedArgs limit offset search)]
    end.
Proof.
  intros page total.
  destruct (faults w) as [|[e|] [|[e1|] f]] eqn:Hf.
  - rewrite ListBooks_runs by (rewrite Hf; reflexivity). repeat split.
  - unfold ListBooks. rewrite (QueryRowContext_fails _ _ _ _ _ Hf). repeat split.
  - unfold ListBooks. rewrite (QueryRowContext_fails _ _ _ _ _ Hf). repeat split.
  - unfold ListBooks. rewrite (QueryRowContext_fails _ _ _ _ _ Hf). repeat split.
  - rewrite ListBooks_runs by (rewrite Hf; reflexivity). repeat split.
  - (* the COUNT runs, the SELECT does not run to its end *)
    destruct e1 as [| | | | | | | | | n code];
      try (rewrite (ListBooks_select_fails _ _ _ _ _ _ _ Hf) by (intros ? ?; discriminate);
           repeat split).
    rewrite (ListBooks_breaks _ _ _ _ _ _ _ _ Hf). repeat split.
  - rewrite ListBooks_runs by (rewrite Hf; reflexivity). repeat split.
Qed.

Lemma list_books_is_read_only_witness :
  fst (ListBooks 5 0 EmptyString "all"
         (mkWorld (Sqlite.mkStore [mkBook 1 "Alpha" true; mkBook 2 "Beta" false;
                                   mkBook 3 "Gamma" false] 3)
                  None [None; Some (ErrStep 1 5)] []))
  = Ok (mkPaginatedBooks [mkBook 1 "Alpha" true] 3).
Proof.
  destruct (list_books_is_read_only 5 0 EmptyString "all"
              (mkWorld (Sqlite.mkStore [mkBook 1 "Alpha" true; mkBook 2 "Beta" false;
                                        mkBook 3 "Gamma" false] 3)
                       None [None; Some (ErrStep 1 5)] [])) as [_ [_ [H _]]].
  rewrite H. reflexivity.
Defined.

(** ** The page *)

Lemma insert_by_id_In (b x : Book) (l : list Book) :
  In x (Sqlite.insert_by_id b l) <-> x = b \/ In x l.
Proof.
  induction l as [|c l IH]; simpl.
  - intuition.
  - destruct (ID b <=? ID c); simpl; [intuition|]. rewrite IH. intuition.
Qed.

Lemma order_by_id_In (x : Book) (l : list Book) :
  In x (Sqlite.order_by_id l) <-> In x l.
Proof.
  induction l as [|a l IH]; simpl; [reflexivity|].
  rewrite insert_by_id_In, IH. intuition.
Qed.

Lemma insert_by_id_sorted (b : Book) (l : list Book) :
  StronglySorted by_id l -> StronglySorted by_id (Sqlite.insert_by_id b l).
Proof.
  induction 1 as [|c l Hs IH Hall]; simpl.
  - repeat constructor.
  - destruct (ID b <=? ID c) eqn:E.
    + apply Z.leb_le in E. constructor; [now constructor|].
      constructor; [exact E|].
      apply Forall_impl with (2 := Hall). unfold by_id. intros; lia.
    + apply Z.leb_gt in E. constructor; [exact IH|].
      apply Forall_forall. intros x Hx. apply insert_by_id_In in Hx.
      destruct Hx as [->|Hx].
      * unfold by_id. lia.
      * rewrite Forall_forall in Hall. now apply Hall.
Qed.

Lemma order_by_id_sorted (l : list Book) : StronglySorted by_id (Sqlite.order_by_id l).
Proof.
  induction l as [|a l IH]; simpl; [constructor|]. now apply insert_by_id_sorted.
Qed.

Lemma sorted_skipn (n : nat) (l : list Book) :
  StronglySorted by_id l -> StronglySorted by_id (skipn n l).
Proof.
  revert l; induction n as [|n IH]; intros l Hs; [exact Hs|].
  destruct l as [|a l]; [constructor|]. simpl. apply IH. now inversion Hs.
Qed.

Lemma sorted_firstn (n : nat) (l : list Book) :
  StronglySorted by_id l -> StronglySorted by_id (firstn n l).
Proof.
  revert l; induction n as [|n IH]; intros l Hs; [constructor|].
  destruct l as [|a l]; [constructor|]. simpl. inversion Hs as [|x y Hs' Hall]; subst.
  constructor; [now apply IH|].
  apply Forall_forall. intros x Hx. rewrite Forall_forall in Hall. apply Hall.
  rewrite <- (firstn_skipn n l). apply in_or_app. now left.
Qed.

Lemma limit_offset_In {A : Type} (limit offset : Z) (l : list A) (x : A) :
  In x (Sqlite.limit_offset limit offset l) -> In x l.
Proof.
  unfold Sqlite.limit_offset. intros H.
  assert (Hs : In x (skipn (Z.to_nat offset) l)).
  { destruct (limit <? 0); [exact H|].
    rewrite <- (firstn_skipn (Z.to_nat limit) (skipn (Z.to_nat offset) l)).
    apply in_or_app. now left. }
  rewrite <- (firstn_skipn (Z.to_nat offset) l). apply in_or_app. now right.
Qed.

(** X5: when its two queries run, the page [ListBooks] returns is in
    ascending identifier order, and every book on it is a row of the table
    that satisfies the search and the filter; this holds for every limit
    and offset, negative ones included. *)
Theorem list_books_page_is_sorted_and_sound
    (limit offset : Z) (search filter : string) (w : World) :
  quiet 2 (faults w) = true ->
  exists (result : PaginatedBooks) (w1 : World),
    ListBooks limit offset search filter w = (Ok result, w1) /\
    StronglySorted by_id (Books result) /\
    forall b, In b (Books result) ->
      In b (Sqlite.rows (store w)) /\ spec_matches search filter b = true.
Proof.
  intros Hq. eexists. eexists. rewrite (ListBooks_runs _ _ _ _ _ Hq).
  split; [reflexivity|]. cbn [Books]. split.
  - unfold Sqlite.limit_offset.
    destruct (limit <? 0).
    + apply sorted_skipn, order_by_id_sorted.
    + apply sorted_firstn, sorted_skipn, order_by_id_sorted.
  - intros b Hb. apply limit_offset_In in Hb. apply (proj1 (order_by_id_In _ _)) in Hb.
    unfold matching in Hb. now apply filter_In in Hb.
Qed.

Lemma list_books_page_is_sorted_and_sound_witness :
  exists (result : PaginatedBooks) (w1 : World),
    ListBooks 2 0 "a" "all"
      (mkWorld (Sqlite.mkStore [mkBook 3 "Gamma" false; mkBook 1 "Alpha" true;
                                mkBook 2 "Beta" false] 3) None [] []) = (Ok result, w1) /\
    StronglySorted by_id (Books result).
Proof.
  destruct (list_books_page_is_sorted_and_sound 2 0 "a" "all"
              (mkWorld (Sqlite.mkStore [mkBook 3 "Gamma" false; mkBook 1 "Alpha" true;
                                        mkBook 2 "Beta" false] 3) None [] []))
    as [result [w1 [H1 [H2 _]]]].
  - reflexivity.
  - exists result, w1. split; assumption.
Defined.


Lemma quiet_tl (n : nat) (f : list (option Error)) :
  quiet (S n) f = true -> quiet n (tl f) = true.
Proof.
  destruct f as [|[e|] f]; simpl; intros H; try discriminate; [now destruct n|exact H].
Qed.

Lemma quiet_S (n : nat) (f : list (option Error)) :
  quiet (S n) f = true -> quiet n f = true.
Proof.
  revert f; induction n as [|n IH]; intros f H; [reflexivity|].
  destruct f as [|[e|] f]; try discriminate; [reflexivity|].
  cbn [quiet] in *. now apply IH.
Qed.



(** ** What the writing operations keep *)

Lemma NoDup_map_filter (f : Book -> bool) (l : list Book) :
  NoDup (map ID l) -> NoDup (map ID (filter f l)).
Proof.
  induction l as [|a l IH]; intros Hnd; simpl; [constructor|].
  simpl in Hnd. inversion Hnd as [|x y Hnotin Hnd']; subst.
  destruct (f a); simpl; [|now apply IH].
  constructor; [|now apply IH].
  intros Hin. apply Hnotin. apply in_map_iff in Hin. destruct Hin as [b [E Hb]].
  apply filter_In in Hb. apply in_map_iff. exists b. tauto.
Qed.

Lemma map_ID_update (g : Book -> Book) (l : list Book) :
  (forall b, ID (g b) = ID b) -> map ID (map g l) = map ID l.
Proof.
  intros Hg. rewrite map_map. apply map_ext. exact Hg.
Qed.

Lemma Forall_pos_update (g : Book -> Book) (l : list Book) :
  (forall b, ID (g b) = ID b) ->
  Forall (fun b => 0 < ID b) l -> Forall (fun b => 0 < ID b) (map g l).
Proof.
  intros Hg H. apply Forall_forall. intros x Hx. apply in_map_iff in Hx.
  destruct Hx as [b [<- Hb]]. rewrite Hg. rewrite Forall_forall in H. now apply H.
Qed.

(** Every statement the store runs keeps identifiers unique and positive. *)
Lemma run_keeps_wf (st : Sqlite.Stmt) (a : list Value) (s s' : Sqlite.Store)
      (o : Sqlite.Outcome) :
  Sqlite.run st a s = Ok (o, s') -> wf_store s -> wf_store s'.
Proof.
  intros Hrun [Hnd Hpos]. unfold wf_store.
  destruct st; simpl in Hrun.
  - destruct a as [|[|id| |] [|]]; try discriminate. injection Hrun as _ <-. auto.
  - destruct (Sqlite.bind_where w a) as [[f [|]]|]; try discriminate.
    injection Hrun as _ <-. auto.
  - destruct (Sqlite.bind_where w a) as [[f [|[|l| |] [|[|o'| |] [|]]]]|]; try discriminate.
    injection Hrun as _ <-. auto.
  - destruct a as [|[| |t|] [|[| | |h] [|[|id| |] [|]]]]; try discriminate.
    injection Hrun as _ <-. cbn [Sqlite.rows]. split.
    + rewrite map_ID_update; [exact Hnd|]. intros b. now destruct (ID b =? id).
    + apply Forall_pos_update; [|exact Hpos]. intros b. now destruct (ID b =? id).
  - destruct a as [|[| | |h] idargs]; try discriminate.
    destruct (Sqlite.ints_of idargs) as [ids|]; try discriminate.
    destruct (Nat.eqb (List.length ids) n); try discriminate.
    injection Hrun as _ <-. cbn [Sqlite.rows]. split.
    + rewrite map_ID_update; [exact Hnd|]. intros b. now destruct (Sqlite.mem (ID b) ids).
    + apply Forall_pos_update; [|exact Hpos]. intros b.
      now destruct (Sqlite.mem (ID b) ids).
  - destruct a as [|[| |t|] [|[| | |h] [|]]]; try discriminate.
    destruct (Z.max (Sqlite.seq s) (Sqlite.max_id (Sqlite.rows s)) + 1 >? GoInt.MaxInt);
      try discriminate.
    injection Hrun as _ <-. cbn [Sqlite.rows].
    pose proof (max_id_nonneg (Sqlite.rows s)) as Hm. split.
    + rewrite map_app. simpl.
      apply NoDup_app; [exact Hnd|repeat constructor; auto|].
      intros x Hx [<-|[]]. apply in_map_iff in Hx. destruct Hx as [b [E Hb]].
      apply max_id_bound in Hb. lia.
    + apply Forall_app. split; [exact Hpos|]. repeat constructor. simpl. lia.
  - destruct (Sqlite.ints_of a) as [ids|]; try discriminate.
    destruct (Nat.eqb (List.length ids) n); try discriminate.
    injection Hrun as _ <-. cbn [Sqlite.rows]. split.
    + now apply NoDup_map_filter.
    + apply Forall_forall. intros x Hx. apply filter_In in Hx.
      rewrite Forall_forall in Hpos. now apply Hpos.
Qed.

Lemma ExecContext_keeps_wf (q : string) (a : list Value) (w : World) :
  wf_store (store w) -> wf_store (store (snd (ExecContext q a w))).
Proof.
  intros Hwf. unfold ExecContext, driver_call, statement.
  destruct (faults w) as [|[e|] f]; cbn [fst snd store]; try exact Hwf;
    (destruct (Sqlite.prepare q) as [st|e0]; [|exact Hwf]);
    (destruct (Nat.eqb (List.length a) (Sqlite.num_params st)); [|exact Hwf]);
    cbn [store];
    (destruct (Sqlite.run st a (store w)) as [[o s']|e'] eqn:Hrun; [|exact Hwf]);
    cbn [snd with_store store]; exact (run_keeps_wf _ _ _ _ _ Hrun Hwf).
Qed.

Lemma replace_books_IDs (books rows : list Book) :
  map ID (replace_books books rows) = map ID rows.
Proof.
  unfold replace_books. revert rows.
  induction books as [|b books IH]; intros rows; simpl; [reflexivity|].
  rewrite IH. unfold replace_book. apply map_ID_update.
  intros r. now destruct (Z.eq_dec (ID r) (ID b)).
Qed.

(** X7: every writing operation of the repository keeps the identifiers of
    the table unique and positive, whatever the store does (success or
    failure of any driver call): [UpdateBook], [CreateBook], [DeleteBooks],
    [BulkUpdateBooksSalesStatus], and [BulkUpdateBooks] started outside a
    transaction. *)
Theorem repository_keeps_identifiers_unique
    (book : Book) (ids : list Z) (status : bool) (booksToUpdate : list Book) (w : World) :
  wf_store (store w) ->
  txn w = None ->
  wf_store (store (snd (UpdateBook book w))) /\
  wf_store (store (snd (CreateBook book w))) /\
  wf_store (store (snd (DeleteBooks ids w))) /\
  wf_store (store (snd (BulkUpdateBooksSalesStatus ids status w))) /\
  wf_store (store (snd (BulkUpdateBooks booksToUpdate w))).
Proof.
  intros Hwf Htx.
  assert (HE : forall q a, wf_store (store (snd (ExecContext q a w))))
    by (intros; now apply ExecContext_keeps_wf).
  split; [|split; [|split; [|split]]].
  - unfold UpdateBook.
    match goal with |- context [ExecContext ?q ?a w] =>
      specialize (HE q a); destruct (ExecContext q a w) as [[r|e] w1] end;
      exact HE.
  - unfold CreateBook.
    match goal with |- context [ExecContext ?q ?a w] =>
      specialize (HE q a); destruct (ExecContext q a w) as [[r|e] w1] end;
      exact HE.
  - unfold DeleteBooks. destruct (Nat.eqb (List.length ids) 0); [exact Hwf|].
    match goal with |- context [ExecContext ?q ?a w] =>
      specialize (HE q a); destruct (ExecContext q a w) as [[r|e] w1] end;
      exact HE.
  - unfold BulkUpdateBooksSalesStatus.
    destruct (Nat.eqb (List.length ids) 0); [exact Hwf|].
    match goal with |- context [ExecContext ?q ?a w] =>
      specialize (HE q a); destruct (ExecContext q a w) as [[r|e] w1] end;
      exact HE.
  - destruct (BulkUpdateBooks_spec booksToUpdate w Htx) as [w1 [H1 [_ H3]]].
    rewrite H1. cbn [snd]. rewrite H3.
    destruct (first_fault (List.length booksToUpdate + 3) (faults w)); [exact Hwf|].
    destruct Hwf as [Hnd Hpos]. split; cbn [Sqlite.rows].
    + rewrite replace_books_IDs. exact Hnd.
    + apply Forall_forall. intros x Hx.
      assert (Hin : In (ID x) (map ID (Sqlite.rows (store w)))).
      { rewrite <- (replace_books_IDs booksToUpdate). now apply in_map. }
      apply in_map_iff in Hin. destruct Hin as [b [E Hb]].
      rewrite Forall_forall in Hpos. rewrite <- E. now apply Hpos.
Qed.

Lemma repository_keeps_identifiers_unique_witness :
  wf_store (store (snd (CreateBook (mkBook 0 "X" false)
     (mkWorld (Sqlite.mkStore [mkBook 1 "Alpha" true; mkBook 7 "Beta" false] 7)
              None [] [])))).
Proof.
  apply (repository_keeps_identifiers_unique (mkBook 0 "X" false) [] true []
           (mkWorld (Sqlite.mkStore [mkBook 1 "Alpha" true; mkBook 7 "Beta" false] 7)
                    None [] [])).
  - split; simpl.
    + repeat constructor; simpl; intuition discriminate.
    + repeat constructor.
  - reflexivity.
Defined.

Lemma quiet_or_fails (f : list (option Error)) :
  quiet 1 f = true \/ exists e f', f = Some e :: f'.
Proof.
  destruct f as [|[e|] f]; [now left|right; eauto|now left].
Qed.

Lemma quiet_first_fault (n : nat) (f : list (option Error)) :
  quiet n f = true -> first_fault n f = None.
Proof.
  revert f; induction n as [|n IH]; intros f H; [reflexivity|].
  destruct f as [|[e|] f]; simpl in *; try discriminate; auto.
Qed.

(** X8: the updating operations never change which identifiers the table
    holds, nor their order or number, whatever the store does: after
    [UpdateBook], [BulkUpdateBooksSalesStatus] or [BulkUpdateBooks] the list
    of identifiers is the one before the call. *)
Theorem updates_never_change_identifiers
    (book : Book) (ids : list Z) (status : bool) (booksToUpdate : list Book) (w : World) :
  txn w = None ->
  map ID (Sqlite.rows (store (snd (UpdateBook book w)))) = map ID (Sqlite.rows (store w)) /\
  map ID (Sqlite.rows (store (snd (BulkUpdateBooksSalesStatus ids status w))))
    = map ID (Sqlite.rows (store w)) /\
  map ID (Sqlite.rows (store (snd (BulkUpdateBooks booksToUpdate w))))
    = map ID (Sqlite.rows (store w)).
Proof.
  intros Htx. split; [|split].
  - destruct (quiet_or_fails (faults w)) as [Hq|[e [f Hf]]].
    + rewrite (UpdateBook_runs _ _ Hq). cbn [snd store Sqlite.rows].
      unfold replace_book. apply map_ID_update.
      intros r. now destruct (Z.eq_dec (ID r) (ID book)).
    + unfold UpdateBook. rewrite (ExecContext_fails _ _ _ _ _ Hf). reflexivity.
  - destruct ids as [|i ids]; [reflexivity|].
    destruct (quiet_or_fails (faults w)) as [Hq|[e [f Hf]]].
    + destruct (Z_le_gt_dec (Z.of_nat (List.length (i :: ids)) + 1)
                            Sqlite.MaxVariableNumber) as [Hm|Hm].
      * rewrite salesStatus_runs; [|discriminate|exact Hq|exact Hm].
        cbn [snd store Sqlite.rows].
        unfold set_sales. apply map_ID_update.
        intros r. now destruct (in_dec Z.eq_dec (ID r) (i :: ids)).
      * rewrite salesStatus_refused; [reflexivity|exact Hq|lia].
    + unfold BulkUpdateBooksSalesStatus. cbn [List.length Nat.eqb].
      rewrite (ExecContext_fails _ _ _ _ _ Hf). reflexivity.
  - destruct (BulkUpdateBooks_spec booksToUpdate w Htx) as [w1 [H1 [_ H3]]].
    rewrite H1. cbn [snd]. rewrite H3.
    destruct (first_fault (List.length booksToUpdate + 3) (faults w)); [reflexivity|].
    cbn [Sqlite.rows]. apply replace_books_IDs.
Qed.

Lemma updates_never_change_identifiers_witness :
  map ID (Sqlite.rows (store (snd (BulkUpdateBooksSalesStatus [2; 9] true
     (mkWorld (Sqlite.mkStore [mkBook 1 "Alpha" true; mkBook 2 "Beta" false] 2)
              None [] []))))) = [1; 2].
Proof.
  apply (updates_never_change_identifiers (mkBook 1 "A" true) [2; 9] true []
           (mkWorld (Sqlite.mkStore [mkBook 1 "Alpha" true; mkBook 2 "Beta" false] 2)
                    None [] [])).
  reflexivity.
Defined.

(** ** Deleting *)

Lemma without_absent (ids : list Z) (rows : list Book) (r : Book) :
  In r (without ids rows) -> ~ In (ID r) ids.
Proof.
  unfold without. intros H. apply filter_In in H. destruct H as [_ H].
  now destruct (in_dec Z.eq_dec (ID r) ids).
Qed.

(** X9: after a successful [DeleteBooks], [GetBook] on any of the deleted
    identifiers answers [sql.ErrNoRows]; the rows whose identifier is not
    in the list are all still there.  The delete succeeds when its driver
    call runs and the list has at most [Sqlite.MaxVariableNumber] = 32766
    identifiers. *)
Theorem delete_then_get (ids : list Z) (id : Z) (w : World) :
  quiet 2 (faults w) = true ->
  In id ids ->
  Z.of_nat (List.length ids) <= Sqlite.MaxVariableNumber ->
  exists w1 w2,
    DeleteBooks ids w = (Ok tt, w1) /\
    GetBook id w1 = (Err ErrNoRows, w2) /\
    forall r, In r (Sqlite.rows (store w)) -> ~ In (ID r) ids ->
              In r (Sqlite.rows (store w1)).
Proof.
  intros Hq Hin Hmax. destruct (quiet_2 _ Hq) as [Hq1 Hq2].
  assert (Hne : ids <> []) by (destruct ids; [contradiction|discriminate]).
  rewrite (delete_runs _ _ Hne Hq1 Hmax).
  eexists. eexists. split; [reflexivity|]. split.
  - rewrite GetBook_filter by exact Hq2. cbn [store Sqlite.rows].
    rewrite filter_none; [reflexivity|].
    intros r Hr. apply Z.eqb_neq. intros E. subst id.
    now apply without_absent in Hr.
  - cbn [store Sqlite.rows]. intros r Hr Hnot. unfold without. apply filter_In.
    split; [exact Hr|]. now destruct (in_dec Z.eq_dec (ID r) ids).
Qed.

Lemma delete_then_get_witness :
  exists w1 w2,
    DeleteBooks [1; 3]
      (mkWorld (Sqlite.mkStore [mkBook 1 "Alpha" true; mkBook 2 "Beta" false] 2)
               None [] []) = (Ok tt, w1) /\
    GetBook 1 w1 = (Err ErrNoRows, w2).
Proof.
  destruct (delete_then_get [1; 3] 1
              (mkWorld (Sqlite.mkStore [mkBook 1 "Alpha" true; mkBook 2 "Beta" false] 2)
                       None [] [])) as [w1 [w2 [H1 [H2 _]]]].
  - reflexivity.
  - simpl. auto.
  - vm_compute. discriminate.
  - exists w1, w2. split; assumption.
Defined.

Lemma without_idem (ids : list Z) (rows : list Book) :
  without ids (without ids rows) = without ids rows.
Proof.
  unfold without. induction rows as [|a rows IH]; simpl; [reflexivity|].
  destruct (in_dec Z.eq_dec (ID a) ids) eqn:E; simpl; [exact IH|].
  rewrite E. now rewrite IH.
Qed.

Lemma set_sales_idem (ids : list Z) (status : bool) (rows : list Book) :
  set_sales ids status (set_sales ids status rows) = set_sales ids status rows.
Proof.
  unfold set_sales. rewrite map_map. apply map_ext. intros b.
  destruct (in_dec Z.eq_dec (ID b) ids) as [H|H]; simpl.
  - destruct (in_dec Z.eq_dec (ID b) ids); [reflexivity|contradiction].
  - destruct (in_dec Z.eq_dec (ID b) ids); [contradiction|reflexivity].
Qed.

(** X10: the two membership operations are idempotent: when the statement
    is within the bound of the store (at most 32766 identifiers for
    [DeleteBooks], 32765 for [BulkUpdateBooksSalesStatus]) and the driver
    calls run, running the operation a second time with the same
    arguments succeeds again and leaves the table as the first run left
    it (deleting identifiers that are already gone is not an error). *)
Theorem membership_operations_are_idempotent (ids : list Z) (status : bool) (w : World) :
  quiet 2 (faults w) = true ->
  (Z.of_nat (List.length ids) <= Sqlite.MaxVariableNumber ->
   exists w1 w2,
     DeleteBooks ids w = (Ok tt, w1) /\ DeleteBooks ids w1 = (Ok tt, w2) /\
     store w2 = store w1) /\
  (Z.of_nat (List.length ids) + 1 <= Sqlite.MaxVariableNumber ->
   exists w1 w2,
     BulkUpdateBooksSalesStatus ids status w = (Ok tt, w1) /\
     BulkUpdateBooksSalesStatus ids status w1 = (Ok tt, w2) /\
     store w2 = store w1).
Proof.
  intros Hq. destruct (quiet_2 _ Hq) as [Hq1 Hq2].
  destruct ids as [|i ids].
  { split; intros _; exists w, w; repeat split. }
  assert (Hne : i :: ids <> []) by discriminate.
  split; intros Hmax.
  - rewrite (delete_runs _ _ Hne Hq1 Hmax). eexists. eexists. split; [reflexivity|].
    rewrite delete_runs; [|exact Hne|exact Hq2|exact Hmax]. split; [reflexivity|].
    cbn [store Sqlite.rows Sqlite.seq]. now rewrite without_idem.
  - rewrite (salesStatus_runs _ _ _ Hne Hq1 Hmax). eexists. eexists. split; [reflexivity|].
    rewrite salesStatus_runs; [|exact Hne|exact Hq2|exact Hmax]. split; [reflexivity|].
    cbn [store Sqlite.rows Sqlite.seq]. now rewrite set_sales_idem.
Qed.

Lemma membership_operations_are_idempotent_witness :
  exists w1 w2,
    DeleteBooks [1]
      (mkWorld (Sqlite.mkStore [mkBook 1 "Alpha" true; mkBook 2 "Beta" false] 2)
               None [] []) = (Ok tt, w1) /\
    DeleteBooks [1] w1 = (Ok tt, w2) /\ store w2 = store w1.
Proof.
  destruct (membership_operations_are_idempotent [1] true
              (mkWorld (Sqlite.mkStore [mkBook 1 "Alpha" true; mkBook 2 "Beta" false] 2)
                       None [] [])) as [H _].
  - reflexivity.
  - apply H. vm_compute. discriminate.
Defined.

(** ** Creating *)

Lemma CreateBook_runs (book : Book) (w : World) :
  quiet 1 (faults w) = true ->
  Z.max (Sqlite.seq (store w)) (Sqlite.max_id (Sqlite.rows (store w))) < GoInt.MaxInt ->
  CreateBook book w =
  (Ok (mkBook (Z.max (Sqlite.seq (store w)) (Sqlite.max_id (Sqlite.rows (store w))) + 1)
              (Title book) (HasSales book)),
   mkWorld (Sqlite.mkStore
              (Sqlite.rows (store w)
                 ++ [mkBook (Z.max (Sqlite.seq (store w))
                                   (Sqlite.max_id (Sqlite.rows (store w))) + 1)
                            (Title book) (HasSales book)])
              (Z.max (Sqlite.seq (store w)) (Sqlite.max_id (Sqlite.rows (store w))) + 1))
           (txn w) (tl (faults w))
           (trace w ++ [CallExec "INSERT INTO books (title, has_sales) VALUES (?, ?)"
                          [VText (Title book); VBool (HasSales book)]])).
Proof.
  intros Hq Hroom. unfold CreateBook, ExecContext. rewrite (quiet_1 _ _ Hq).
  unfold statement. simpl.
  destruct (Z.max (Sqlite.seq (store w)) (Sqlite.max_id (Sqlite.rows (store w))) + 1
            >? GoInt.MaxInt) eqn:E.
  - apply Z.gtb_lt in E. lia.
  - reflexivity.
Qed.

Lemma without_fresh (id : Z) (rows : list Book) (b : Book) :
  ID b = id -> (forall r, In r rows -> ID r <> id) ->
  without [id] (rows ++ [b]) = rows.
Proof.
  intros Hb Hfresh. unfold without. rewrite filter_app. cbn [filter].
  destruct (in_dec Z.eq_dec (ID b) [id]) as [_|Hn]; [|exfalso; apply Hn; simpl; auto].
  rewrite app_nil_r.
  induction rows as [|a rows IH]; cbn [filter]; [reflexivity|].
  destruct (in_dec Z.eq_dec (ID a) [id]) as [[E|[]]|_].
  - exfalso. apply (Hfresh a); [now left|now symmetry].
  - rewrite IH; [reflexivity|]. intros r Hr. apply Hfresh. now right.
Qed.

(** X11: creating a book and deleting it again gives back the rows there
    were, but not the identifier: the table is declared AUTOINCREMENT, and
    the next [CreateBook] gets the identifier after the deleted one, never
    the deleted one again. *)
Theorem create_delete_create (book book' : Book) (w : World) :
  quiet 3 (faults w) = true ->
  Z.max (Sqlite.seq (store w)) (Sqlite.max_id (Sqlite.rows (store w))) + 1 < GoInt.MaxInt ->
  exists (b1 b2 : Book) (w1 w2 w3 : World),
    CreateBook book w = (Ok b1, w1) /\
    DeleteBooks [ID b1] w1 = (Ok tt, w2) /\
    Sqlite.rows (store w2) = Sqlite.rows (store w) /\
    CreateBook book' w2 = (Ok b2, w3) /\
    ID b2 = ID b1 + 1.
Proof.
  intros Hq Hroom.
  assert (Hq1 : quiet 1 (faults w) = true) by (do 2 apply quiet_S in Hq; exact Hq).
  assert (Hq2 : quiet 1 (tl (faults w)) = true).
  { apply quiet_tl in Hq. apply quiet_S in Hq. exact Hq. }
  assert (Hq3 : quiet 1 (tl (tl (faults w))) = true) by (do 2 apply quiet_tl in Hq; exact Hq).
  pose proof (max_id_nonneg (Sqlite.rows (store w))) as Hnn.
  set (id := Z.max (Sqlite.seq (store w)) (Sqlite.max_id (Sqlite.rows (store w))) + 1) in *.
  assert (Hfresh : forall r, In r (Sqlite.rows (store w)) -> ID r <> id).
  { intros r Hr. apply max_id_bound in Hr. unfold id. lia. }
  do 5 eexists.
  rewrite CreateBook_runs by (try exact Hq1; lia). fold id.
  split; [reflexivity|]. cbn [ID].
  rewrite delete_runs; [|discriminate|exact Hq2|vm_compute; discriminate].
  split; [reflexivity|]. cbn [store Sqlite.rows Sqlite.seq].
  rewrite (without_fresh id) by (auto; reflexivity).
  split; [reflexivity|].
  rewrite CreateBook_runs.
  - split; [reflexivity|]. cbn [ID store Sqlite.rows Sqlite.seq].
    assert (Sqlite.max_id (Sqlite.rows (store w)) < id) by (unfold id; lia). lia.
  - exact Hq3.
  - cbn [store Sqlite.rows Sqlite.seq].
    assert (Sqlite.max_id (Sqlite.rows (store w)) < id) by (unfold id; lia). lia.
Qed.

Lemma create_delete_create_witness :
  exists (b1 b2 : Book) (w1 w2 w3 : World),
    CreateBook (mkBook 0 "X" false)
      (mkWorld (Sqlite.mkStore [mkBook 1 "Alpha" true] 1) None [] []) = (Ok b1, w1) /\
    DeleteBooks [ID b1] w1 = (Ok tt, w2) /\
    Sqlite.rows (store w2) = [mkBook 1 "Alpha" true] /\
    CreateBook (mkBook 0 "Y" true) w2 = (Ok b2, w3) /\
    ID b2 = ID b1 + 1.
Proof.
  apply (create_delete_create (mkBook 0 "X" false) (mkBook 0 "Y" true)
           (mkWorld (Sqlite.mkStore [mkBook 1 "Alpha" true] 1) None [] [])).
  - reflexivity.
  - reflexivity.
Defined.

(** ** More on the bulk edit transaction *)

(** X12: an empty batch is not short-circuited as the empty id lists are:
    [BulkUpdateBooks] still begins a transaction, prepares the statement and
    commits, so it returns the failure of any of these three calls; the
    table is unchanged in every case. *)
Theorem bulk_update_empty_batch_runs_a_transaction (w : World) :
  txn w = None ->
  exists (w1 : World) (calls : list Call),
    BulkUpdateBooks [] w
    = (match first_fault 3 (faults w) with Some e => Err e | None => Ok tt end, w1) /\
    store w1 = store w /\
    trace w1 = trace w ++ CallBegin :: calls.
Proof.
  intros Htx. destruct w as [st tx fs tr]. simpl in Htx. subst tx.
  unfold BulkUpdateBooks, BeginTx, PrepareContext, driver_call.
  cbn [faults tl txn store trace with_txn].
  change (Sqlite.parse bulkUpdateQuery) with (Some Sqlite.UpdateBookById).
  destruct fs as [|[e0|] [|[e1|] [|[e2|] fs]]];
    cbn; rewrite <- ?app_assoc; cbn [app];
    (eexists; eexists; split; [reflexivity|]; split; reflexivity).
Qed.

Lemma bulk_update_empty_batch_runs_a_transaction_witness :
  exists (w1 : World) (calls : list Call),
    BulkUpdateBooks [] (mkWorld (Sqlite.mkStore [mkBook 1 "Alpha" true] 1) None
                                [None; Some (ErrStore 1)] [])
    = (Err (ErrStore 1), w1) /\
    store w1 = Sqlite.mkStore [mkBook 1 "Alpha" true] 1 /\
    trace w1 = CallBegin :: calls.
Proof.
  apply (bulk_update_empty_batch_runs_a_transaction
           (mkWorld (Sqlite.mkStore [mkBook 1 "Alpha" true] 1) None
                    [None; Some (ErrStore 1)] [])).
  reflexivity.
Defined.

Lemma replace_books_app (pre post rows : list Book) :
  replace_books (pre ++ post) rows = replace_books post (replace_books pre rows).
Proof.
  unfold replace_books. apply fold_left_app.
Qed.

Lemma replace_books_other (post rows : list Book) (i : Z) (r : Book) :
  (forall c, In c post -> ID c <> i) ->
  ID r = i -> (In r (replace_books post rows) <-> In r rows).
Proof.
  revert rows; induction post as [|c post IH]; intros rows Hpost Hr; [reflexivity|].
  change (replace_books (c :: post) rows) with (replace_books post (replace_book c rows)).
  rewrite IH; [|intros c' Hc'; apply Hpost; now right|exact Hr].
  assert (Hc : ID c <> i) by (apply Hpost; now left).
  unfold replace_book. rewrite in_map_iff. split.
  - intros [r0 [E Hr0]]. destruct (Z.eq_dec (ID r0) (ID c)) as [E'|E'].
    + subst r. simpl in Hr. congruence.
    + now subst r0.
  - intros Hin. exists r. split; [|exact Hin].
    destruct (Z.eq_dec (ID r) (ID c)); [congruence|reflexivity].
Qed.

(** X13: when a batch names the same identifier more than once, the last
    entity for it decides: after a successful [BulkUpdateBooks] every row
    with the identifier of an entity that no later entity of the batch
    repeats carries that entity's title and has-sales flag; and a row whose
    identifier no entity of the batch names is still there unchanged. *)
Theorem bulk_update_last_entity_wins (pre post : list Book) (b : Book) (w : World) :
  txn w = None ->
  quiet (List.length (pre ++ b :: post) + 3) (faults w) = true ->
  (forall c, In c post -> ID c <> ID b) ->
  exists w1,
    BulkUpdateBooks (pre ++ b :: post) w = (Ok tt, w1) /\
    (forall r, In r (Sqlite.rows (store w1)) -> ID r = ID b ->
               Title r = Title b /\ HasSales r = HasSales b) /\
    (forall r, In r (Sqlite.rows (store w)) ->
               (forall c, In c (pre ++ b :: post) -> ID c <> ID r) ->
               In r (Sqlite.rows (store w1))).
Proof.
  intros Htx Hq Hpost.
  destruct (BulkUpdateBooks_spec (pre ++ b :: post) w Htx) as [w1 [H1 [_ H3]]].
  rewrite (quiet_first_fault _ _ Hq) in H1, H3.
  exists w1. split; [exact H1|]. rewrite H3. cbn [Sqlite.rows]. split.
  - intros r Hr E. rewrite replace_books_app in Hr.
    change (replace_books (b :: post) ?x) with (replace_books post (replace_book b x)) in Hr.
    apply (proj1 (replace_books_other post _ (ID b) r Hpost E)) in Hr.
    unfold replace_book in Hr. apply in_map_iff in Hr. destruct Hr as [r0 [E0 _]].
    destruct (Z.eq_dec (ID r0) (ID b)); subst r; [split; reflexivity|contradiction].
  - intros r Hr Hnone. apply (proj2 (replace_books_other _ _ (ID r) r Hnone eq_refl)). exact Hr.
Qed.

Lemma bulk_update_last_entity_wins_witness :
  exists w1,
    BulkUpdateBooks ([mkBook 1 "first" false] ++ mkBook 1 "second" true :: [mkBook 2 "B" true])
      (mkWorld (Sqlite.mkStore [mkBook 1 "Alpha" false; mkBook 2 "Beta" false] 2)
               None [] []) = (Ok tt, w1).
Proof.
  destruct (bulk_update_last_entity_wins [mkBook 1 "first" false] [mkBook 2 "B" true]
              (mkBook 1 "second" true)
              (mkWorld (Sqlite.mkStore [mkBook 1 "Alpha" false; mkBook 2 "Beta" false] 2)
                       None [] [])) as [w1 [H _]].
  - reflexivity.
  - reflexivity.
  - simpl. intros c [<-|[]]. simpl. discriminate.
  - exists w1. exact H.
Defined.

(** * Properties of the handlers *)

(** ** Validation before the store is touched *)

Lemma parse_ids_spec (idStrs : list string) :
  forall acc : list Z,
    parse_ids idStrs acc =
    if forallb (fun s => match snd (strconv.Atoi s) with None => true | Some _ => false end)
               idStrs
    then Some (acc ++ map (fun s => fst (strconv.Atoi s)) idStrs)
    else None.
Proof.
  induction idStrs as [|s rest IH]; intros acc; simpl.
  - now rewrite app_nil_r.
  - destruct (strconv.Atoi s) as [id [err|]]; simpl; [reflexivity|].
    rewrite IH. destruct (forallb _ rest); [|reflexivity].
    now rewrite <- app_assoc.
Qed.

Lemma parse_ids_bad (idStrs : list string) (s : string) :
  In s idStrs -> snd (strconv.Atoi s) <> None -> parse_ids idStrs [] = None.
Proof.
  intros Hin Hbad. rewrite parse_ids_spec.
  destruct (forallb _ idStrs) eqn:E; [|reflexivity].
  rewrite forallb_forall in E. specialize (E s Hin).
  destruct (snd (strconv.Atoi s)); [discriminate|contradiction].
Qed.

(** X14: the two selection handlers validate the whole request before they
    touch the store: with no book selected, or (for the sales update) an
    action other than [add] and [remove], or a single identifier that is
    not a number that fits an [int], [BulkUpdateSales] and [DeleteBooks]
    answer 400 and make no driver call at all, so no row is changed even
    when the other identifiers are valid. *)
Theorem selection_handlers_reject_before_store
    (BookIDs : list string) (Action : string) (w : World) :
  (BookIDs = [] \/
   (Action <> "add"%string /\ Action <> "remove"%string) \/
   (exists s, In s BookIDs /\ snd (strconv.Atoi s) <> None) ->
   exists msg, Handler.BulkUpdateSales (Some (BookIDs, Action)) w = (send 400 msg, w)) /\
  (BookIDs = [] \/
   (exists s, In s BookIDs /\ snd (strconv.Atoi s) <> None) ->
   exists msg, Handler.DeleteBooks (Some BookIDs) w = (send 400 msg, w)) /\
  (Action <> "add"%string -> Action <> "remove"%string -> BookIDs <> [] ->
   Handler.BulkUpdateSales (Some (BookIDs, Action)) w = (send 400 "Invalid action.", w)).
Proof.
  unfold Handler.BulkUpdateSales, Handler.DeleteBooks.
  split; [|split].
  - intros [->|[[Ha Hr]|[s [Hin Hs]]]]; [eexists; reflexivity| |].
    + destruct (Nat.eqb (List.length BookIDs) 0); [eexists; reflexivity|].
      apply String.eqb_neq in Ha, Hr. rewrite Ha, Hr. eexists; reflexivity.
    + destruct (Nat.eqb (List.length BookIDs) 0); [eexists; reflexivity|].
      destruct (String.eqb Action "add");
        [|destruct (String.eqb Action "remove"); [|eexists; reflexivity]];
        rewrite (parse_ids_bad _ _ Hin Hs); eexists; reflexivity.
  - intros [->|[s [Hin Hs]]]; [eexists; reflexivity|].
    destruct (Nat.eqb (List.length BookIDs) 0); [eexists; reflexivity|].
    rewrite (parse_ids_bad _ _ Hin Hs). eexists; reflexivity.
  - intros Ha Hr Hne.
    destruct BookIDs as [|s rest]; [contradiction|]. cbn [List.length Nat.eqb].
    apply String.eqb_neq in Ha, Hr. now rewrite Ha, Hr.
Qed.

Lemma selection_handlers_reject_before_store_witness :
  let w := mkWorld (Sqlite.mkStore [mkBook 1 "Alpha" true; mkBook 2 "Beta" false] 2)
                   None [] [] in
  (exists msg, Handler.BulkUpdateSales (Some (["1"; "2"]%string, "toggle"%string)) w
               = (send 400 msg, w)) /\
  (exists msg, Handler.DeleteBooks (Some ["1"; "2x"]%string) w = (send 400 msg, w)).
Proof.
  intros w. split.
  - destruct (selection_handlers_reject_before_store ["1"; "2"]%string "toggle" w)
      as [H _].
    apply H. right. left. split; discriminate.
  - destruct (selection_handlers_reject_before_store ["1"; "2x"]%string "add" w)
      as [_ [H _]].
    apply H. right. exists "2x"%string. split; [simpl; auto|]. vm_compute. discriminate.
Defined.

(** X15: when every selected identifier is a number and the driver call
    runs, [DeleteBooks] removes exactly the rows with these identifiers,
    and [BulkUpdateSales] sets the has-sales flag of exactly these rows, to
    true for the action [add] and to false for [remove]; both answer 200
    with the HX-Refresh header.  This holds while the statement is within
    the bound of the store: at most [Sqlite.MaxVariableNumber] = 32766
    selected books for the delete and 32765 for the update.  With more
    books selected the store refuses the statement: the handler answers
    500 and no row is changed. *)
Theorem selection_handlers_apply
    (BookIDs : list string) (w : World) :
  BookIDs <> [] ->
  (forall s, In s BookIDs -> snd (strconv.Atoi s) = None) ->
  quiet 1 (faults w) = true ->
  let ids := map (fun s => fst (strconv.Atoi s)) BookIDs in
  let n := Z.of_nat (List.length BookIDs) in
  (n <= Sqlite.MaxVariableNumber ->
   exists w1, Handler.DeleteBooks (Some BookIDs) w = (refreshed_ok, w1) /\
              Sqlite.rows (store w1) = without ids (Sqlite.rows (store w))) /\
  (n + 1 <= Sqlite.MaxVariableNumber ->
   (exists w1, Handler.BulkUpdateSales (Some (BookIDs, "add"%string)) w = (refreshed_ok, w1) /\
               Sqlite.rows (store w1) = set_sales ids true (Sqlite.rows (store w))) /\
   (exists w1, Handler.BulkUpdateSales (Some (BookIDs, "remove"%string)) w
               = (refreshed_ok, w1) /\
               Sqlite.rows (store w1) = set_sales ids false (Sqlite.rows (store w)))) /\
  (Sqlite.MaxVariableNumber < n ->
   exists w1, Handler.DeleteBooks (Some BookIDs) w
              = (send 500 "Failed to delete books.", w1) /\
              store w1 = store w) /\
  (Sqlite.MaxVariableNumber < n + 1 ->
   forall Action, Action = "add"%string \/ Action = "remove"%string ->
   exists w1, Handler.BulkUpdateSales (Some (BookIDs, Action)) w
              = (send 500 "Failed to update books.", w1) /\
              store w1 = store w).
Proof.
  intros Hne Hok Hq ids n.
  assert (Hp : parse_ids BookIDs [] = Some ids).
  { rewrite parse_ids_spec.
    replace (forallb _ BookIDs) with true; [reflexivity|].
    symmetry. apply forallb_forall. intros s Hs. now rewrite (Hok s Hs). }
  assert (Hlen : Nat.eqb (List.length BookIDs) 0 = false).
  { destruct BookIDs; [contradiction|reflexivity]. }
  assert (Hids : ids <> []).
  { unfold ids. destruct BookIDs; [contradiction|discriminate]. }
  assert (Hn : Z.of_nat (List.length ids) = n).
  { unfold ids, n. now rewrite length_map. }
  unfold Handler.DeleteBooks, Handler.BulkUpdateSales. rewrite Hlen, Hp.
  split; [|split; [|split]]; intros Hmax.
  - rewrite (delete_runs _ _ Hids Hq) by lia. eexists. split; reflexivity.
  - cbn [String.eqb Ascii.eqb Bool.eqb]. split.
    + rewrite (salesStatus_runs _ _ _ Hids Hq) by lia. eexists. split; reflexivity.
    + rewrite (salesStatus_runs _ _ _ Hids Hq) by lia. eexists. split; reflexivity.
  - rewrite (delete_refused _ _ Hq) by lia. eexists. split; reflexivity.
  - intros Action [-> | ->]; cbn [String.eqb Ascii.eqb Bool.eqb];
      rewrite (salesStatus_refused _ _ _ Hq) by lia; eexists; split; reflexivity.
Qed.

Lemma selection_handlers_apply_witness :
  exists w1,
    Handler.DeleteBooks (Some ["1"; "+2"]%string)
      (mkWorld (Sqlite.mkStore [mkBook 1 "Alpha" true; mkBook 2 "Beta" false;
                                mkBook 3 "Gamma" false] 3) None [] []) = (refreshed_ok, w1) /\
    Sqlite.rows (store w1) = [mkBook 3 "Gamma" false].
Proof.
  destruct (selection_handlers_apply ["1"; "+2"]%string
              (mkWorld (Sqlite.mkStore [mkBook 1 "Alpha" true; mkBook 2 "Beta" false;
                                        mkBook 3 "Gamma" false] 3) None [] []))
    as [H _].
  - discriminate.
  - intros s [<-|[<-|[]]]; reflexivity.
  - reflexivity.
  - destruct H as [w1 [H1 H2]]; [vm_compute; discriminate|].
    exists w1. split; [exact H1|]. rewrite H2. reflexivity.
Defined.

(** ** Creating and editing one book *)

(** X16: the create handler refuses an empty title with 400 before any
    driver call, and shows the form on a request that is not a POST,
    without touching the store; with a non-empty title, when the driver
    call runs and a rowid is left, it appends one row with that title,
    has-sales exactly when the form field is [on], and redirects to the
    list. *)
Theorem create_handler (title has_sales : string) (w : World) :
  quiet 1 (faults w) = true ->
  Z.max (Sqlite.seq (store w)) (Sqlite.max_id (Sqlite.rows (store w))) < GoInt.MaxInt ->
  Handler.CreateBook true EmptyString has_sales w = (send 400 "Title cannot be empty", w) /\
  Handler.CreateBook false title has_sales w = (render ViewCreateBook, w) /\
  (title <> EmptyString ->
   exists (id : Z) (w1 : World),
     Handler.CreateBook true title has_sales w = (redirect "/books", w1) /\
     Sqlite.rows (store w1) =
       (Sqlite.rows (store w) ++ [mkBook id title (String.eqb has_sales "on")])%list /\
     0 < id /\
     forall r, In r (Sqlite.rows (store w)) -> ID r < id).
Proof.
  intros Hq Hroom. split; [reflexivity|]. split; [reflexivity|].
  intros Hne. unfold Handler.CreateBook. cbn [Title].
  apply String.eqb_neq in Hne. rewrite Hne.
  rewrite (CreateBook_runs _ _ Hq Hroom). cbn [Title HasSales].
  eexists. eexists. split; [reflexivity|]. cbn [store Sqlite.rows].
  split; [reflexivity|].
  pose proof (max_id_nonneg (Sqlite.rows (store w))). split; [lia|].
  intros r Hr. apply max_id_bound in Hr. lia.
Qed.

Lemma create_handler_witness :
  exists (id : Z) (w1 : World),
    Handler.CreateBook true "X" "on"
      (mkWorld (Sqlite.mkStore [mkBook 1 "Alpha" true] 1) None [] [])
    = (redirect "/books", w1) /\
    Sqlite.rows (store w1) = [mkBook 1 "Alpha" true; mkBook id "X" true].
Proof.
  destruct (create_handler "X" "on"
              (mkWorld (Sqlite.mkStore [mkBook 1 "Alpha" true] 1) None [] []))
    as [_ [_ H]].
  - reflexivity.
  - reflexivity.
  - destruct H as [id [w1 [H1 [H2 _]]]]; [discriminate|].
    exists id, w1. split; [exact H1|exact H2].
Defined.

(** X17: asked for a book that does not exist, the view handler and the
    update handler both answer 500 [Failed to get book] (not 404); the
    update handler has then sent the SELECT only, no UPDATE, and the table
    is as before.  A path parameter that is not a number is answered 400
    before any driver call. *)
Theorem book_handlers_on_missing_book
    (idParam edit title has_sales : string) (renderFails : bool) (id : Z) (w : World) :
  strconv.Atoi idParam = (id, None) ->
  quiet 1 (faults w) = true ->
  (forall r, In r (Sqlite.rows (store w)) -> ID r <> id) ->
  (exists w1,
     Handler.ViewBook idParam edit renderFails w = (send 500 "Failed to get book", w1) /\
     store w1 = store w) /\
  (exists w1,
     Handler.UpdateBook idParam title has_sales w = (send 500 "Failed to get book", w1) /\
     store w1 = store w /\
     trace w1 = trace w ++
       [CallQuery "SELECT id, title, has_sales FROM books WHERE id = ?" [VInt id]]) /\
  (forall (bad : string) (v : Z) (err : strconv.NumError),
     strconv.Atoi bad = (v, Some err) ->
     Handler.ViewBook bad edit renderFails w = (send 400 "Invalid book ID", w) /\
     Handler.UpdateBook bad title has_sales w = (send 400 "Invalid book ID", w)).
Proof.
  intros Ha Hq Habs.
  assert (Hg : GetBook id w =
               (Err ErrNoRows,
                mkWorld (store w) (txn w) (tl (faults w))
                  (trace w ++ [CallQuery "SELECT id, title, has_sales FROM books WHERE id = ?"
                                 [VInt id]]))).
  { rewrite (GetBook_filter _ _ Hq). rewrite filter_none; [reflexivity|].
    intros r Hr. apply Z.eqb_neq. now apply Habs. }
  unfold Handler.ViewBook, Handler.UpdateBook. rewrite Ha, Hg.
  split; [eexists; split; reflexivity|].
  split; [eexists; split; [reflexivity|split; reflexivity]|].
  intros bad v err Hbad. rewrite Hbad. split; reflexivity.
Qed.

Lemma book_handlers_on_missing_book_witness :
  exists w1,
    Handler.UpdateBook "9" "Nine" "on"
      (mkWorld (Sqlite.mkStore [mkBook 1 "Alpha" true] 1) None [] [])
    = (send 500 "Failed to get book", w1) /\
    store w1 = Sqlite.mkStore [mkBook 1 "Alpha" true] 1.
Proof.
  destruct (book_handlers_on_missing_book "9" EmptyString "Nine" "on" false 9
              (mkWorld (Sqlite.mkStore [mkBook 1 "Alpha" true] 1) None [] []))
    as [_ [[w1 [H1 [H2 _]]] _]].
  - reflexivity.
  - reflexivity.
  - simpl. intros r [<-|[]]. simpl. discriminate.
  - exists w1. split; [exact H1|exact H2].
Defined.

Lemma UpdateBook_handler_runs
    (idParam title has_sales : string) (b : Book) (w : World) :
  strconv.Atoi idParam = (ID b, None) ->
  quiet 2 (faults w) = true ->
  NoDup (map ID (Sqlite.rows (store w))) ->
  In b (Sqlite.rows (store w)) ->
  exists w1,
    Handler.UpdateBook idParam title has_sales w
    = (redirect ("/books/" ++ format_int (ID b)), w1) /\
    store w1 =
      Sqlite.mkStore
        (replace_book (mkBook (ID b) title (String.eqb has_sales "on"))
                      (Sqlite.rows (store w)))
        (Sqlite.seq (store w)) /\
    faults w1 = tl (tl (faults w)).
Proof.
  intros Ha Hq Hnd Hin. destruct (quiet_2 _ Hq) as [Hq1 Hq2].
  unfold Handler.UpdateBook. rewrite Ha.
  rewrite (GetBook_filter _ _ Hq1), (filter_id_unique _ _ Hnd Hin).
  destruct b as [i t h]. cbn [map Sqlite.row_of_book RowScan scan_book ID Title HasSales].
  rewrite UpdateBook_runs by exact Hq2.
  eexists. split; [reflexivity|]. split; reflexivity.
Qed.

(** X18: for a book that exists (identifiers being unique), when its two
    driver calls run, the update handler replaces the title and the
    has-sales flag of that row by the submitted values, has-sales being
    true exactly for the field value [on]; every other row is unchanged;
    and it redirects to the page of the book.  The title is not checked: an
    empty title is written like any other. *)
Theorem update_handler_on_existing_book
    (idParam title has_sales : string) (b : Book) (w : World) :
  strconv.Atoi idParam = (ID b, None) ->
  quiet 2 (faults w) = true ->
  NoDup (map ID (Sqlite.rows (store w))) ->
  In b (Sqlite.rows (store w)) ->
  exists w1,
    Handler.UpdateBook idParam title has_sales w
    = (redirect ("/books/" ++ format_int (ID b)), w1) /\
    Sqlite.rows (store w1) =
      map (fun r => if Z.eq_dec (ID r) (ID b)
                    then mkBook (ID b) title (String.eqb has_sales "on") else r)
          (Sqlite.rows (store w)).
Proof.
  intros Ha Hq Hnd Hin.
  destruct (UpdateBook_handler_runs idParam title has_sales b w Ha Hq Hnd Hin)
    as [w1 [H1 [H2 _]]].
  exists w1. split; [exact H1|]. rewrite H2. cbn [Sqlite.rows].
  unfold replace_book. apply map_ext. intros r. cbn [ID Title HasSales].
  destruct (Z.eq_dec (ID r) (ID b)) as [->|]; reflexivity.
Qed.

Lemma update_handler_on_existing_book_witness :
  exists w1,
    Handler.UpdateBook "2" EmptyString "on"
      (mkWorld (Sqlite.mkStore [mkBook 1 "Alpha" true; mkBook 2 "Beta" false] 2)
               None [] [])
    = (redirect "/books/2", w1) /\
    Sqlite.rows (store w1) = [mkBook 1 "Alpha" true; mkBook 2 EmptyString true].
Proof.
  destruct (update_handler_on_existing_book "2" EmptyString "on" (mkBook 2 "Beta" false)
              (mkWorld (Sqlite.mkStore [mkBook 1 "Alpha" true; mkBook 2 "Beta" false] 2)
                       None [] [])) as [w1 [H1 H2]].
  - reflexivity.
  - reflexivity.
  - simpl. repeat constructor; simpl; intuition discriminate.
  - simpl. auto.
  - exists w1. split; [exact H1|]. rewrite H2. reflexivity.
Defined.

(** ** The list handler *)

Lemma Atoi_syntax_zero (s : string) :
  snd (strconv.Atoi s) = Some strconv.ErrSyntaxNum -> fst (strconv.Atoi s) = 0.
Proof.
  unfold strconv.Atoi, strconv.ParseInt.
  destruct ((0 <? String.length s)%nat && (String.length s <? 19)%nat).
  - destruct s as [|c rest]; [reflexivity|].
    destruct (String.length _ <? 1)%nat; [reflexivity|].
    destruct (strconv.fast_digits _ 0); [discriminate|reflexivity].
  - destruct s as [|c rest]; [reflexivity|].
    destruct (strconv.ParseUint _) as [un [[|]|]]; [reflexivity| |];
      destruct (negb (Ascii.eqb c "-") && (un >=? 2 ^ 63));
      try discriminate;
      destruct (Ascii.eqb c "-" && (un >? 2 ^ 63)); discriminate.
Qed.

(** X19: a page parameter that is absent or empty, is not a number, or is
    a number below 1 is answered exactly as page 1. *)
Theorem list_handler_defaults_to_first_page (page search filter : string) (w : World) :
  page = EmptyString \/
  snd (strconv.Atoi page) = Some strconv.ErrSyntaxNum \/
  fst (strconv.Atoi page) < 1 ->
  Handler.ListBooks page search filter w = Handler.ListBooks "1" search filter w.
Proof.
  intros H.
  assert (Hp : page = EmptyString \/ fst (strconv.Atoi page) < 1).
  { destruct H as [H|[H|H]]; [now left| |now right].
    right. rewrite (Atoi_syntax_zero _ H). lia. }
  clear H. unfold Handler.ListBooks, HandlerListBooks.
  destruct Hp as [->|Hp]; [reflexivity|].
  destruct page as [|c rest]; [reflexivity|]. cbn [Query].
  apply Z.ltb_lt in Hp. rewrite Hp. reflexivity.
Qed.

Lemma list_handler_defaults_to_first_page_witness :
  let w := mkWorld (Sqlite.mkStore [mkBook 1 "Alpha" true] 1) None [] [] in
  Handler.ListBooks "-3" EmptyString EmptyString w
  = Handler.ListBooks "1" EmptyString EmptyString w.
Proof.
  intros w. apply list_handler_defaults_to_first_page.
  right. right. vm_compute. reflexivity.
Defined.

Lemma window_length_zero {A : Type} (k : nat) (l : list A) :
  Nat.eqb (List.length (firstn 5 (skipn k l))) 0 = true <-> (List.length l <= k)%nat.
Proof.
  rewrite Nat.eqb_eq, length_firstn, length_skipn. lia.
Qed.

(** X20: for a page number from 1 up to 1844674407370955162 (beyond which
    the offset no longer fits an [int]), fewer than 2^53 matching rows, and
    both queries running, the list handler shows the books at positions
    [5 * (page - 1)] to [5 * page - 1] of the matches in identifier order;
    has-next is set exactly when matches remain after this page, has-prev
    exactly when the page is not the first, and the no-books flag exactly
    when the page lies past the matches. *)
Theorem list_handler_shows_the_page
    (page search filter : string) (p : Z) (w : World) :
  fst (strconv.Atoi (Query page "1")) = p ->
  1 <= p <= 1844674407370955162 ->
  quiet 2 (faults w) = true ->
  Z.of_nat (List.length (matching search (Query filter "all") (Sqlite.rows (store w))))
    < 2 ^ 53 ->
  let total :=
    Z.of_nat (List.length (matching search (Query filter "all") (Sqlite.rows (store w)))) in
  exists (pg : Pagination) (noBooks : bool) (w1 : World),
    Handler.ListBooks page search filter w =
    (render (ViewBooks
               (window 5 (Z.to_nat (5 * (p - 1)))
                  (ordered_matches search (Query filter "all") (Sqlite.rows (store w))))
               pg noBooks search (Query filter "all")), w1) /\
    CurrentPage pg = p /\
    TotalPages pg = ceil_div total 5 /\
    (HasPrev pg = true <-> 1 < p) /\
    (HasNext pg = true <-> 5 * p < total) /\
    (noBooks = true <-> total <= 5 * (p - 1)) /\
    store w1 = store w.
Proof.
  intros Hp Hr Hq Hsmall total.
  unfold Handler.ListBooks, HandlerListBooks. rewrite Hp.
  replace (p <? 1) with false by (symmetry; apply Z.ltb_ge; lia).
  assert (Hsub : GoInt.sub p 1 = p - 1).
  { apply wrap_in_range. unfold GoInt.in_range, GoInt.MinInt, GoInt.MaxInt. lia. }
  assert (Hmul : GoInt.mul (p - 1) pageSize = 5 * (p - 1)).
  { unfold GoInt.mul, pageSize. rewrite wrap_in_range; [lia|].
    unfold GoInt.in_range, GoInt.MinInt, GoInt.MaxInt. lia. }
  rewrite Hsub, Hmul. rewrite (ListBooks_runs _ _ _ _ _ Hq).
  fold total. do 3 eexists. split; [|split; [|split; [|split; [|split; [|split]]]]].
  - unfold window, ordered_matches, Sqlite.limit_offset, pageSize.
    change (5 <? 0) with false. cbv iota. change (Z.to_nat 5) with 5%nat. reflexivity.
  - reflexivity.
  - cbn [TotalPages pagination TotalCount].
    rewrite totalPages_exact by (unfold total; lia).
    unfold ceil_div. symmetry. apply ceil_div_5.
  - cbn [HasPrev pagination]. apply Z.ltb_lt.
  - cbn [HasNext pagination TotalCount]. rewrite Z.ltb_lt.
    rewrite totalPages_exact by (unfold total; lia).
    split; intros H; Z.div_mod_to_equations; lia.
  - cbn [Books]. unfold Sqlite.limit_offset, pageSize.
    change (5 <? 0) with false. cbv iota. change (Z.to_nat 5) with 5%nat.
    rewrite window_length_zero, order_by_id_length. unfold total. lia.
  - reflexivity.
Qed.

Lemma list_handler_shows_the_page_witness :
  let w := mkWorld (Sqlite.mkStore
                      [mkBook 1 "A" true; mkBook 2 "B" false; mkBook 3 "C" false;
                       mkBook 4 "D" false; mkBook 5 "E" false; mkBook 6 "F" false] 6)
                   None [] [] in
  exists (pg : Pagination) (noBooks : bool) (w1 : World),
    Handler.ListBooks "2" EmptyString EmptyString w =
    (render (ViewBooks [mkBook 6 "F" false] pg noBooks EmptyString "all"), w1) /\
    (HasNext pg = true <-> 5 * 2 < 6).
Proof.
  intros w.
  destruct (list_handler_shows_the_page "2" EmptyString EmptyString 2 w)
    as [pg [nb [w1 [H1 [_ [_ [_ [H2 _]]]]]]]].
  - reflexivity.
  - lia.
  - reflexivity.
  - vm_compute. reflexivity.
  - exists pg, nb, w1. split; [exact H1|exact H2].
Defined.

(** ** The bulk edit form *)

Lemma books_of_form_spec (entries : list (string * (string * string))) :
  forall acc : list Book,
    Handler.books_of_form entries acc
    = (acc ++ map book_of_entry (filter positive_key entries))%list.
Proof.
  induction entries as [|[k [t h]] rest IH]; intros acc; simpl.
  - now rewrite app_nil_r.
  - unfold positive_key at 1. cbn [fst snd].
    destruct (fst (strconv.Atoi k) >? 0); rewrite IH; [|reflexivity].
    rewrite <- app_assoc. reflexivity.
Qed.

(** X21: the POST of the bulk edit form passes on the entries whose key is
    a positive number, in their order, and drops the others silently; the
    edit is all or nothing: when a driver call of the transaction fails the
    answer is 500 and the table is as before, otherwise the answer is 200
    with HX-Refresh and every passed entry has been applied. *)
Theorem bulk_edit_handler_is_atomic
    (entries : list (string * (string * string)))
    (book_ids : list string) (page search filter : string) (w : World) :
  txn w = None ->
  let booksToUpdate := map book_of_entry (List.filter positive_key entries) in
  exists w1,
    txn w1 = None /\
    match first_fault (List.length booksToUpdate + 3) (faults w) with
    | None =>
        Handler.BulkEditBooks true (Some entries) book_ids page search filter w
        = (refreshed_ok, w1) /\
        Sqlite.rows (store w1) = replace_books booksToUpdate (Sqlite.rows (store w))
    | Some _ =>
        Handler.BulkEditBooks true (Some entries) book_ids page search filter w
        = (send 500 "Failed to update books", w1) /\
        store w1 = store w
    end.
Proof.
  intros Htx booksToUpdate. unfold Handler.BulkEditBooks.
  rewrite books_of_form_spec. cbn [app]. fold booksToUpdate.
  destruct (BulkUpdateBooks_spec booksToUpdate w Htx) as [w1 [H1 [H2 H3]]].
  exists w1. split; [exact H2|]. rewrite H1.
  destruct (first_fault (List.length booksToUpdate + 3) (faults w)).
  - split; [reflexivity|exact H3].
  - split; [reflexivity|]. now rewrite H3.
Qed.

Lemma bulk_edit_handler_is_atomic_witness :
  exists w1,
    Handler.BulkEditBooks true
      (Some [("1", ("One", "on")); ("zero", ("Z", "on")); ("-2", ("M", "on"))]%string)
      [] EmptyString EmptyString EmptyString
      (mkWorld (Sqlite.mkStore [mkBook 1 "Alpha" false; mkBook 2 "Beta" false] 2)
               None [] []) = (refreshed_ok, w1) /\
    Sqlite.rows (store w1) = [mkBook 1 "One" true; mkBook 2 "Beta" false].
Proof.
  destruct (bulk_edit_handler_is_atomic
              [("1", ("One", "on")); ("zero", ("Z", "on")); ("-2", ("M", "on"))]%string
              [] EmptyString EmptyString EmptyString
              (mkWorld (Sqlite.mkStore [mkBook 1 "Alpha" false; mkBook 2 "Beta" false] 2)
                       None [] [])) as [w1 [_ H]].
  - reflexivity.
  - exists w1. exact H.
Defined.

(** ** The folder import *)

Lemma substring_split (s : string) :
  forall k : nat, (k <= String.length s)%nat ->
    (substring 0 k s ++ substring k (String.length s - k) s)%string = s.
Proof.
  induction s as [|c s IH]; intros k Hk.
  - destruct k; [reflexivity|simpl in Hk; lia].
  - destruct k as [|k].
    + cbn [substring append String.length Nat.sub]. f_equal.
      specialize (IH 0%nat (Nat.le_0_l _)).
      rewrite Nat.sub_0_r in IH.
      destruct (String.length s) eqn:E.
      * destruct s; [reflexivity|discriminate].
      * destruct s; [discriminate|]. exact IH.
    + simpl in Hk. cbn [substring append String.length Nat.sub]. f_equal.
      apply IH. lia.
Qed.

(** What [TrimSuffix] cuts off a name that [HasSuffix] accepts is the
    suffix. *)
Lemma TrimSuffix_HasSuffix (s suffix : string) :
  HasSuffix s suffix = true -> (TrimSuffix s suffix ++ suffix)%string = s.
Proof.
  intros H. unfold TrimSuffix. rewrite H. unfold HasSuffix in H.
  apply andb_true_iff in H. destruct H as [Hlen Heq].
  apply Nat.leb_le in Hlen. apply String.eqb_eq in Heq.
  pose proof (substring_split s (String.length s - String.length suffix) ltac:(lia)) as Hsp.
  replace (String.length s - (String.length s - String.length suffix))%nat
    with (String.length suffix) in Hsp by lia.
  now rewrite Heq in Hsp.
Qed.

Lemma CreateBook_cases (book : Book) (w : World) :
  (exists e w1, CreateBook book w = (Err e, w1) /\ store w1 = store w /\ txn w1 = txn w) \/
  (exists id w1,
     CreateBook book w = (Ok (mkBook id (Title book) (HasSales book)), w1) /\
     Sqlite.rows (store w1)
       = (Sqlite.rows (store w) ++ [mkBook id (Title book) (HasSales book)])%list /\
     txn w1 = txn w).
Proof.
  unfold CreateBook, ExecContext, driver_call, statement.
  destruct (faults w) as [|[e|] f]; cbn -[Z.max Z.add Z.gtb GoInt.MaxInt];
    try (left; do 2 eexists; split; [reflexivity|split; reflexivity]);
    (destruct (Z.max (Sqlite.seq (store w)) (Sqlite.max_id (Sqlite.rows (store w))) + 1
               >? GoInt.MaxInt);
     [left; do 2 eexists; split; [reflexivity|split; reflexivity]
     |right; do 2 eexists; split; [reflexivity|split; reflexivity]]).
Qed.

Lemma process_files_spec (files : list Handler.DirEntry) :
  forall (n : Z) (w : World),
    0 <= n -> n + Z.of_nat (List.length files) <= GoInt.MaxInt ->
    exists added : list Book,
      fst (Handler.process_files files n w) = n + Z.of_nat (List.length added) /\
      Sqlite.rows (store (snd (Handler.process_files files n w)))
        = (Sqlite.rows (store w) ++ added)%list /\
      (List.length added <= List.length files)%nat /\
      Forall (fun b => HasSales b = false /\
                       exists file, In file files /\ importable file = true /\
                                    Handler.Name file = (Title b ++ ".txt")%string) added.
Proof.
  induction files as [|file rest IH]; intros n w Hn Hmax.
  - exists []. cbn [Handler.process_files fst snd List.length]. rewrite app_nil_r.
    split; [simpl; lia|]. split; [reflexivity|]. split; [lia|constructor].
  - cbn [List.length] in Hmax. rewrite Nat2Z.inj_succ in Hmax.
    cbn [Handler.process_files].
    destruct (Handler.IsDir file || negb (HasSuffix (Handler.Name file) ".txt")) eqn:Eskip.
    + destruct (IH n w Hn ltac:(lia)) as [added [H1 [H2 [H3 H4]]]].
      exists added. split; [exact H1|]. split; [exact H2|]. split; [simpl; lia|].
      apply Forall_impl with (2 := H4). intros b [Hb [f [Hf Hf']]].
      split; [exact Hb|]. exists f. split; [now right|exact Hf'].
    + apply orb_false_iff in Eskip. destruct Eskip as [Hdir Hsuf].
      apply negb_false_iff in Hsuf.
      destruct (CreateBook_cases (mkBook 0 (TrimSuffix (Handler.Name file) ".txt") false) w)
        as [[e [w1 [Hc [Hs _]]]]|[id [w1 [Hc [Hs _]]]]]; rewrite Hc.
      * destruct (IH n w1 Hn ltac:(lia)) as [added [H1 [H2 [H3 H4]]]].
        exists added. split; [exact H1|]. split; [now rewrite H2, Hs|].
        split; [simpl; lia|].
        apply Forall_impl with (2 := H4). intros b [Hb [f [Hf Hf']]].
        split; [exact Hb|]. exists f. split; [now right|exact Hf'].
      * assert (Hadd : GoInt.add n 1 = n + 1).
        { apply wrap_in_range. unfold GoInt.in_range, GoInt.MinInt in *.
          unfold GoInt.MaxInt in *. lia. }
        rewrite Hadd.
        destruct (IH (n + 1) w1 ltac:(lia) ltac:(lia)) as [added [H1 [H2 [H3 H4]]]].
        cbn [Title HasSales] in Hs.
        exists (mkBook id (TrimSuffix (Handler.Name file) ".txt") false :: added).
        split; [rewrite H1; cbn [List.length]; lia|].
        split; [rewrite H2, Hs, <- app_assoc; reflexivity|].
        split; [simpl; lia|].
        constructor.
        -- split; [reflexivity|]. exists file. split; [now left|].
           split; [unfold importable; now rewrite Hdir, Hsuf|].
           cbn [Title]. symmetry. now apply TrimSuffix_HasSuffix.
        -- apply Forall_impl with (2 := H4). intros b [Hb [f [Hf Hf']]].
           split; [exact Hb|]. exists f. split; [now right|exact Hf'].
Qed.

(** X22: whatever the store does, the folder import only ever appends rows:
    the number it reports is the number of rows it appended, each appended
    book is not on sale and is titled by the name, without [.txt], of an
    entry of the directory that is not a directory and ends in [.txt];
    existing rows are untouched; a file whose book cannot be created is
    skipped and not counted.  When the directory cannot be made or read the
    answer is 500 and no driver call is made. *)
Theorem folder_import_appends_what_it_counts
    (files : list Handler.DirEntry) (w : World) :
  Z.of_nat (List.length files) <= GoInt.MaxInt ->
  (exists (added : list Book) (w1 : World),
     Handler.ProcessBooksFolder true (Some files) w
     = (mkResponse 200 true
          (BText ("<div class='text-green-600 mt-2'>Successfully processed and added "
                    ++ format_int (Z.of_nat (List.length added)) ++ " new books.</div>")),
        w1) /\
     Sqlite.rows (store w1) = (Sqlite.rows (store w) ++ added)%list /\
     (List.length added <= List.length files)%nat /\
     Forall (fun b => HasSales b = false /\
                      exists file, In file files /\ importable file = true /\
                                   Handler.Name file = (Title b ++ ".txt")%string) added) /\
  Handler.ProcessBooksFolder false (Some files) w
    = (send 500 "Server error creating directories.", w) /\
  Handler.ProcessBooksFolder true None w
    = (send 500 "Could not read import directory.", w).
Proof.
  intros Hlen. split; [|split; reflexivity].
  destruct (process_files_spec files 0 w ltac:(lia) ltac:(lia)) as [added [H1 [H2 [H3 H4]]]].
  unfold Handler.ProcessBooksFolder. cbn [negb].
  destruct (Handler.process_files files 0 w) as [n w1]. cbn [fst snd] in H1, H2.
  exists added, w1. rewrite H1. cbn [Z.add]. repeat split; assumption.
Qed.

Lemma folder_import_appends_what_it_counts_witness :
  let w := mkWorld (Sqlite.mkStore [mkBook 1 "Alpha" true] 1) None [] [] in
  exists (added : list Book) (w1 : World),
    Sqlite.rows (store (snd (Handler.ProcessBooksFolder true
       (Some [Handler.mkDirEntry "a.txt" false; Handler.mkDirEntry "processed" true;
              Handler.mkDirEntry "b.md" false]) w)))
    = (mkBook 1 "Alpha" true :: added)%list /\
    (List.length added <= 3)%nat.
Proof.
  intros w.
  destruct (folder_import_appends_what_it_counts
              [Handler.mkDirEntry "a.txt" false; Handler.mkDirEntry "processed" true;
               Handler.mkDirEntry "b.md" false] w)
    as [[added [w1 [H1 [H2 [H3 _]]]]] _].
  - vm_compute. discriminate.
  - exists added, w1. split; [|exact H3]. rewrite H1. cbn [snd]. exact H2.
Defined.

(** ** Identifiers in paths *)

Lemma of_uint_acc_ge (d : Decimal.uint) :
  forall acc : positive, (acc <= Pos.of_uint_acc d acc)%positive.
Proof.
  induction d; intros acc; cbn [Pos.of_uint_acc]; [apply Pos.le_refl|..];
    match goal with
    | |- (_ <= Pos.of_uint_acc _ ?a)%positive => specialize (IHd a); lia
    end.
Qed.

Lemma fast_digits_acc (d : Decimal.uint) :
  forall acc : positive,
    strconv.fast_digits (NilEmpty.string_of_uint d) (Zpos acc)
    = Some (Zpos (Pos.of_uint_acc d acc)).
Proof.
  induction d; intros acc; [reflexivity|..];
    cbn [NilEmpty.string_of_uint strconv.fast_digits]; digit_value;
    cbv iota beta zeta; cbn [Pos.of_uint_acc];
    match goal with
    | |- context [(?x - 48) mod 256] =>
        let v := eval vm_compute in ((x - 48) mod 256) in
        change ((x - 48) mod 256) with v
    end;
    cbn [Z.gtb Z.compare Pos.compare Pos.compare_cont];
    match goal with
    | |- strconv.fast_digits _ ?n = Some (Zpos (Pos.of_uint_acc _ ?a)) =>
        replace n with (Zpos a) by lia
    end; apply IHd.
Qed.

Lemma fast_digits_uint (d : Decimal.uint) :
  strconv.fast_digits (NilEmpty.string_of_uint d) 0 = Some (Z.of_N (Pos.of_uint d)).
Proof.
  induction d; [reflexivity|exact IHd|..];
    cbn [NilEmpty.string_of_uint strconv.fast_digits Pos.of_uint]; digit_value;
    cbv iota beta zeta;
    match goal with
    | |- context [(?x - 48) mod 256] =>
        let v := eval vm_compute in ((x - 48) mod 256) in
        change ((x - 48) mod 256) with v
    end;
    cbn [Z.gtb Z.compare Pos.compare Pos.compare_cont Z.mul Z.add Z.of_N];
    apply fast_digits_acc.
Qed.

Lemma uint_digits_acc (d : Decimal.uint) :
  forall acc : positive,
    Zpos (Pos.of_uint_acc d acc) <= 2 ^ 64 - 1 ->
    strconv.uint_digits (NilEmpty.string_of_uint d) (Zpos acc)
    = (Zpos (Pos.of_uint_acc d acc), None).
Proof.
  induction d; intros acc Hmax; [reflexivity|..];
    cbn [NilEmpty.string_of_uint strconv.uint_digits]; digit_value;
    cbv iota beta zeta; cbn [Pos.of_uint_acc] in *;
    match goal with
    | |- context [(48 <=? ?c) && (?c <=? 57)] =>
        change ((48 <=? c) && (c <=? 57)) with true
    end; cbv iota;
    match goal with
    | H : Zpos (Pos.of_uint_acc _ ?a) <= _ |- context [?n1 >? 2 ^ 64 - 1] =>
        pose proof (of_uint_acc_ge d a) as Hge;
        replace (Z.pos acc >=? (2 ^ 64 - 1) / 10 + 1) with false
          by (symmetry; rewrite Z.geb_leb; apply Z.leb_gt;
              change ((2 ^ 64 - 1) / 10 + 1) with 1844674407370955162; lia);
        replace n1 with (Zpos a) by lia;
        replace (Zpos a >? 2 ^ 64 - 1) with false
          by (symmetry; rewrite Z.gtb_ltb; apply Z.ltb_ge; lia)
    end; apply IHd; exact Hmax.
Qed.

Lemma uint_digits_uint (d : Decimal.uint) :
  Z.of_N (Pos.of_uint d) <= 2 ^ 64 - 1 ->
  strconv.uint_digits (NilEmpty.string_of_uint d) 0 = (Z.of_N (Pos.of_uint d), None).
Proof.
  induction d; intros Hmax; [reflexivity|exact (IHd Hmax)|..];
    cbn [NilEmpty.string_of_uint strconv.uint_digits Pos.of_uint] in *; digit_value;
    cbv iota beta zeta;
    match goal with
    | |- context [(48 <=? ?c) && (?c <=? 57)] =>
        change ((48 <=? c) && (c <=? 57)) with true
    end; cbv iota;
    change (0 >=? (2 ^ 64 - 1) / 10 + 1) with false; cbv iota;
    match goal with
    | |- context [?n1 >? 2 ^ 64 - 1] =>
        let v := eval vm_compute in n1 in
        change n1 with v; change (v >? 2 ^ 64 - 1) with false
    end; cbv iota; cbn [Z.of_N] in *;
    apply uint_digits_acc; exact Hmax.
Qed.

Lemma string_of_uint_first (d : Decimal.uint) :
  d <> Decimal.Nil ->
  exists c rest,
    NilEmpty.string_of_uint d = String c rest /\
    Ascii.eqb c "-" = false /\ Ascii.eqb c "+" = false.
Proof.
  intros Hd. destruct d; [contradiction|..]; do 2 eexists; repeat split.
Qed.

Lemma string_of_uint_length (d : Decimal.uint) :
  String.length (NilEmpty.string_of_uint d) = Decimal.nb_digits d.
Proof.
  induction d; simpl; auto.
Qed.

(** [strconv.Atoi] reads back what [%d] prints for an [int]. *)
Lemma Atoi_format_int (z : Z) :
  GoInt.in_range z -> strconv.Atoi (format_int z) = (z, None).
Proof.
  unfold GoInt.in_range, GoInt.MinInt, GoInt.MaxInt. intros Hr.
  unfold format_int. destruct z as [|p|p]; [reflexivity| |].
  - (* positive *)
    cbn [Z.to_int NilZero.string_of_int].
    pose proof (DecimalPos.Unsigned.of_to p) as Hof.
    pose proof (Unsigned.to_uint_nonnil p) as Hnn.
    set (d := Pos.to_uint p) in *.
    assert (Hs : NilZero.string_of_uint d = NilEmpty.string_of_uint d)
      by (destruct d; [contradiction|..]; reflexivity).
    rewrite Hs.
    destruct (string_of_uint_first d Hnn) as [c [rest [Hc [Hm Hp]]]].
    pose proof (fast_digits_uint d) as Hfast. pose proof (uint_digits_uint d) as Hslow.
    rewrite Hof in Hfast, Hslow. cbn [Z.of_N] in Hfast, Hslow.
    rewrite Hc in *. unfold strconv.Atoi, strconv.ParseInt, strconv.ParseUint.
    rewrite Hm, Hp. cbn [orb negb andb]. rewrite Hfast, Hslow by lia.
    replace (Z.pos p >=? 2 ^ 63) with false by (symmetry; rewrite Z.geb_leb; apply Z.leb_gt; lia).
    cbn [String.length Nat.ltb Nat.leb].
    match goal with |- (if ?b then _ else _) = _ => destruct b; reflexivity end.
  - (* negative *)
    cbn [Z.to_int NilZero.string_of_int].
    pose proof (DecimalPos.Unsigned.of_to p) as Hof.
    pose proof (Unsigned.to_uint_nonnil p) as Hnn.
    set (d := Pos.to_uint p) in *.
    assert (Hs : NilZero.string_of_uint d = NilEmpty.string_of_uint d)
      by (destruct d; [contradiction|..]; reflexivity).
    rewrite Hs.
    destruct (string_of_uint_first d Hnn) as [c [rest [Hc [Hm Hp]]]].
    pose proof (fast_digits_uint d) as Hfast. pose proof (uint_digits_uint d) as Hslow.
    rewrite Hof in Hfast, Hslow. cbn [Z.of_N] in Hfast, Hslow.
    rewrite Hc in *. unfold strconv.Atoi, strconv.ParseInt, strconv.ParseUint.
    change (Ascii.Ascii true false true true false true false false) with "-"%char.
    cbn [Ascii.eqb Bool.eqb orb negb andb]. rewrite Hfast, Hslow by lia.
    replace (Z.pos p >? 2 ^ 63) with false by (symmetry; rewrite Z.gtb_ltb; apply Z.ltb_ge; lia).
    cbn [String.length Nat.ltb Nat.leb].
    match goal with |- (if ?b then _ else _) = _ => destruct b; reflexivity end.
Qed.

(** X23: the redirect of the update handler leads back to the same book:
    the path it names carries the identifier as [%d] prints it,
    [strconv.Atoi] reads that identifier back, and the view handler on it
    shows the book with the title and has-sales flag just submitted. *)
Theorem update_then_follow_redirect
    (title has_sales edit : string) (b : Book) (w : World) :
  GoInt.in_range (ID b) ->
  quiet 3 (faults w) = true ->
  NoDup (map ID (Sqlite.rows (store w))) ->
  In b (Sqlite.rows (store w)) ->
  exists (idParam : string) (w1 w2 : World),
    Handler.UpdateBook (format_int (ID b)) title has_sales w
    = (redirect ("/books/" ++ idParam), w1) /\
    strconv.Atoi idParam = (ID b, None) /\
    Handler.ViewBook idParam edit false w1
    = (render (ViewBook (mkBook (ID b) title (String.eqb has_sales "on"))
                        (String.eqb edit "true")), w2).
Proof.
  intros Hr Hq Hnd Hin.
  pose proof (Atoi_format_int _ Hr) as Ha.
  assert (Hq2 : quiet 2 (faults w) = true) by (apply quiet_S in Hq; exact Hq).
  destruct (UpdateBook_handler_runs _ title has_sales b w Ha Hq2 Hnd Hin)
    as [w1 [H1 [H2 H3]]].
  exists (format_int (ID b)), w1. eexists. split; [exact H1|]. split; [exact Ha|].
  unfold Handler.ViewBook. rewrite Ha.
  assert (Hq3 : quiet 1 (faults w1) = true).
  { rewrite H3. do 2 apply quiet_tl in Hq. exact Hq. }
  rewrite (GetBook_filter _ _ Hq3). rewrite H2. cbn [Sqlite.rows].
  rewrite (filter_id_unique _ (mkBook (ID b) title (String.eqb has_sales "on"))).
  - reflexivity.
  - unfold replace_book. rewrite map_ID_update; [exact Hnd|].
    intros r. cbn [ID]. now destruct (Z.eq_dec (ID r) (ID b)).
  - unfold replace_book. apply in_map_iff. exists b. split; [|exact Hin].
    cbn [ID Title HasSales]. destruct (Z.eq_dec (ID b) (ID b)); [reflexivity|contradiction].
Qed.

Lemma update_then_follow_redirect_witness :
  exists (idParam : string) (w1 w2 : World),
    Handler.UpdateBook (format_int 2) "New" "on"
      (mkWorld (Sqlite.mkStore [mkBook 1 "Alpha" true; mkBook 2 "Beta" false] 2)
               None [] [])
    = (redirect ("/books/" ++ idParam), w1) /\
    strconv.Atoi idParam = (2, None) /\
    Handler.ViewBook idParam "true" false w1
    = (render (ViewBook (mkBook 2 "New" true) true), w2).
Proof.
  apply (update_then_follow_redirect "New" "on" "true" (mkBook 2 "Beta" false)
           (mkWorld (Sqlite.mkStore [mkBook 1 "Alpha" true; mkBook 2 "Beta" false] 2)
                    None [] [])).
  - vm_compute. split; discriminate.
  - reflexivity.
  - simpl. repeat constructor; simpl; intuition discriminate.
  - simpl. auto.
Defined.

(** * Starting the application again *)

Lemma existsb_id (id : Z) (rows : list Book) :
  existsb (fun r => ID r =? id) rows = true <-> In id (map ID rows).
Proof.
  rewrite existsb_exists, in_map_iff. split.
  - intros [r [Hr E]]. apply Z.eqb_eq in E. eauto.
  - intros [r [E Hr]]. exists r. split; [exact Hr|]. now apply Z.eqb_eq.
Qed.

Lemma insert_or_ignore_spec (new : list Book) :
  forall s : Sqlite.Store,
  exists added : list Book,
    Sqlite.rows (insert_or_ignore new s) = (Sqlite.rows s ++ added)%list /\
    (forall b, In b added -> In b new /\ ~ In (ID b) (map ID (Sqlite.rows s))) /\
    (forall b, In b new -> In (ID b) (map ID (Sqlite.rows (insert_or_ignore new s)))) /\
    (NoDup (map ID (Sqlite.rows s)) ->
     NoDup (map ID (Sqlite.rows (insert_or_ignore new s)))).
Proof.
  induction new as [|b rest IH]; intros s.
  - exists []. cbn. rewrite app_nil_r. repeat split; auto; contradiction.
  - cbn [insert_or_ignore].
    destruct (existsb (fun r => ID r =? ID b) (Sqlite.rows s)) eqn:E.
    + destruct (IH s) as [added [H1 [H2 [H3 H4]]]].
      exists added. split; [exact H1|]. split; [|split; [|exact H4]].
      * intros x Hx. destruct (H2 x Hx). split; [now right|assumption].
      * intros x [<-|Hx]; [|now apply H3].
        rewrite H1, map_app. apply in_or_app. left. now apply existsb_id.
    + assert (Hnew : ~ In (ID b) (map ID (Sqlite.rows s))).
      { intros Hin. apply existsb_id in Hin. congruence. }
      destruct (IH (Sqlite.mkStore (Sqlite.rows s ++ [b]) (Z.max (Sqlite.seq s) (ID b))))
        as [added [H1 [H2 [H3 H4]]]].
      cbn [Sqlite.rows] in *.
      exists (b :: added). split; [rewrite H1, <- app_assoc; reflexivity|].
      split; [|split].
      * intros x [<-|Hx]; [split; [now left|exact Hnew]|].
        destruct (H2 x Hx) as [Hin Hnot]. split; [now right|].
        intros Hc. apply Hnot. rewrite map_app. apply in_or_app. now left.
      * intros x [<-|Hx]; [|now apply H3].
        rewrite H1, !map_app. apply in_or_app. left. apply in_or_app. right. simpl. auto.
      * intros Hnd. apply H4. rewrite map_app. simpl.
        apply NoDup_app; [exact Hnd|repeat constructor; auto|].
        intros x Hx [<-|[]]. contradiction.
Qed.

Lemma insert_or_ignore_present (new : list Book) (s : Sqlite.Store) :
  (forall b, In b new -> In (ID b) (map ID (Sqlite.rows s))) ->
  insert_or_ignore new s = s.
Proof.
  induction new as [|b rest IH]; intros H; [reflexivity|].
  cbn [insert_or_ignore].
  replace (existsb (fun r => ID r =? ID b) (Sqlite.rows s)) with true.
  - apply IH. intros x Hx. apply H. now right.
  - symmetry. apply existsb_id. apply H. now left.
Qed.

(** X24: starting the application on an existing database keeps every row
    as it is, edits of sample books included, and only appends sample books
    whose identifier is missing, so a sample book that was deleted comes
    back; afterwards every sample identifier is present, identifiers are
    still unique, and starting once more changes nothing. *)
Theorem restart_keeps_rows_and_restores_samples (s : Sqlite.Store) :
  NoDup (map ID (Sqlite.rows s)) ->
  (exists added : list Book,
     Sqlite.rows (NewDatabase s) = (Sqlite.rows s ++ added)%list /\
     forall b, In b added -> In b sampleBooks /\ ~ In (ID b) (map ID (Sqlite.rows s))) /\
  (forall id, 1 <= id <= 7 -> In id (map ID (Sqlite.rows (NewDatabase s)))) /\
  NoDup (map ID (Sqlite.rows (NewDatabase s))) /\
  NewDatabase (NewDatabase s) = NewDatabase s.
Proof.
  intros Hnd. unfold NewDatabase.
  destruct (insert_or_ignore_spec sampleBooks s) as [added [H1 [H2 [H3 H4]]]].
  split; [exists added; split; assumption|].
  assert (Hall : forall b, In b sampleBooks ->
                           In (ID b) (map ID (Sqlite.rows (insert_or_ignore sampleBooks s))))
    by exact H3.
  split; [|split; [exact (H4 Hnd)|now apply insert_or_ignore_present]].
  intros id Hid.
  assert (Hc : id = 1 \/ id = 2 \/ id = 3 \/ id = 4 \/ id = 5 \/ id = 6 \/ id = 7) by lia.
  destruct Hc as [-> | [-> | [-> | [-> | [-> | [-> | ->]]]]]];
    match goal with
    | |- In ?i _ =>
        match goal with
        | _ => apply (Hall (mkBook i "Sample Book 1" true)); simpl; tauto
        | _ => apply (Hall (mkBook i "Sample Book 2" false)); simpl; tauto
        | _ => apply (Hall (mkBook i "Sample Book 3" false)); simpl; tauto
        | _ => apply (Hall (mkBook i "Sample Book 4" false)); simpl; tauto
        | _ => apply (Hall (mkBook i "Sample Book 5" false)); simpl; tauto
        | _ => apply (Hall (mkBook i "Sample Book 6" false)); simpl; tauto
        | _ => apply (Hall (mkBook i "Sample Book 7" false)); simpl; tauto
        end
    end.
Qed.

Lemma restart_keeps_rows_and_restores_samples_witness :
  Sqlite.rows (NewDatabase
     (Sqlite.mkStore [mkBook 1 "Edited" false; mkBook 2 "Sample Book 2" false;
                      mkBook 4 "Sample Book 4" false; mkBook 5 "Sample Book 5" false;
                      mkBook 6 "Sample Book 6" false; mkBook 7 "Sample Book 7" false;
                      mkBook 8 "Mine" true] 8))
  = [mkBook 1 "Edited" false; mkBook 2 "Sample Book 2" false;
     mkBook 4 "Sample Book 4" false; mkBook 5 "Sample Book 5" false;
     mkBook 6 "Sample Book 6" false; mkBook 7 "Sample Book 7" false;
     mkBook 8 "Mine" true; mkBook 3 "Sample Book 3" false].
Proof.
  destruct (restart_keeps_rows_and_restores_samples
     (Sqlite.mkStore [mkBook 1 "Edited" false; mkBook 2 "Sample Book 2" false;
                      mkBook 4 "Sample Book 4" false; mkBook 5 "Sample Book 5" false;
                      mkBook 6 "Sample Book 6" false; mkBook 7 "Sample Book 7" false;
                      mkBook 8 "Mine" true] 8)) as [_ _].
  - simpl. repeat constructor; simpl; intuition discriminate.
  - reflexivity.
Defined.
